(** * DynamicPerifusionTraits: the trait-extraction engine of
      [code/peak_function.py], embedded and verified.

    The embedding follows the Python source function by function:
    - [parse_basal_secretion], [parse_peak_and_baseline_region],
      [AUC_from_a_region] and [traits_for_all] keep their names;
    - a float64 is a value of [float]: either [NaN] or a rational
      [Fin q].  The operations of [Float] are exact (no rounding, no
      overflow); the product of the relative-height test, whose rounding
      decides the test at the threshold, is rounded to the nearest
      float64 ([F64.mul]).  Every division of the source has a divisor
      guarded away from zero;
    - a pandas Series / numpy array is a list; exceptions are the left
      summand of [result];
    - the [all_results] dictionary is an association list that keeps the
      insertion order of its keys, as Python dictionaries do. *)

From Stdlib Require Import QArith Qabs Qround Qpower ZArith NArith List String Ascii.
From Stdlib Require Import Bool Lia Lqa.
From Stdlib Require Import DecimalString DecimalN.
Import ListNotations.

Local Open Scope string_scope.
Local Open Scope list_scope.
Local Open Scope bool_scope.

(** ** Exceptions *)

Module Exc.

(** The exceptions the module can raise: [KeyError] and [AssertionError]
    are raised explicitly by [traits_for_all]; [ValueError] covers
    [int()] on a malformed literal, a tuple unpacking of the wrong arity
    and numpy's reduction of an empty array. *)
Inductive exn := KeyError | AssertionError | ValueError.

Inductive result (A : Type) :=
| Ok (a : A)
| Raise (e : exn).
Arguments Ok {A} a.
Arguments Raise {A} e.

Definition bind {A B} (m : result A) (k : A -> result B) : result B :=
  match m with
  | Ok a => k a
  | Raise e => Raise e
  end.

Definition is_ok {A} (m : result A) : bool :=
  match m with Ok _ => true | Raise _ => false end.

(** Run [f] on each element in order, stopping at the first exception. *)
Fixpoint mapM {A B} (f : A -> result B) (l : list A) : result (list B) :=
  match l with
  | [] => Ok []
  | a :: l' =>
      bind (f a) (fun b => bind (mapM f l') (fun bs => Ok (b :: bs)))
  end.

End Exc.
Import Exc.

Declare Scope exc_scope.
Notation "x <- m ;; k" := (bind m (fun x => k))
  (at level 61, m at next level, right associativity) : exc_scope.
Notation "' pat <- m ;; k" := (bind m (fun x => match x with pat => k end))
  (at level 61, pat pattern, m at next level, right associativity) : exc_scope.
Local Open Scope exc_scope.

(** ** Python strings *)

Module PyStr.

(** [s.lower()], on the ASCII range. *)
Definition lower_ascii (c : ascii) : ascii :=
  let n := nat_of_ascii c in
  if (65 <=? n)%nat && (n <=? 90)%nat then ascii_of_nat (n + 32) else c.

Fixpoint lower (s : string) : string :=
  match s with
  | EmptyString => EmptyString
  | String c s' => String (lower_ascii c) (lower s')
  end.

(** [needle in hay] for strings. *)
Fixpoint contains (needle hay : string) : bool :=
  if String.prefix needle hay then true
  else match hay with
       | EmptyString => false
       | String _ hay' => contains needle hay'
       end.

(** [c in s] for a single character. *)
Fixpoint has_char (c : ascii) (s : string) : bool :=
  match s with
  | EmptyString => false
  | String a s' => Ascii.eqb a c || has_char c s'
  end.

(** [s.split(sep)] for a one-character separator: never empty, one more
    piece than there are separators. *)
Fixpoint split (sep : ascii) (s : string) : list string :=
  match s with
  | EmptyString => [EmptyString]
  | String c s' =>
      if Ascii.eqb c sep then EmptyString :: split sep s'
      else match split sep s' with
           | piece :: rest => String c piece :: rest
           | [] => [String c EmptyString]
           end
  end.

(** [int(s)] for a plain decimal literal (a non-empty run of ASCII
    digits), which is what a RangeSpec token holds.  Anything else is a
    [ValueError]; a leading minus sign never reaches [int] with digits
    after it, because the caller splits on it first. *)
Definition int (s : string) : result Z :=
  match NilZero.uint_of_string s with
  | Some d => Ok (Z.of_N (N.of_uint d))
  | None => Raise ValueError
  end.

(** [str(n)] for a natural number. *)
Definition str (n : N) : string := NilZero.string_of_uint (N.to_uint n).

(** ["sep".join(parts)]. *)
Fixpoint join (sep : ascii) (parts : list string) : string :=
  match parts with
  | [] => EmptyString
  | [p] => p
  | p :: rest => (p ++ String sep (join sep rest))%string
  end.

End PyStr.

(** ** Floating-point values *)

Module Float.

(** A float64: [NaN] (which is also how a missing sample is encoded in a
    donor column) or a finite number. *)
Inductive float :=
| NaN
| Fin (q : Q).

Definition is_nan (a : float) : bool :=
  match a with NaN => true | Fin _ => false end.

Definition lift2 (op : Q -> Q -> Q) (a b : float) : float :=
  match a, b with
  | Fin x, Fin y => Fin (op x y)
  | _, _ => NaN
  end.

Definition add := lift2 Qplus.
Definition sub := lift2 Qminus.
Definition mul := lift2 Qmult.
Definition div := lift2 Qdiv.

Definition abs (a : float) : float :=
  match a with NaN => NaN | Fin x => Fin (Qabs x) end.

(** Every comparison with a NaN operand is false. *)
Definition cmp2 (op : Q -> Q -> bool) (a b : float) : bool :=
  match a, b with
  | Fin x, Fin y => op x y
  | _, _ => false
  end.

Definition le := cmp2 Qle_bool.
Definition ge := cmp2 (fun x y => Qle_bool y x).
Definition lt := cmp2 (fun x y => negb (Qle_bool y x)).
Definition gt := cmp2 (fun x y => negb (Qle_bool x y)).
Definition eqb := cmp2 Qeq_bool.

(** A Python [int] used where a float is expected. *)
Definition of_Z (z : Z) : float := Fin (inject_Z z).

(** Two floats hold the same value: both NaN, or equal numbers. *)
Definition same (a b : float) : Prop :=
  match a, b with
  | NaN, NaN => True
  | Fin x, Fin y => x == y
  | _, _ => False
  end.

End Float.
Import Float.

(** ** Rounding to float64 *)

Module F64.

Definition pow2 (e : Z) : Q := (2 ^ e)%Q.

(** [floor (log2 x)] of a positive rational. *)
Definition ilog2 (x : Q) : Z :=
  let l := (Z.log2 (Qnum x) - Z.log2 (Zpos (Qden x)))%Z in
  if Qle_bool (pow2 l) x then l else (l - 1)%Z.

(** Exponent of the unit in the last place at [x]: significands have 53
    bits, and below [2 ** -1022] the spacing stays [2 ** -1074]. *)
Definition ulp_exponent (x : Q) : Z := Z.max (ilog2 x - 52) (-1074).

(** The nearest integer, a tie going to the even one. *)
Definition round_half_even (t : Q) : Z :=
  let k := Qfloor t in
  match Qcompare (t - inject_Z k) (1 # 2) with
  | Lt => k
  | Gt => (k + 1)%Z
  | Eq => if Z.even k then k else (k + 1)%Z
  end.

Definition round_pos (x : Q) : Q :=
  let u := pow2 (ulp_exponent x) in
  (inject_Z (round_half_even (x / u)) * u)%Q.

(** The largest float64, [(2 ** 53 - 1) * 2 ** 971]. *)
Definition max_float : Q := inject_Z ((2 ^ 53 - 1) * 2 ^ 971).

(** The float64 nearest to [x] (IEEE 754 round-to-nearest, ties to even),
    which is what a float64 operation returns for the exact result [x].
    There is no infinity: where the float64 operation overflows, [round]
    returns a number beyond [max_float], which compares with every
    finite float64 as the infinity does. *)
Definition round (x : Q) : Q :=
  match Qnum x with
  | Z0 => 0
  | Zpos _ => round_pos x
  | Zneg _ => (- round_pos (- x))%Q
  end.

(** [x] is the value of a finite float64: rounding leaves it as it is,
    and it lies within the range. *)
Definition is_float64 (x : Q) : bool :=
  Qeq_bool (round x) x && Qle_bool (Qabs x) max_float.

(** [x * y] on two float64: the exact product, rounded.  Every Python
    float is a float64; on a rational that is not one, which no run of
    the code holds, the product is left exact. *)
Definition product (x y : Q) : Q :=
  if is_float64 x && is_float64 y then round (x * y) else (x * y)%Q.

Definition mul (a b : float) : float := lift2 product a b.

End F64.

(** ** numpy and pandas primitives *)

Module Np.

(** Boolean-mask indexing [values[mask]]. *)
Fixpoint select {A} (mask : list bool) (values : list A) : list A :=
  match mask, values with
  | b :: mask', v :: values' =>
      if b then v :: select mask' values' else select mask' values'
  | _, _ => []
  end.

(** [(entire_x >= start) & (entire_x <= end)]. *)
Definition between (start end_ : Z) (entire_x : list float) : list bool :=
  map (fun t => ge t (of_Z start) && le t (of_Z end_)) entire_x.

(** [entire_x == time_point]. *)
Definition equals (time_point : Z) (entire_x : list float) : list bool :=
  map (fun t => eqb t (of_Z time_point)) entire_x.

(** [entire_x.isin(time_points)]; the points come out of the two masks
    above, so none of them is a NaN. *)
Definition isin (entire_x time_points : list float) : list bool :=
  map (fun t => existsb (eqb t) time_points) entire_x.

(** [series.hasnans]. *)
Definition hasnans (series : list float) : bool := existsb is_nan series.

Definition finite_values (series : list float) : list Q :=
  flat_map (fun a => match a with NaN => [] | Fin q => [q] end) series.

Definition Qsum (l : list Q) : Q := fold_left Qplus l 0%Q.

(** [np.mean(series)] on a pandas Series: the mean of the non-missing
    entries, NaN when there is none. *)
Definition mean (series : list float) : float :=
  match finite_values series with
  | [] => NaN
  | vs => Fin (Qsum vs / inject_Z (Z.of_nat (List.length vs)))
  end.

(** One step of numpy's maximum: NaN wins, otherwise the larger number
    (the earlier one on a tie). *)
Definition max2 (cur a : float) : float :=
  match cur, a with
  | NaN, _ => NaN
  | _, NaN => NaN
  | Fin _, Fin _ => if gt a cur then a else cur
  end.

(** [np.max(values)] for a non-empty array (the head of an empty one is
    read as NaN; the integrator only reduces non-empty regions). *)
Definition max_of (values : list float) : float :=
  match values with
  | [] => NaN
  | a :: rest => fold_left max2 rest a
  end.

(** [np.max(values)]: an empty array is a ValueError. *)
Definition max (values : list float) : result float :=
  match values with
  | [] => Raise ValueError
  | _ => Ok (max_of values)
  end.

(** [np.argmax(values)]: index of the first maximum (of the first NaN if
    there is one). *)
Fixpoint argmax_from (best_i : nat) (best : float) (i : nat)
    (values : list float) : nat :=
  match values with
  | [] => best_i
  | a :: rest =>
      if gt a best || (is_nan a && negb (is_nan best))
      then argmax_from i a (S i) rest
      else argmax_from best_i best (S i) rest
  end.

Definition argmax (values : list float) : nat :=
  match values with
  | [] => 0%nat
  | a :: rest => argmax_from 0 a 1 rest
  end.

(** [values[lo:hi]]. *)
Definition slice {A} (values : list A) (lo hi : nat) : list A :=
  firstn (hi - lo) (skipn lo values).

(** Python's builtin [max(values)] on a non-empty sequence: keep the
    running item, replace it when a later item compares greater. *)
Definition builtin_max_from (first : float) (rest : list float) : float :=
  fold_left (fun cur a => if gt a cur then a else cur) rest first.

End Np.

(** ** RangeResolver: the loop shared by the two parse functions *)

(** [FLOAT_TOLERANCE = 1e-5], taken as the rational 1/100000. *)
Definition FLOAT_TOLERANCE : float := Fin (1 # 100000).

(** One iteration of [for per_range in ranges]: the time points of the
    axis that the token denotes. *)
Definition resolve_token (entire_x : list float) (per_range : string)
    : result (list float) :=
  if PyStr.has_char "-" per_range then
    match PyStr.split "-" per_range with
    | [start; end_] =>
        start <- PyStr.int start ;;
        end_ <- PyStr.int end_ ;;
        Ok (Np.select (Np.between start end_ entire_x) entire_x)
    | _ => Raise ValueError
    end
  else
    time_point <- PyStr.int per_range ;;
    Ok (Np.select (Np.equals time_point entire_x) entire_x).

Fixpoint resolve_ranges (entire_x : list float) (ranges : list string)
    (time_points : list float) : result (list float) :=
  match ranges with
  | [] => Ok time_points
  | per_range :: rest =>
      pts <- resolve_token entire_x per_range ;;
      resolve_ranges entire_x rest (time_points ++ pts)
  end.

(** Lines 53-62 (and again 109-118): split on '|', extend [time_points]
    token by token. *)
Definition resolve (entire_x : list float) (basal_range : string)
    : result (list float) :=
  resolve_ranges entire_x (PyStr.split "|" basal_range) [].

Definition parse_basal_secretion (entire_x entire_y : list float)
    (basal_range : string) : result float :=
  time_points <- resolve entire_x basal_range ;;
  Ok (Np.mean (Np.select (Np.isin entire_x time_points) entire_y)).

Definition parse_peak_and_baseline_region (entire_x entire_y : list float)
    (peak_range baseline_points : string) (negative_peak : bool)
    : result (list float * list float * float) :=
  baseline_time_points <- resolve entire_x baseline_points ;;
  let y_baseline :=
    Np.mean (Np.select (Np.isin entire_x baseline_time_points) entire_y) in
  match PyStr.split "-" peak_range with
  | [start; end_] =>
      start <- PyStr.int start ;;
      end_ <- PyStr.int end_ ;;
      let x_curve := Np.select (Np.between start end_ entire_x) entire_x in
      let y_curve := Np.select (Np.between start end_ entire_x) entire_y in
      let corrected_curve :=
        if negative_peak then map (fun v => sub y_baseline v) y_curve
        else map (fun v => sub v y_baseline) y_curve in
      Ok (x_curve, corrected_curve, y_baseline)
  | _ => Raise ValueError
  end.

(** ** PeakIntegrator *)

(** [summary = [N_peaks, total_area, baseline, max_height]]. *)
Record Summary := mkSummary {
  N_peaks : nat;
  total_area : float;
  baseline : float;
  max_height : float
}.

(** One tuple of [peak_info]:
    [(start_x, end_x, peak_x, peak_y, auc, baseline)]. *)
Record Peak := mkPeak {
  start_x : float;
  end_x : float;
  peak_x : float;
  peak_y : float;
  auc : float;
  peak_baseline : float
}.

(** [a[i]] for an index inside the array.  The integrator is applied to
    curves with [len(x_curve) = len(y_corrected_curve)], and every index
    it reads lies inside them, so the default is never returned. *)
Definition at_ (a : list float) (i : nat) : float := nth i a NaN.

(** State of the scanning loop: [(peak_start, peak_regions)]. *)
Definition scan_state := (option nat * list (nat * nat))%type.

(** Body of [for i in range(len(y_corrected_curve))] (lines 203-210). *)
Definition scan_step (y_corrected_curve : list float) (min_peak_length : Z)
    (st : scan_state) (i : nat) : scan_state :=
  let '(peak_start, peak_regions) := st in
  if gt (at_ y_corrected_curve i) FLOAT_TOLERANCE then
    match peak_start with
    | None => (Some i, peak_regions)
    | Some _ => st
    end
  else
    match peak_start with
    | Some s =>
        (None,
         if (min_peak_length <=? Z.of_nat i - Z.of_nat s)%Z
         then peak_regions ++ [(s, i - 1)%nat]
         else peak_regions)
    | None => st
    end.

(** Lines 200-214: the regions kept after the length filter, including
    the one still open at the end of the curve. *)
Definition find_peak_regions (y_corrected_curve : list float)
    (min_peak_length : Z) : list (nat * nat) :=
  let n := List.length y_corrected_curve in
  let '(peak_start, peak_regions) :=
    fold_left (scan_step y_corrected_curve min_peak_length)
              (seq 0 n) (None, []) in
  match peak_start with
  | Some s =>
      if (min_peak_length <=? Z.of_nat n - Z.of_nat s)%Z
      then peak_regions ++ [(s, n - 1)%nat]
      else peak_regions
  | None => peak_regions
  end.

(** Line 217. *)
Definition max_curve_value (y_corrected_curve : list float) : float :=
  match y_corrected_curve with
  | [] => Fin 0
  | first :: rest => Np.builtin_max_from first rest
  end.

(** Lines 231-233: the trapezoidal rule over [range(start_idx, end_idx)]. *)
Definition trapezoid (x_curve y : list float) (start_idx end_idx : nat)
    : float :=
  fold_left
    (fun auc i =>
       add auc
           (div (mul (sub (at_ x_curve (i + 1)) (at_ x_curve i))
                     (add (at_ y i) (at_ y (i + 1))))
                (Fin 2)))
    (seq start_idx (end_idx - start_idx)) (Fin 0).

(** Lines 236-247: [(peak_st, auc)] after the left boundary. *)
Definition left_boundary (x_curve y : list float) (start_idx : nat)
    (auc : float) : float * float :=
  if (start_idx =? 0)%nat then (at_ x_curve start_idx, auc)
  else
    let dx := sub (at_ x_curve start_idx) (at_ x_curve (start_idx - 1)) in
    let dy := sub (at_ y start_idx) (at_ y (start_idx - 1)) in
    if gt (abs dy) FLOAT_TOLERANCE then
      let peak_st :=
        sub (at_ x_curve start_idx) (div (mul dx (at_ y start_idx)) dy) in
      (peak_st,
       add auc (div (mul (sub (at_ x_curve start_idx) peak_st)
                         (at_ y start_idx)) (Fin 2)))
    else (at_ x_curve start_idx, auc).

(** Lines 250-261: [(peak_ed, auc)] after the right boundary. *)
Definition right_boundary (x_curve y : list float) (end_idx : nat)
    (auc : float) : float * float :=
  if (end_idx =? List.length y - 1)%nat then (at_ x_curve end_idx, auc)
  else
    let dx := sub (at_ x_curve (end_idx + 1)) (at_ x_curve end_idx) in
    let dy := sub (at_ y (end_idx + 1)) (at_ y end_idx) in
    if gt (abs dy) FLOAT_TOLERANCE then
      let peak_ed :=
        add (at_ x_curve end_idx) (div (mul dx (at_ y end_idx)) (abs dy)) in
      (peak_ed,
       add auc (div (mul (sub peak_ed (at_ x_curve end_idx))
                         (at_ y end_idx)) (Fin 2)))
    else (at_ x_curve end_idx, auc).

(** Height of a region, line 222.  A region found by the scan is never
    empty, so [np.max] does not raise here. *)
Definition region_height (y : list float) (region : nat * nat) : float :=
  Np.max_of (Np.slice y (fst region) (snd region + 1)).

(** Line 227: the relative-height test that skips a region.  The height
    is compared with the float64 product
    [min_height_ratio * max_curve_value]. *)
Definition rejected (y : list float) (min_height_ratio : float)
    (region : nat * nat) : bool :=
  lt (region_height y region)
     (F64.mul min_height_ratio (max_curve_value y)).

(** Lines 230-263 for a region that passed the height filter. *)
Definition peak_of (x_curve y : list float) (y_baseline : float)
    (region : nat * nat) : Peak :=
  let '(start_idx, end_idx) := region in
  let peak_region_values := Np.slice y start_idx (end_idx + 1) in
  let height := Np.max_of peak_region_values in
  let loc_height := (Np.argmax peak_region_values + start_idx)%nat in
  let peak_x := at_ x_curve loc_height in
  let auc := trapezoid x_curve y start_idx end_idx in
  let '(peak_st, auc) := left_boundary x_curve y start_idx auc in
  let '(peak_ed, auc) := right_boundary x_curve y end_idx auc in
  mkPeak peak_st peak_ed peak_x height auc y_baseline.

(** Body of [for start_idx, end_idx in peak_regions] (lines 219-267). *)
Definition region_step (x_curve y : list float) (y_baseline : float)
    (min_height_ratio : float) (st : Summary * list Peak)
    (region : nat * nat) : Summary * list Peak :=
  let '(summary, peak_info) := st in
  if rejected y min_height_ratio region then st
  else
    let p := peak_of x_curve y y_baseline region in
    (mkSummary (S (N_peaks summary))
               (add (total_area summary) (auc p))
               (baseline summary)
               (if gt (peak_y p) (max_height summary) then peak_y p
                else max_height summary),
     peak_info ++ [p]).

Definition AUC_from_a_region (x_curve y_corrected_curve : list float)
    (y_baseline : float) (min_height_ratio : float) (min_peak_length : Z)
    : Summary * list Peak :=
  let peak_regions := find_peak_regions y_corrected_curve min_peak_length in
  fold_left (region_step x_curve y_corrected_curve y_baseline min_height_ratio)
            peak_regions
            (mkSummary 0 (Fin 0) y_baseline (Fin 0), []).

(** ** TraitOrchestrator *)

(** The input table: its columns in order, each a name and a Series.
    Column names are assumed distinct, as in a table read from a sheet. *)
Definition InputDF := list (string * list float).

(** One row of the parameter table, with the types the code coerces the
    cells to ([int(...)], [bool(...)]). *)
Record PhaseRow := mkPhaseRow {
  PeakName : string;
  PeakRange : string;
  BaselineTime : string;
  MinHeightRatio : float;
  MinPeakLength : Z;
  BaselineOrPeak : string;
  NegativePeak : bool;
  CalculateSIorII : bool
}.

(** The parameter table: the column names it declares and its rows.  The
    rows are only read once the declared columns have been validated. *)
Record ParameterDF := mkParameterDF {
  columns : list string;
  rows : list PhaseRow
}.

(** A cell of the trait table: [pd.NA] or a float. *)
Inductive trait :=
| NA
| Val (v : float).

Inductive column :=
| DonorID (ids : list string)
| Traits (values : list trait).

(** The output table, in column order. *)
Definition DataFrame := list (string * column).

(** [d[key] = v] on a dictionary: overwrite in place, or append. *)
Fixpoint dict_set {V} (key : string) (v : V) (d : list (string * V))
    : list (string * V) :=
  match d with
  | [] => [(key, v)]
  | (k, w) :: d' =>
      if String.eqb k key then (k, v) :: d' else (k, w) :: dict_set key v d'
  end.

Fixpoint dict_get {V} (key : string) (d : list (string * V)) : option V :=
  match d with
  | [] => None
  | (k, w) :: d' => if String.eqb k key then Some w else dict_get key d'
  end.

Definition required_columns : list string :=
  ["PeakName"; "PeakRange"; "BaselineTime"; "MinHeightRatio"; "MinPeakLength";
   "BaselineOrPeak"; "NegativePeak"; "CalculateSIorII"].

(** [row['BaselineOrPeak'].lower() == 'baseline']. *)
Definition is_baseline (row : PhaseRow) : bool :=
  String.eqb (PyStr.lower (BaselineOrPeak row)) "baseline".

(** Lines 365-369: the cell of one donor in a baseline phase. *)
Definition baseline_cell (time_x : list float) (row : PhaseRow)
    (donor : string * list float) : result trait :=
  if Np.hasnans (snd donor) then Ok NA
  else
    basal <- parse_basal_secretion time_x (snd donor) (BaselineTime row) ;;
    Ok (Val basal).

(** Lines 397-405: the index from the baseline and the windowed curve. *)
Definition index_of (negative_peak : bool) (baseline : float)
    (sub_y_max : float) : trait :=
  let max_height := if gt sub_y_max (Fin 0) then sub_y_max else Fin 0 in
  if negative_peak then
    let valley_min := sub baseline max_height in
    if gt (mul valley_min baseline) (Fin 0)
    then Val (div baseline valley_min) else NA
  else
    let peak_max := add baseline max_height in
    if gt baseline (Fin 0) then Val (div peak_max baseline) else NA.

(** Lines 377-406: the [(AUC, SI or II)] cells of one donor in a peak
    phase. *)
Definition peak_cell (time_x : list float) (row : PhaseRow)
    (donor : string * list float) : result (trait * trait) :=
  if Np.hasnans (snd donor) then Ok (NA, NA)
  else
    '(sub_x, sub_y, y_baseline) <-
      parse_peak_and_baseline_region time_x (snd donor) (PeakRange row)
        (BaselineTime row) (NegativePeak row) ;;
    let '(summary, _) :=
      AUC_from_a_region sub_x sub_y y_baseline (MinHeightRatio row)
        (MinPeakLength row) in
    sub_y_max <- Np.max sub_y ;;
    Ok (Val (total_area summary),
        index_of (NegativePeak row) (baseline summary) sub_y_max).

Definition baseline_trait_name (trait_prefix : string) (row : PhaseRow) : string :=
  (trait_prefix ++ " " ++ PeakName row)%string.

Definition auc_trait_name (trait_prefix : string) (row : PhaseRow) : string :=
  (trait_prefix ++ " " ++ PeakName row ++ " AUC")%string.

Definition index_trait_name (trait_prefix : string) (row : PhaseRow) : string :=
  (trait_prefix ++ " " ++ PeakName row ++ " "
     ++ (if NegativePeak row then "II" else "SI"))%string.

(** Body of [for _, row in parameter_df.iterrows()] (lines 361-419). *)
Definition phase_step (trait_prefix : string) (time_x : list float)
    (donors : list (string * list float)) (all_results : DataFrame)
    (row : PhaseRow) : result DataFrame :=
  if is_baseline row then
    results <- mapM (baseline_cell time_x row) donors ;;
    Ok (dict_set (baseline_trait_name trait_prefix row) (Traits results)
                 all_results)
  else
    cells <- mapM (peak_cell time_x row) donors ;;
    let all_results :=
      dict_set (auc_trait_name trait_prefix row) (Traits (map fst cells))
               all_results in
    if CalculateSIorII row then
      Ok (dict_set (index_trait_name trait_prefix row)
                   (Traits (map snd cells)) all_results)
    else Ok all_results.

Fixpoint run_phases (trait_prefix : string) (time_x : list float)
    (donors : list (string * list float)) (all_results : DataFrame)
    (phases : list PhaseRow) : result DataFrame :=
  match phases with
  | [] => Ok all_results
  | row :: rest =>
      all_results <- phase_step trait_prefix time_x donors all_results row ;;
      run_phases trait_prefix time_x donors all_results rest
  end.

(** [[col for col in all_cols if 'time' in col.lower()]]. *)
Definition time_columns (input_df : InputDF) : InputDF :=
  filter (fun col => PyStr.contains "time" (PyStr.lower (fst col))) input_df.

(** [[col for col in required_columns if col not in parameter_df.columns]]. *)
Definition missing_columns (parameter_df : ParameterDF) : list string :=
  filter (fun col => negb (existsb (String.eqb col) (columns parameter_df)))
         required_columns.

Definition donors_of (input_df : InputDF) (time_col_name : string)
    : list (string * list float) :=
  filter (fun col => negb (String.eqb (fst col) time_col_name)) input_df.

Definition traits_for_all (input_df : InputDF) (parameter_df : ParameterDF)
    (trait_prefix : string) : result DataFrame :=
  match time_columns input_df with
  | [] => Raise KeyError
  | time_col :: _ =>
      let time_x := snd time_col in
      let donors := donors_of input_df (fst time_col) in
      match missing_columns parameter_df with
      | _ :: _ => Raise AssertionError
      | [] =>
          run_phases trait_prefix time_x donors
                     [("Donor ID", DonorID (map fst donors))]
                     (rows parameter_df)
      end
  end.

(** ** Vocabulary of the specification *)

(** A well-formed RangeSpec token: a single integer time point or a
    closed integer interval; a RangeSpec is a non-empty '|'-joined list
    of tokens. *)
Inductive token :=
| Point (p : N)
| Interval (a b : N).

Definition render_token (tok : token) : string :=
  match tok with
  | Point p => PyStr.str p
  | Interval a b => (PyStr.str a ++ String "-" (PyStr.str b))%string
  end.

Definition render_spec (toks : list token) : string :=
  PyStr.join "|" (map render_token toks).

(** The time value [t] is denoted by the token. *)
Definition denotes (tok : token) (t : float) : Prop :=
  match tok, t with
  | _, NaN => False
  | Point p, Fin q => q == inject_Z (Z.of_N p)
  | Interval a b, Fin q =>
      inject_Z (Z.of_N a) <= q /\ q <= inject_Z (Z.of_N b)
  end.

Definition denotesb (tok : token) (t : float) : bool :=
  match tok with
  | Point p => eqb t (of_Z (Z.of_N p))
  | Interval a b => ge t (of_Z (Z.of_N a)) && le t (of_Z (Z.of_N b))
  end.

Definition is_digit (c : ascii) : bool :=
  let n := nat_of_ascii c in (48 <=? n)%nat && (n <=? 57)%nat.

Fixpoint digits_only (s : string) : bool :=
  match s with
  | EmptyString => true
  | String c s' => is_digit c && digits_only s'
  end.

(** Sample [i] of the corrected curve exceeds the tolerance. *)
Definition above (y : list float) (i : nat) : bool :=
  gt (at_ y i) FLOAT_TOLERANCE.

(** [s..e] is a maximal run of consecutive samples above the tolerance:
    it cannot be extended to the left or to the right. *)
Definition maximal_run (y : list float) (s e : nat) : Prop :=
  (s <= e < List.length y)%nat
  /\ (forall i, (s <= i <= e)%nat -> above y i = true)
  /\ (s = 0%nat \/ above y (s - 1) = false)
  /\ (e = (List.length y - 1)%nat \/ above y (e + 1) = false).

(** Number of samples of the run [s..e]. *)
Definition run_length (s e : nat) : Z := (Z.of_nat e - Z.of_nat s + 1)%Z.

(** The regions that pass both filters, in the order of the scan. *)
Definition surviving_regions (y : list float) (min_height_ratio : float)
    (min_peak_length : Z) : list (nat * nat) :=
  filter (fun region => negb (rejected y min_height_ratio region))
         (find_peak_regions y min_peak_length).

(** A run that ended strictly before index [n] and is long enough. *)
Definition closed_before (y : list float) (min_peak_length : Z) (n s e : nat)
    : Prop :=
  (s <= e)%nat /\ (e + 1 < n)%nat
  /\ (forall i, (s <= i <= e)%nat -> above y i = true)
  /\ (s = 0%nat \/ above y (s - 1) = false)
  /\ above y (e + 1) = false
  /\ (min_peak_length <= run_length s e)%Z.

(** Invariant of the scanning loop after the indices below [n]. *)
Definition scan_inv (y : list float) (min_peak_length : Z) (n : nat)
    (st : scan_state) : Prop :=
  match fst st with
  | Some s =>
      (s < n)%nat
      /\ (forall i, (s <= i < n)%nat -> above y i = true)
      /\ (s = 0%nat \/ above y (s - 1) = false)
  | None => n = 0%nat \/ above y (n - 1) = false
  end
  /\ (forall s e, In (s, e) (snd st) <-> closed_before y min_peak_length n s e)
  /\ NoDup (snd st).

(** The aggregate of a list of emitted peaks: their number, the sum of
    their areas, the baseline, and the largest of their heights (0 if
    there is none). *)
Definition summarize (y_baseline : float) (peaks : list Peak) : Summary :=
  mkSummary (List.length peaks)
            (fold_left add (map auc peaks) (Fin 0))
            y_baseline
            (fold_left (fun m h => if gt h m then h else m)
                       (map peak_y peaks) (Fin 0)).

(** [h] is the largest of the samples [s..e] of [y], all of them numbers. *)
Definition is_max_on (y : list float) (s e : nat) (h : Q) : Prop :=
  (exists i, (s <= i <= e)%nat /\ at_ y i = Fin h)
  /\ forall i, (s <= i <= e)%nat -> exists q, at_ y i = Fin q /\ q <= h.

(** [g] is the maximum of the whole sequence, zero when it is empty. *)
Definition is_global_max (y : list float) (g : Q) : Prop :=
  match y with
  | [] => g = 0
  | _ => is_max_on y 0 (List.length y - 1) g
  end.

(** The reading of "raising the ratio above the height/globalMax of one
    run removes only that run": every other region that survived under
    [ratio] still survives under [ratio']. *)
Definition raising_removes_only (y : list float) (min_peak_length : Z)
    (ratio ratio' : Q) (run : nat * nat) : Prop :=
  forall other,
    In other (surviving_regions y (Fin ratio) min_peak_length) ->
    other <> run ->
    In other (surviving_regions y (Fin ratio') min_peak_length).

(** The column name is "time" up to letter case. *)
Definition is_time_name (name : string) : bool :=
  String.eqb (PyStr.lower name) "time".

(** The donor column has no missing sample. *)
Definition complete (donor : string * list float) : bool :=
  negb (Np.hasnans (snd donor)).

(** The donors of an input table (none if it has no time column). *)
Definition donors_in (input_df : InputDF) : list (string * list float) :=
  match time_columns input_df with
  | [] => []
  | time_col :: _ => donors_of input_df (fst time_col)
  end.






(** The stimulation index as the specification words it, from the
    maximum height of the phase summary. *)
Definition spec_SI (summary : Summary) : trait :=
  if gt (baseline summary) (Fin 0)
  then Val (div (add (baseline summary) (max_height summary))
                (baseline summary))
  else NA.

(** Two cells hold the same value. *)
Definition same_trait (a b : trait) : Prop :=
  match a, b with
  | NA, NA => True
  | Val u, Val v => same u v
  | _, _ => False
  end.

(** The column names a phase row assigns in [all_results]. *)
Definition assigned_names (trait_prefix : string) (row : PhaseRow)
    : list string :=
  if is_baseline row then [baseline_trait_name trait_prefix row]
  else auc_trait_name trait_prefix row
       :: (if CalculateSIorII row then [index_trait_name trait_prefix row]
           else []).



(** Number of occurrences of a character in a string. *)
Fixpoint count_char (c : ascii) (s : string) : nat :=
  match s with
  | EmptyString => 0%nat
  | String a s' => ((if Ascii.eqb a c then 1 else 0) + count_char c s')%nat
  end.

(** The mask of the axis times denoted by at least one token. *)
Definition denoted_mask (toks : list token) (entire_x : list float)
    : list bool :=
  map (fun t => existsb (fun k => denotesb k t) toks) entire_x.

(** The regions come one after the other, with at least one sample
    between the end of one and the start of the next. *)
Fixpoint ascending (regions : list (nat * nat)) : Prop :=
  match regions with
  | [] => True
  | r :: rest =>
      Forall (fun r' => (snd r + 1 < fst r')%nat) rest /\ ascending rest
  end.

(** Invariant of the scan for the order of the regions: they ascend and
    all end before the run that is open, if there is one. *)
Definition scan_order (st : scan_state) : Prop :=
  ascending (snd st)
  /\ match fst st with
     | Some s => Forall (fun r => (snd r + 1 < s)%nat) (snd st)
     | None => True
     end.

(** Number of entries of a column of the trait table. *)
Definition column_length (c : column) : nat :=
  match c with
  | DonorID ids => List.length ids
  | Traits values => List.length values
  end.

(** The keys of a dictionary after an assignment to [key]: unchanged if
    the key is there, with the key appended otherwise. *)
Definition add_key (key : string) (keys : list string) : list string :=
  if existsb (fun k => String.eqb k key) keys then keys else keys ++ [key].

(** The column names of the trait table, in order: "Donor ID", then the
    names the rows assign, each at its first assignment. *)
Definition column_names (trait_prefix : string) (phases : list PhaseRow)
    : list string :=
  fold_left (fun keys key => add_key key keys)
            (flat_map (assigned_names trait_prefix) phases) ["Donor ID"].

(** ** Sample tables *)

Module Sample.

(** Seven fractions, one donor with a full series and one with a gap. *)
Definition time : list float := map of_Z [1; 2; 3; 4; 5; 6; 7]%Z.

Definition donor1 : list float := map of_Z [1; 1; 3; 1; 2; 2; 2]%Z.

Definition donor2 : list float :=
  [Fin 1; NaN; Fin 1; Fin 1; Fin 1; Fin 1; Fin 1].

Definition input_df : InputDF :=
  [("Time", time); ("D1", donor1); ("D2", donor2)].

Definition basal : PhaseRow :=
  mkPhaseRow "Basal" "1-2" "1-2" (Fin 0) 0 "Baseline" false false.

(** A stimulation phase over the fractions 3 to 7, baseline at 1 and 2. *)
Definition stimulus : PhaseRow :=
  mkPhaseRow "G 16.7" "3-7" "1-2" (Fin (1 # 10)) 3 "Peak" false true.

(** The same phase with a window that lies outside the time axis. *)
Definition late_stimulus : PhaseRow :=
  mkPhaseRow "G 16.7" "20-30" "1-2" (Fin (1 # 10)) 3 "Peak" false true.

Definition parameter_df : ParameterDF :=
  mkParameterDF required_columns [basal; stimulus].

Definition late_parameter_df : ParameterDF :=
  mkParameterDF required_columns [basal; late_stimulus].

End Sample.

(** An inhibition phase over the fractions 3 to 7 for the sample table. *)
Definition sample_inhibition : PhaseRow :=
  mkPhaseRow "Epi" "3-7" "1-2" (Fin 0) 1 "peak" true true.

Definition sample_inhibition_df : ParameterDF :=
  mkParameterDF required_columns [sample_inhibition].

Definition sample_dip_input : InputDF :=
  [("time", map of_Z [1; 2; 3; 4; 5; 6; 7]%Z);
   ("D1", map of_Z [4; 4; 3; 2; 3; 4; 4]%Z)].

(** The cell of a complete donor raises ValueError in this phase row. *)
Definition failing_cell (time_x : list float) (row : PhaseRow)
    (donor : string * list float) : Prop :=
  Np.hasnans (snd donor) = false
  /\ if is_baseline row
     then baseline_cell time_x row donor = Raise ValueError
     else peak_cell time_x row donor = Raise ValueError.

(** ** The donor lookup of [cal_traits_HPAP.py]

    Lines 91-100 of the script: the dictionary from [rrid] to [donor_ID]
    filled row by row from the donor sheet, and the new column that
    holds, for every index label of the merged table, the entry of the
    dictionary or [pd.NA] ([None]) when there is none. *)
Definition rr2hpap (hpap_info : list (string * string))
    : list (string * string) :=
  fold_left (fun d row => dict_set (fst row) (snd row) d) hpap_info [].

Definition hpap_ids (hpap_info : list (string * string))
    (index : list string) : list (option string) :=
  map (fun idx => dict_get idx (rr2hpap hpap_info)) index.

(** * Properties *)

(** ** The examples of the docstrings *)

Example lower_Time : PyStr.lower "Time (min)" = "time (min)".
Proof. reflexivity. Qed.

Example split_union : PyStr.split "|" "3-9|30" = ["3-9"; "30"].
Proof. reflexivity. Qed.

Example split_empty : PyStr.split "-" "" = [""].
Proof. reflexivity. Qed.

Example int_30 : PyStr.int "30" = Ok 30%Z.
Proof. reflexivity. Qed.

Example int_empty : PyStr.int "" = Raise ValueError.
Proof. reflexivity. Qed.

Example resolve_union :
  resolve Sample.time "3-5|7|9" = Ok [Fin 3; Fin 4; Fin 5; Fin 7].
Proof. reflexivity. Qed.

Example resolve_trailing_bar : resolve Sample.time "3-5|" = Raise ValueError.
Proof. reflexivity. Qed.

(** [parse_basal_secretion(1..10, 0.5..1.4, "3-9")] is 1.0. *)
Example basal_docstring :
  exists basal,
    parse_basal_secretion
      (map of_Z [1; 2; 3; 4; 5; 6; 7; 8; 9; 10]%Z)
      (map (fun n => Fin (n # 10)) [5; 6; 7; 8; 9; 10; 11; 12; 13; 14]%Z)
      "3-9"
    = Ok basal
    /\ same basal (Fin 1).
Proof. eexists. split; [vm_compute; reflexivity | reflexivity]. Qed.

(** The baseline of the [parse_peak_and_baseline_region] example is 0.6
    and the window "5-8" holds four samples. *)
Example region_docstring :
  exists x_curve corrected_curve y_baseline,
    parse_peak_and_baseline_region
      (map of_Z [1; 2; 3; 4; 5; 6; 7; 8; 9; 10]%Z)
      (map (fun n => Fin (n # 10)) [5; 6; 7; 8; 9; 10; 11; 12; 13; 14]%Z)
      "5-8" "1-3" false
    = Ok (x_curve, corrected_curve, y_baseline)
    /\ x_curve = map of_Z [5; 6; 7; 8]%Z
    /\ List.length corrected_curve = 4%nat
    /\ same y_baseline (Fin (6 # 10)).
Proof.
  do 3 eexists. split; [vm_compute; reflexivity|].
  split; [reflexivity|]. split; reflexivity.
Qed.

(** The single peak of the [AUC_from_a_region] example: it starts at 2,
    ends at 6, and culminates at time 4 with height 2. *)
Example triangle_peak :
  exists p,
    snd (AUC_from_a_region (map of_Z [1; 2; 3; 4; 5; 6; 7]%Z)
                           (map of_Z [0; 0; 1; 2; 1; 0; 0]%Z)
                           (Fin 0) (Fin (1 # 10)) 3)
    = [p]
    /\ start_x p = Fin 2 /\ end_x p = Fin 6
    /\ peak_x p = Fin 4 /\ peak_y p = Fin 2
    /\ same (auc p) (Fin 4).
Proof.
  eexists. split; [vm_compute; reflexivity|]. repeat split.
Qed.

(** SI for baseline 2 and maximum 3 is 2.5; II for baseline 2 and
    maximum 1 is 2. *)
Example index_values :
  same_trait (index_of false (Fin 2) (Fin 3)) (Val (Fin (5 # 2)))
  /\ same_trait (index_of true (Fin 2) (Fin 1)) (Val (Fin 2)).
Proof. split; reflexivity. Qed.

(** The trait table of the sample input: donor D2 has a gap. *)
Example sample_table :
  traits_for_all Sample.input_df Sample.parameter_df "INS"
  = Ok [("Donor ID", DonorID ["D1"; "D2"]);
        ("INS Basal", Traits [Val (Fin (2 # 2)); NA]);
        ("INS G 16.7 AUC", Traits [Val (Fin (5120 # 2048)); NA]);
        ("INS G 16.7 SI", Traits [Val (Fin (24 # 8)); NA])].
Proof. vm_compute. reflexivity. Qed.

(** ** Strings *)

Section Strings.

Variable sep : ascii.

Lemma has_char_app (s1 s2 : string) :
  PyStr.has_char sep (s1 ++ s2)%string
  = PyStr.has_char sep s1 || PyStr.has_char sep s2.
Proof.
  induction s1 as [|c s1 IH]; simpl; [reflexivity|].
  now rewrite IH, orb_assoc.
Qed.

Lemma split_no_sep (s : string) :
  PyStr.has_char sep s = false -> PyStr.split sep s = [s].
Proof.
  induction s as [|c s IH]; simpl; [reflexivity|].
  intros H. apply orb_false_elim in H as [Hc Hs].
  rewrite Hc, (IH Hs). reflexivity.
Qed.

Lemma split_cons_nonempty (s : string) : PyStr.split sep s <> [].
Proof.
  destruct s as [|c s]; simpl; [discriminate|].
  destruct (Ascii.eqb c sep); [discriminate|].
  destruct (PyStr.split sep s); discriminate.
Qed.

Lemma split_app_sep (s1 s2 : string) :
  PyStr.has_char sep s1 = false ->
  PyStr.split sep (s1 ++ String sep s2)%string = s1 :: PyStr.split sep s2.
Proof.
  induction s1 as [|c s1 IH]; simpl.
  - intros _. now rewrite Ascii.eqb_refl.
  - intros H. apply orb_false_elim in H as [Hc Hs].
    rewrite Hc, (IH Hs). reflexivity.
Qed.

Lemma split_join (p : string) (parts : list string) :
  Forall (fun q => PyStr.has_char sep q = false) (p :: parts) ->
  PyStr.split sep (PyStr.join sep (p :: parts)) = p :: parts.
Proof.
  revert p. induction parts as [|q parts IH]; intros p H.
  - simpl. apply split_no_sep. now inversion H.
  - inversion H as [|? ? Hp Hrest]; subst.
    change (PyStr.join sep (p :: q :: parts))
      with (p ++ String sep (PyStr.join sep (q :: parts)))%string.
    rewrite (split_app_sep _ _ Hp), (IH q Hrest). reflexivity.
Qed.

End Strings.

Lemma digits_of_uint (d : Decimal.uint) :
  digits_only (NilEmpty.string_of_uint d) = true.
Proof. induction d; simpl; auto. Qed.

Lemma digits_of_str (n : N) : digits_only (PyStr.str n) = true.
Proof.
  unfold PyStr.str, NilZero.string_of_uint.
  destruct (N.to_uint n) eqn:E; try reflexivity;
    rewrite <- E at 1; try (rewrite <- E; apply digits_of_uint).
  all: apply digits_of_uint.
Qed.

Lemma digits_no_char (c : ascii) (s : string) :
  is_digit c = false -> digits_only s = true -> PyStr.has_char c s = false.
Proof.
  intros Hc. induction s as [|a s IH]; simpl; [reflexivity|].
  intros H. apply andb_prop in H as [Ha Hs].
  rewrite (IH Hs), orb_false_r.
  destruct (Ascii.eqb_spec a c) as [->|]; [congruence | reflexivity].
Qed.

Lemma int_str (n : N) : PyStr.int (PyStr.str n) = Ok (Z.of_N n).
Proof.
  unfold PyStr.int, PyStr.str.
  rewrite NilZero.usu.
  - now rewrite DecimalN.Unsigned.of_to.
  - destruct n as [|p]; [discriminate|].
    simpl. intros H. apply (f_equal N.of_uint) in H.
    change (N.of_uint (N.to_uint (N.pos p)) = N.of_uint Decimal.Nil) in H.
    rewrite DecimalN.Unsigned.of_to in H. discriminate.
Qed.

(** ** Float comparisons *)

Lemma gt_Fin (x y : Q) : gt (Fin x) (Fin y) = true <-> y < x.
Proof.
  unfold gt; simpl. rewrite negb_true_iff.
  split; intros H.
  - apply Qnot_le_lt. intros Hle. apply Qle_bool_iff in Hle. congruence.
  - destruct (Qle_bool x y) eqn:E; [|reflexivity].
    apply Qle_bool_iff in E. exfalso. now apply (Qlt_not_le y x).
Qed.

Lemma gt_Fin_false (x y : Q) : gt (Fin x) (Fin y) = false <-> x <= y.
Proof.
  unfold gt; simpl. rewrite negb_false_iff. apply Qle_bool_iff.
Qed.

Lemma lt_Fin (x y : Q) : lt (Fin x) (Fin y) = true <-> x < y.
Proof.
  unfold lt; simpl. rewrite negb_true_iff.
  split; intros H.
  - apply Qnot_le_lt. intros Hle. apply Qle_bool_iff in Hle. congruence.
  - destruct (Qle_bool y x) eqn:E; [|reflexivity].
    apply Qle_bool_iff in E. exfalso. now apply (Qlt_not_le x y).
Qed.

Lemma le_Fin (x y : Q) : le (Fin x) (Fin y) = true <-> x <= y.
Proof. apply Qle_bool_iff. Qed.

Lemma ge_Fin (x y : Q) : ge (Fin x) (Fin y) = true <-> y <= x.
Proof. apply Qle_bool_iff. Qed.

Lemma eqb_Fin (x y : Q) : eqb (Fin x) (Fin y) = true <-> x == y.
Proof. apply Qeq_bool_iff. Qed.

Lemma gt_is_Fin (a b : float) :
  gt a b = true -> exists x y, a = Fin x /\ b = Fin y /\ y < x.
Proof.
  destruct a as [|x], b as [|y]; try discriminate.
  intros H. exists x, y. repeat split. now apply gt_Fin.
Qed.

Lemma same_refl (a : float) : same a a.
Proof. destruct a; simpl; [exact I | reflexivity]. Qed.

(** ** RangeResolver *)

Lemma select_map_filter {A} (f : A -> bool) (l : list A) :
  Np.select (map f l) l = filter f l.
Proof.
  induction l as [|a l IH]; simpl; [reflexivity|].
  rewrite IH. reflexivity.
Qed.

Lemma denotesb_spec (tok : token) (t : float) :
  denotesb tok t = true <-> denotes tok t.
Proof.
  destruct tok as [p | a b], t as [|q]; simpl;
    try (split; [discriminate | contradiction]).
  - apply eqb_Fin.
  - rewrite andb_true_iff. unfold of_Z.
    split; intros [H1 H2]; split;
      first [now apply ge_Fin | now apply le_Fin].
Qed.

Lemma str_no_char (c : ascii) (n : N) :
  is_digit c = false -> PyStr.has_char c (PyStr.str n) = false.
Proof. intros H. apply digits_no_char; [exact H | apply digits_of_str]. Qed.

Lemma render_token_no_bar (tok : token) :
  PyStr.has_char "|" (render_token tok) = false.
Proof.
  destruct tok as [p | a b]; simpl.
  - now apply str_no_char.
  - rewrite has_char_app. simpl.
    now rewrite !str_no_char.
Qed.

Lemma resolve_token_render (entire_x : list float) (tok : token) :
  resolve_token entire_x (render_token tok)
  = Ok (filter (denotesb tok) entire_x).
Proof.
  unfold resolve_token. destruct tok as [p | a b]; simpl.
  - rewrite str_no_char by reflexivity.
    rewrite int_str. simpl. unfold Np.equals.
    now rewrite select_map_filter.
  - rewrite has_char_app. simpl. rewrite orb_true_r.
    rewrite split_app_sep by now apply str_no_char.
    rewrite split_no_sep by now apply str_no_char.
    rewrite !int_str. simpl. unfold Np.between.
    now rewrite select_map_filter.
Qed.

Lemma resolve_ranges_render (entire_x : list float) (toks : list token)
    (acc : list float) :
  resolve_ranges entire_x (map render_token toks) acc
  = Ok (acc ++ flat_map (fun k => filter (denotesb k) entire_x) toks).
Proof.
  revert acc. induction toks as [|tok toks IH]; intros acc; simpl.
  - now rewrite app_nil_r.
  - rewrite resolve_token_render. simpl. rewrite IH.
    now rewrite <- app_assoc.
Qed.

Lemma resolve_render (entire_x : list float) (tok : token)
    (toks : list token) :
  resolve entire_x (render_spec (tok :: toks))
  = Ok (flat_map (fun k => filter (denotesb k) entire_x) (tok :: toks)).
Proof.
  unfold resolve, render_spec.
  change (map render_token (tok :: toks))
    with (render_token tok :: map render_token toks).
  rewrite split_join.
  - apply (resolve_ranges_render entire_x (tok :: toks) []).
  - change (Forall (fun q => PyStr.has_char "|" q = false)
                   (map render_token (tok :: toks))).
    apply Forall_map, Forall_forall. intros k _. apply render_token_no_bar.
Qed.

(** C6.  For every time axis and every well-formed RangeSpec (a non-empty
    '|'-joined list of tokens, each an integer point "p" or a closed
    interval "a-b"), [resolve] raises nothing and returns time points of
    the axis: a time point is returned exactly when it lies on the axis
    and some token denotes it (the point itself for "p", the closed
    interval [a,b] for "a-b").  Hence "a-b" alone yields exactly the axis
    points in [a,b], "p" alone yields p if present and nothing otherwise,
    a union yields the union, and a token matching nothing contributes
    nothing and is not an error. *)
Theorem C6_resolve_range_spec :
  forall (entire_x : list float) (tok : token) (toks : list token),
    exists time_points,
      resolve entire_x (render_spec (tok :: toks)) = Ok time_points
      /\ time_points
         = flat_map (fun k => filter (denotesb k) entire_x) (tok :: toks)
      /\ forall t,
           In t time_points
           <-> In t entire_x /\ exists k, In k (tok :: toks) /\ denotes k t.
Proof.
  intros entire_x tok toks.
  eexists. split; [apply resolve_render|]. split; [reflexivity|].
  intros t. rewrite in_flat_map. split.
  - intros (k & Hk & Ht). apply filter_In in Ht as [Hx Hd].
    split; [exact Hx|]. exists k. split; [exact Hk|].
    now apply denotesb_spec.
  - intros (Hx & k & Hk & Hd). exists k. split; [exact Hk|].
    apply filter_In. split; [exact Hx|]. now apply denotesb_spec.
Qed.

(** ** PeakIntegrator: the scan for peak regions *)

Section Scan.

Variable y : list float.
Variable min_peak_length : Z.

Lemma run_start_unique (s s' e : nat) :
  (s <= e)%nat -> (s' <= e)%nat ->
  (forall i, (s <= i <= e)%nat -> above y i = true) ->
  (forall i, (s' <= i <= e)%nat -> above y i = true) ->
  (s = 0%nat \/ above y (s - 1) = false) ->
  (s' = 0%nat \/ above y (s' - 1) = false) ->
  s = s'.
Proof.
  intros Hs Hs' Hall Hall' Hl Hl'.
  destruct (Nat.lt_trichotomy s s') as [Hlt | [Heq | Hgt]]; [|exact Heq|].
  - destruct Hl' as [-> | Hl']; [lia|].
    rewrite Hall in Hl' by lia. discriminate.
  - destruct Hl as [-> | Hl]; [lia|].
    rewrite Hall' in Hl by lia. discriminate.
Qed.

Lemma scan_inv_init : scan_inv y min_peak_length 0 (None, []).
Proof.
  unfold scan_inv; simpl. split; [now left|]. split; [|constructor].
  intros s e. split; [contradiction|].
  unfold closed_before. intros (_ & H & _). lia.
Qed.

Lemma scan_inv_step (n : nat) (st : scan_state) :
  scan_inv y min_peak_length n st ->
  scan_inv y min_peak_length (S n) (scan_step y min_peak_length st n).
Proof.
  destruct st as [ps regs]. unfold scan_inv, scan_step; simpl.
  intros (Hps & Hregs & Hnd).
  fold (above y n). destruct (above y n) eqn:Hn.
  - (* the sample is above the tolerance: a run starts or goes on *)
    assert (Hkeep : forall s e,
               In (s, e) regs <-> closed_before y min_peak_length (S n) s e).
    { intros s e. rewrite Hregs. unfold closed_before.
      split; intros (H1 & H2 & H3 & H4 & H5 & H6); repeat split; auto; try lia.
      destruct (Nat.eq_dec (e + 1) n) as [E|]; [|lia].
      rewrite E in H5. congruence. }
    destruct ps as [s|]; simpl.
    + destruct Hps as (H1 & H2 & H3).
      split; [split; [lia | split; [|exact H3]] | split; [exact Hkeep | exact Hnd]].
      intros i Hi. destruct (Nat.eq_dec i n) as [->|]; [exact Hn|].
      apply H2. lia.
    + split; [split; [lia | split] | split; [exact Hkeep | exact Hnd]].
      * intros i Hi. replace i with n by lia. exact Hn.
      * destruct n; [now left|]. right.
        destruct Hps as [Hps | Hps]; [discriminate|].
        simpl in *. now rewrite Nat.sub_0_r in *.
  - (* the sample is not above: an open run is closed here *)
    destruct ps as [s|]; simpl.
    + destruct Hps as (H1 & H2 & H3).
      split; [right; now rewrite Nat.sub_0_r|].
      assert (Hnew : forall e', (e' + 1 < n)%nat -> (s, (n - 1)%nat) <> (s, e'))
        by (intros e' He' [= E]; lia).
      assert (Hclosed : forall s' e',
                 closed_before y min_peak_length (S n) s' e' <->
                 closed_before y min_peak_length n s' e'
                 \/ ((s', e') = (s, (n - 1)%nat)
                     /\ (min_peak_length <= Z.of_nat n - Z.of_nat s)%Z)).
      { intros s' e'. unfold closed_before, run_length. split.
        - intros (C1 & C2 & C3 & C4 & C5 & C6).
          destruct (Nat.eq_dec (e' + 1) n) as [E|].
          + right. assert (s' = s).
            { apply (run_start_unique s' s e'); auto; try lia.
              intros i Hi. apply H2. lia. }
            subst s'. split; [f_equal; lia | lia].
          + left. repeat split; auto; lia.
        - intros [(C1 & C2 & C3 & C4 & C5 & C6) | ([= -> ->] & Hlen)].
          + repeat split; auto; lia.
          + repeat split; auto; try lia.
            * intros i Hi. apply H2. lia.
            * replace (n - 1 + 1)%nat with n by lia. exact Hn. }
      destruct (min_peak_length <=? Z.of_nat n - Z.of_nat s)%Z eqn:Hlen;
        [apply Z.leb_le in Hlen | apply Z.leb_gt in Hlen]; split.
      * intros s' e'. rewrite in_app_iff, Hregs, Hclosed. simpl.
        split; intros [H | H]; auto.
        -- destruct H as [H | []]. right. split; [now symmetry | exact Hlen].
        -- right. left. symmetry. apply H.
      * apply NoDup_app; [exact Hnd | repeat constructor; intros [] |].
        intros [s' e'] Hin [E | []]. inversion E; subst.
        apply Hregs in Hin. destruct Hin as (_ & Hin & _). lia.
      * intros s' e'. rewrite Hregs, Hclosed.
        split; [now left | intros [H | [_ H]]; [exact H | lia]].
      * exact Hnd.
    + split; [right; now rewrite Nat.sub_0_r|]. split; [|exact Hnd].
      intros s e. rewrite Hregs. unfold closed_before.
      split; intros (C1 & C2 & C3 & C4 & C5 & C6); repeat split; auto; try lia.
      destruct (Nat.eq_dec (e + 1) n) as [E|]; [|lia].
      exfalso. destruct Hps as [-> | Hps]; [lia|].
      rewrite C3 in Hps by lia. discriminate.
Qed.

Lemma scan_inv_all (n : nat) :
  scan_inv y min_peak_length n
    (fold_left (scan_step y min_peak_length) (seq 0 n) (None, [])).
Proof.
  induction n as [|n IH]; [apply scan_inv_init|].
  rewrite seq_S, fold_left_app. simpl. now apply scan_inv_step.
Qed.

Lemma above_inside (i : nat) :
  above y i = true -> (i < List.length y)%nat.
Proof.
  unfold above, at_. intros H.
  destruct (Nat.lt_ge_cases i (List.length y)) as [|Hge]; [assumption|].
  rewrite nth_overflow in H by exact Hge. discriminate.
Qed.

Lemma find_peak_regions_spec (s e : nat) :
  In (s, e) (find_peak_regions y min_peak_length)
  <-> maximal_run y s e /\ (min_peak_length <= run_length s e)%Z.
Proof.
  unfold find_peak_regions.
  pose proof (scan_inv_all (List.length y)) as Hinv.
  destruct (fold_left _ _ _) as [ps regs]. unfold scan_inv in Hinv.
  simpl in Hinv. destruct Hinv as (Hps & Hregs & _).
  set (n := List.length y) in *.
  assert (Hold : forall s e, closed_before y min_peak_length n s e ->
                 maximal_run y s e /\ (min_peak_length <= run_length s e)%Z).
  { intros s0 e0 (C1 & C2 & C3 & C4 & C5 & C6).
    unfold maximal_run. fold n. repeat split; auto; lia. }
  assert (Hmid : forall s e, maximal_run y s e ->
                 (min_peak_length <= run_length s e)%Z -> (e + 1 < n)%nat ->
                 closed_before y min_peak_length n s e).
  { intros s0 e0 ((M1 & M1') & M2 & M3 & M4) Hlen Hlt.
    unfold closed_before. repeat split; auto.
    destruct M4 as [M4|M4]; [fold n in M4; lia | exact M4]. }
  destruct ps as [s0|].
  - destruct Hps as (P1 & P2 & P3).
    assert (Hlast : forall s e, maximal_run y s e -> (e + 1 = n)%nat -> s = s0).
    { intros s1 e1 ((M1 & M1') & M2 & M3 & M4) E.
      apply (run_start_unique s1 s0 e1); auto; try lia.
      intros i Hi. apply P2. lia. }
    assert (Hopen : maximal_run y s0 (n - 1)).
    { unfold maximal_run. fold n. repeat split; auto; try lia.
      intros i Hi. apply P2. lia. }
    destruct (min_peak_length <=? Z.of_nat n - Z.of_nat s0)%Z eqn:Hlen;
      [apply Z.leb_le in Hlen | apply Z.leb_gt in Hlen].
    + rewrite in_app_iff, Hregs. simpl. split.
      * intros [H | [[= <- <-] | []]]; [now apply Hold|].
        split; [exact Hopen | unfold run_length; lia].
      * intros [Hrun Hl].
        destruct Hrun as ((M1 & M1') & M2) eqn:Erun. clear Erun. fold n in M1'.
        destruct (Nat.eq_dec (e + 1) n) as [E|].
        -- right. left. rewrite (Hlast s e) by (auto; unfold maximal_run; fold n; auto).
           f_equal. lia.
        -- left. apply Hmid; auto. unfold maximal_run; fold n; auto. lia.
    + rewrite Hregs. split; [now apply Hold|].
      intros [Hrun Hl].
      destruct Hrun as ((M1 & M1') & M2) eqn:Erun. clear Erun. fold n in M1'.
      destruct (Nat.eq_dec (e + 1) n) as [E|].
      * assert (s = s0) by (apply (Hlast s e); auto; unfold maximal_run; fold n; auto).
        subst s. unfold run_length in Hl. lia.
      * apply Hmid; auto. unfold maximal_run; fold n; auto. lia.
  - rewrite Hregs. split; [now apply Hold|].
    intros [Hrun Hl].
    destruct Hrun as ((M1 & M1') & M2 & M3 & M4) eqn:Erun. clear Erun.
    fold n in M1'.
    destruct (Nat.eq_dec (e + 1) n) as [E|].
    + exfalso. destruct Hps as [Hps | Hps]; [lia|].
      rewrite M2 in Hps by lia. discriminate.
    + apply Hmid; auto. unfold maximal_run; fold n; auto. lia.
Qed.

Lemma find_peak_regions_NoDup :
  NoDup (find_peak_regions y min_peak_length).
Proof.
  unfold find_peak_regions.
  pose proof (scan_inv_all (List.length y)) as Hinv.
  destruct (fold_left _ _ _) as [ps regs]. unfold scan_inv in Hinv.
  simpl in Hinv. destruct Hinv as (Hps & Hregs & Hnd).
  destruct ps as [s0|]; [|exact Hnd].
  destruct (_ <=? _)%Z; [|exact Hnd].
  apply NoDup_app; [exact Hnd | repeat constructor; intros [] |].
  intros [s' e'] Hin [E | []]. inversion E; subst.
  apply Hregs in Hin. destruct Hin as (_ & Hin & _). lia.
Qed.

End Scan.

(** ** PeakIntegrator: the loop over the regions *)

Section Regions.

Variables x_curve y : list float.
Variable y_baseline : float.
Variable min_height_ratio : float.

Let keep (region : nat * nat) : bool := negb (rejected y min_height_ratio region).

Lemma region_loop (regions : list (nat * nat)) (summary : Summary)
    (peak_info : list Peak) :
  let peaks := map (peak_of x_curve y y_baseline) (filter keep regions) in
  fold_left (region_step x_curve y y_baseline min_height_ratio) regions
            (summary, peak_info)
  = (mkSummary (N_peaks summary + List.length peaks)
               (fold_left add (map auc peaks) (total_area summary))
               (baseline summary)
               (fold_left (fun m h => if gt h m then h else m)
                          (map peak_y peaks) (max_height summary)),
     peak_info ++ peaks).
Proof.
  revert summary peak_info.
  induction regions as [|region regions IH]; intros summary peak_info; simpl.
  - rewrite Nat.add_0_r, app_nil_r. now destruct summary.
  - unfold region_step at 1. subst keep. cbv beta.
    destruct (rejected y min_height_ratio region); simpl.
    + apply IH.
    + rewrite IH. simpl. rewrite <- app_assoc. simpl.
      f_equal. f_equal. lia.
Qed.

End Regions.

Lemma AUC_from_a_region_eq (x_curve y : list float) (y_baseline : float)
    (min_height_ratio : float) (min_peak_length : Z) :
  let peaks :=
    map (peak_of x_curve y y_baseline)
        (surviving_regions y min_height_ratio min_peak_length) in
  AUC_from_a_region x_curve y y_baseline min_height_ratio min_peak_length
  = (summarize y_baseline peaks, peaks).
Proof.
  unfold AUC_from_a_region. rewrite region_loop. reflexivity.
Qed.

(** C3.  For every corrected curve, the candidate regions found by the
    scan are exactly the maximal runs of consecutive samples above the
    tolerance whose length is at least [min_peak_length] (the run that
    reaches the last sample included), each found once; the emitted
    peaks, the peak count and the total area are built from these
    regions alone, so a shorter run is never among the surviving regions
    and contributes nothing to them. *)
Theorem C3_candidate_regions :
  forall (x_curve y : list float) (y_baseline min_height_ratio : float)
         (min_peak_length : Z),
    (forall s e,
        In (s, e) (find_peak_regions y min_peak_length)
        <-> maximal_run y s e /\ (min_peak_length <= run_length s e)%Z)
    /\ NoDup (find_peak_regions y min_peak_length)
    /\ (let peaks :=
          map (peak_of x_curve y y_baseline)
              (surviving_regions y min_height_ratio min_peak_length) in
        AUC_from_a_region x_curve y y_baseline min_height_ratio
                          min_peak_length
        = (summarize y_baseline peaks, peaks))
    /\ (forall s e,
          (run_length s e < min_peak_length)%Z ->
          ~ In (s, e) (surviving_regions y min_height_ratio min_peak_length)).
Proof.
  intros x_curve y y_baseline min_height_ratio min_peak_length.
  split; [intros s e; apply find_peak_regions_spec|].
  split; [apply find_peak_regions_NoDup|].
  split; [apply AUC_from_a_region_eq|].
  intros s e Hshort Hin. unfold surviving_regions in Hin.
  apply filter_In in Hin as [Hin _].
  apply find_peak_regions_spec in Hin as [_ Hlen]. lia.
Qed.

Lemma C3_candidate_regions_witness :
  In (2, 4)%nat (find_peak_regions (map of_Z [0; 0; 1; 2; 1; 0; 0]%Z) 3)
  /\ ~ In (1, 1)%nat
        (surviving_regions (map of_Z [0; 5; 0; 1; 1; 1; 0]%Z) (Fin (1 # 10)) 3).
Proof.
  split.
  - destruct (C3_candidate_regions
                [] (map of_Z [0; 0; 1; 2; 1; 0; 0]%Z) (Fin 0) (Fin (1 # 10)) 3)
      as (H & _).
    apply H. split; [|unfold run_length; lia].
    split; [simpl; lia|]. split; [|split; right; reflexivity].
    intros i Hi.
    assert (E : i = 2%nat \/ i = 3%nat \/ i = 4%nat) by lia.
    destruct E as [-> | [-> | ->]]; reflexivity.
  - destruct (C3_candidate_regions
                [] (map of_Z [0; 5; 0; 1; 1; 1; 0]%Z) (Fin 0) (Fin (1 # 10)) 3)
      as (_ & _ & _ & H).
    apply H. unfold run_length. lia.
Defined.

(** C2.  On the curve y = [0,0,1,2,1,0,0] at x = [1..7], with
    min_height_ratio = 0.1 and min_peak_length = 3, the integrator emits
    exactly one peak and the total area of the summary is 4. *)
Theorem C2_triangle_example :
  forall y_baseline : float,
    let x := map of_Z [1; 2; 3; 4; 5; 6; 7]%Z in
    let y := map of_Z [0; 0; 1; 2; 1; 0; 0]%Z in
    let '(summary, peak_info) :=
      AUC_from_a_region x y y_baseline (Fin (1 # 10)) 3 in
    List.length peak_info = 1%nat
    /\ N_peaks summary = 1%nat
    /\ same (total_area summary) (Fin 4).
Proof.
  intros y_baseline. vm_compute. repeat split.
Qed.

(** ** Maxima *)

Lemma hasnans_false (l : list float) :
  Np.hasnans l = false <-> Forall (fun a => is_nan a = false) l.
Proof.
  unfold Np.hasnans. induction l as [|a l IH]; simpl.
  - split; [constructor | reflexivity].
  - rewrite orb_false_iff, IH. split.
    + intros [Ha Hl]. now constructor.
    + intros H. now inversion H.
Qed.

Lemma builtin_max_spec (rest : list float) (q0 : Q) :
  Forall (fun a => is_nan a = false) rest ->
  exists h,
    Np.builtin_max_from (Fin q0) rest = Fin h
    /\ In (Fin h) (Fin q0 :: rest)
    /\ forall q, In (Fin q) (Fin q0 :: rest) -> q <= h.
Proof.
  unfold Np.builtin_max_from. revert q0.
  induction rest as [|a rest IH]; intros q0 Hfin; simpl.
  - exists q0. split; [reflexivity|]. split; [now left|].
    intros q [[= ->] | []]. apply Qle_refl.
  - inversion Hfin as [|? ? Ha Hrest]; subst.
    destruct a as [|qa]; [discriminate|].
    destruct (gt (Fin qa) (Fin q0)) eqn:Hgt.
    + apply gt_Fin in Hgt.
      destruct (IH qa Hrest) as (h & Hh & Hin & Hmax).
      exists h. split; [exact Hh|]. split.
      * right. exact Hin.
      * intros q [[= ->] | Hq]; [|now apply Hmax].
        apply Qle_trans with qa; [now apply Qlt_le_weak|].
        apply Hmax. now left.
    + apply gt_Fin_false in Hgt.
      destruct (IH q0 Hrest) as (h & Hh & Hin & Hmax).
      exists h. split; [exact Hh|]. split.
      * destruct Hin as [Hin | Hin]; [now left | now right; right].
      * intros q [[= ->] | [[= ->] | Hq]].
        -- apply Hmax. now left.
        -- apply Qle_trans with q0; [exact Hgt|]. apply Hmax. now left.
        -- apply Hmax. now right.
Qed.

Lemma np_max_is_builtin (rest : list float) (q0 : Q) :
  Forall (fun a => is_nan a = false) rest ->
  fold_left Np.max2 rest (Fin q0) = Np.builtin_max_from (Fin q0) rest.
Proof.
  unfold Np.builtin_max_from. revert q0.
  induction rest as [|a rest IH]; intros q0 Hfin; simpl; [reflexivity|].
  inversion Hfin as [|? ? Ha Hrest]; subst.
  destruct a as [|qa]; [discriminate|].
  change (Np.max2 (Fin q0) (Fin qa))
    with (if gt (Fin qa) (Fin q0) then Fin qa else Fin q0).
  destruct (gt (Fin qa) (Fin q0)); now apply IH.
Qed.

Lemma slice_as_map (l : list float) (s n : nat) :
  (s + n <= List.length l)%nat ->
  firstn n (skipn s l) = map (at_ l) (seq s n).
Proof.
  revert s n. induction l as [|a l IH]; intros s n Hlen; simpl in Hlen.
  - assert (n = 0%nat) by lia. subst n. now rewrite firstn_0.
  - destruct s as [|s].
    + destruct n as [|n]; [reflexivity|].
      simpl. f_equal.
      rewrite <- seq_shift, map_map.
      apply (IH 0%nat n). lia.
    + rewrite <- seq_shift, map_map.
      apply (IH s n). lia.
Qed.

Lemma max_on_of_list (l : list float) (s n : nat) (h : Q) :
  In (Fin h) (map (at_ l) (seq s (S n))) ->
  (forall q, In (Fin q) (map (at_ l) (seq s (S n))) -> q <= h) ->
  (forall i, (s <= i <= s + n)%nat -> is_nan (at_ l i) = false) ->
  is_max_on l s (s + n) h.
Proof.
  intros Hin Hmax Hfin. split.
  - apply in_map_iff in Hin as (i & Hi & Hseq).
    apply in_seq in Hseq. exists i. split; [lia | exact Hi].
  - intros i Hi. specialize (Hfin i Hi).
    destruct (at_ l i) as [|q] eqn:E; [discriminate|].
    exists q. split; [reflexivity|]. apply Hmax.
    apply in_map_iff. exists i. split; [exact E|]. apply in_seq. lia.
Qed.

Lemma max_curve_value_spec (y : list float) :
  Np.hasnans y = false ->
  exists g, max_curve_value y = Fin g /\ is_global_max y g.
Proof.
  intros Hnan. apply hasnans_false in Hnan.
  destruct y as [|a rest]; [exists 0; split; reflexivity|].
  inversion Hnan as [|? ? Ha Hrest]; subst.
  destruct a as [|q0]; [discriminate|].
  destruct (builtin_max_spec rest q0 Hrest) as (g & Hg & Hin & Hmax).
  exists g. split; [exact Hg|].
  set (l := Fin q0 :: rest) in *.
  assert (El : l = map (at_ l) (seq 0 (S (List.length rest)))).
  { rewrite <- (slice_as_map l 0 (S (List.length rest))) by (simpl; lia).
    change (skipn 0 l) with l.
    change (S (List.length rest)) with (List.length l).
    now rewrite firstn_all. }
  unfold is_global_max. change (List.length l - 1)%nat with (S (List.length rest) - 1)%nat.
  replace (S (List.length rest) - 1)%nat with (0 + List.length rest)%nat by lia.
  apply max_on_of_list.
  - rewrite <- El. exact Hin.
  - rewrite <- El. exact Hmax.
  - intros i Hi. rewrite Forall_forall in Hnan. apply Hnan.
    unfold at_. apply nth_In. simpl. lia.
Qed.

(** On a window without NaN, numpy's maximum is the largest sample. *)
Lemma np_max_spec (values : list float) (m : float) :
  Np.hasnans values = false ->
  Np.max values = Ok m ->
  exists h, m = Fin h /\ is_max_on values 0 (List.length values - 1) h.
Proof.
  intros Hnan Hmax.
  destruct (max_curve_value_spec values Hnan) as (g & Hg & Hglobal).
  destruct values as [|a rest]; [discriminate|].
  injection Hmax as <-. exists g. split; [|exact Hglobal].
  apply hasnans_false in Hnan. inversion Hnan as [|? ? Ha Hrest]; subst.
  destruct a as [|q0]; [discriminate|].
  unfold Np.max_of. rewrite np_max_is_builtin by exact Hrest. exact Hg.
Qed.

Lemma region_height_spec (y : list float) (s e : nat) :
  maximal_run y s e ->
  exists h, region_height y (s, e) = Fin h /\ is_max_on y s e h.
Proof.
  intros ((Hse & Hlen) & Habove & _).
  unfold region_height, Np.slice; simpl.
  rewrite slice_as_map by lia.
  replace (e + 1 - s)%nat with (S (e - s)) by lia.
  assert (Hfin : forall i, (s <= i <= e)%nat -> is_nan (at_ y i) = false).
  { intros i Hi. specialize (Habove i Hi). unfold above in Habove.
    apply gt_is_Fin in Habove as (v & ? & -> & _). reflexivity. }
  simpl. destruct (at_ y s) as [|q0] eqn:E0.
  { specialize (Hfin s ltac:(lia)). rewrite E0 in Hfin. discriminate. }
  assert (Hrest : Forall (fun a => is_nan a = false)
                         (map (at_ y) (seq (S s) (e - s)))).
  { apply Forall_map, Forall_forall. intros i Hi. apply in_seq in Hi.
    apply Hfin. lia. }
  unfold Np.max_of. rewrite np_max_is_builtin by exact Hrest.
  destruct (builtin_max_spec _ q0 Hrest) as (h & Hh & Hin & Hmax).
  exists h. split; [exact Hh|].
  replace e with (s + (e - s))%nat at 1 by lia.
  apply max_on_of_list.
  - simpl. rewrite E0. exact Hin.
  - simpl. rewrite E0. exact Hmax.
  - intros i Hi. apply Hfin. lia.
Qed.

(** ** Rounding to float64 *)

Section Rounding.

Import F64.

Lemma pow2_pos (e : Z) : 0 < pow2 e.
Proof. unfold pow2. apply Qpower_0_lt. reflexivity. Qed.

Lemma pow2_plus (a b : Z) : pow2 (a + b) == pow2 a * pow2 b.
Proof. unfold pow2. apply Qpower_plus. discriminate. Qed.

Lemma pow2_int (z : Z) : (0 <= z)%Z -> pow2 z == inject_Z (2 ^ z).
Proof. intros Hz. unfold pow2. now rewrite Zpower_Qpower. Qed.

Lemma pow2_le (a b : Z) : (a <= b)%Z -> pow2 a <= pow2 b.
Proof.
  intros H. unfold pow2. apply Qpower_le_compat_l; [exact H | discriminate].
Qed.

Lemma log2_bounds (n : Z) :
  (0 < n)%Z ->
  pow2 (Z.log2 n) <= inject_Z n /\ inject_Z n < pow2 (Z.log2 n + 1).
Proof.
  intros Hn. destruct (Z.log2_spec n Hn) as [Hlo Hhi].
  pose proof (Z.log2_nonneg n) as H0.
  rewrite !pow2_int by lia. rewrite <- Zle_Qle, <- Zlt_Qlt.
  split; [exact Hlo | now rewrite <- Z.add_1_r in Hhi].
Qed.

(** [ilog2 x] is the binade of [x]. *)
Lemma ilog2_spec (x : Q) :
  0 < x -> pow2 (ilog2 x) <= x /\ x < pow2 (ilog2 x + 1).
Proof.
  intros Hx. destruct x as [n d]. unfold ilog2. cbn [Qnum Qden].
  assert (Hn : (0 < n)%Z).
  { unfold Qlt in Hx. cbn in Hx. lia. }
  destruct (log2_bounds n Hn) as [Hnl Hnu].
  destruct (log2_bounds (Zpos d) eq_refl) as [Hdl Hdu].
  set (a := Z.log2 n) in *. set (b := Z.log2 (Zpos d)) in *.
  assert (Hq : n # d == inject_Z n / inject_Z (Zpos d)) by apply Qmake_Qdiv.
  assert (Hd : 0 < inject_Z (Zpos d)) by (now rewrite <- (Zlt_Qlt 0)).
  assert (Hup : n # d < pow2 (a - b + 1)).
  { rewrite Hq. apply Qlt_shift_div_r; [exact Hd|].
    assert (E : pow2 (a - b + 1) * pow2 b == pow2 (a + 1)).
    { rewrite <- pow2_plus. now replace (a - b + 1 + b)%Z with (a + 1)%Z by lia. }
    apply Qlt_le_trans with (pow2 (a + 1)); [exact Hnu|].
    rewrite <- E. apply Qmult_le_l; [apply pow2_pos | exact Hdl]. }
  assert (Hlow : pow2 (a - b - 1) <= n # d).
  { rewrite Hq. apply Qle_shift_div_l; [exact Hd|].
    assert (E : pow2 (a - b - 1) * pow2 (b + 1) == pow2 a).
    { rewrite <- pow2_plus.
      now replace (a - b - 1 + (b + 1))%Z with a by lia. }
    apply Qle_trans with (pow2 a); [|exact Hnl].
    rewrite <- E. apply Qmult_le_l; [apply pow2_pos | now apply Qlt_le_weak]. }
  destruct (Qle_bool (pow2 (a - b)) (n # d)) eqn:T.
  - apply Qle_bool_iff in T. split; [exact T | exact Hup].
  - split; [exact Hlow|].
    replace (a - b - 1 + 1)%Z with (a - b)%Z by lia.
    apply Qnot_le_lt. intros H. apply Qle_bool_iff in H. congruence.
Qed.

Lemma round_half_even_cases (t : Q) :
  (round_half_even t = Qfloor t /\ t - inject_Z (Qfloor t) <= 1 # 2)
  \/ (round_half_even t = (Qfloor t + 1)%Z
      /\ 1 # 2 <= t - inject_Z (Qfloor t)).
Proof.
  unfold round_half_even.
  destruct (Qcompare (t - inject_Z (Qfloor t)) (1 # 2)) eqn:C.
  - apply Qeq_alt in C.
    destruct (Z.even (Qfloor t)); [left | right];
      (split; [reflexivity | lra]).
  - left. split; [reflexivity|]. apply Qlt_alt in C. lra.
  - right. split; [reflexivity|]. apply Qgt_alt in C. lra.
Qed.

Lemma round_half_even_nonneg (t : Q) : 0 <= t -> (0 <= round_half_even t)%Z.
Proof.
  intros Ht. assert (H : (0 <= Qfloor t)%Z).
  { change 0%Z with (Qfloor 0). now apply Qfloor_resp_le. }
  destruct (round_half_even_cases t) as [[-> _] | [-> _]]; lia.
Qed.

Lemma round_pos_nonneg (x : Q) : 0 <= x -> 0 <= round_pos x.
Proof.
  intros Hx. unfold round_pos. apply Qmult_le_0_compat.
  - change 0 with (inject_Z 0). rewrite <- Zle_Qle.
    apply round_half_even_nonneg.
    apply Qle_shift_div_l; [apply pow2_pos | lra].
  - apply Qlt_le_weak, pow2_pos.
Qed.

Lemma round_zero (x : Q) : x == 0 -> round x = 0.
Proof.
  intros H. unfold round. destruct x as [n d]. unfold Qeq in H. cbn in *.
  now replace n with 0%Z by lia.
Qed.

Lemma round_nonpos (x : Q) : x <= 0 -> round x <= 0.
Proof.
  intros Hx. unfold round. destruct x as [[|p|p] d]; cbn [Qnum].
  - lra.
  - exfalso. unfold Qle in Hx. cbn in Hx. lia.
  - assert (H0 : 0 <= - (Z.neg p # d)) by lra.
    pose proof (round_pos_nonneg _ H0). lra.
Qed.

Lemma round_of_pos (x : Q) : 0 < x -> round x = round_pos x.
Proof.
  intros Hx. unfold round. destruct x as [[|p|p] d]; cbn [Qnum];
    [exfalso | reflexivity | exfalso]; unfold Qlt in Hx; cbn in Hx; lia.
Qed.

(** The rounding of a positive number is within half a unit in the last
    place of it. *)
Lemma round_nearest (x : Q) :
  0 < x -> Qabs (round x - x) <= pow2 (ulp_exponent x) / 2.
Proof.
  intros Hx. rewrite (round_of_pos x Hx). unfold round_pos.
  set (u := pow2 (ulp_exponent x)).
  assert (Hu : 0 < u) by apply pow2_pos.
  set (t := x / u).
  assert (Ht : x == t * u) by (unfold t; field; lra).
  clearbody t. clearbody u.
  pose proof (Qfloor_le t) as Hk.
  assert (Eh : u / 2 == (1 # 2) * u) by field. rewrite Eh.
  apply Qabs_Qle_condition.
  destruct (round_half_even_cases t) as [[-> Hc] | [-> Hc]].
  - assert (E : inject_Z (Qfloor t) * u - x
                == - ((t - inject_Z (Qfloor t)) * u)) by (rewrite Ht; ring).
    assert (H0 : 0 <= (t - inject_Z (Qfloor t)) * u)
      by (apply Qmult_le_0_compat; lra).
    assert (H1 : (t - inject_Z (Qfloor t)) * u <= (1 # 2) * u)
      by (apply Qmult_le_compat_r; lra).
    rewrite E. split; lra.
  - pose proof (Qlt_floor t) as Hlt.
    rewrite inject_Z_plus in Hlt |- *. change (inject_Z 1) with 1 in *.
    assert (E : (inject_Z (Qfloor t) + 1) * u - x
                == (1 - (t - inject_Z (Qfloor t))) * u) by (rewrite Ht; ring).
    assert (H0 : 0 <= (1 - (t - inject_Z (Qfloor t))) * u)
      by (apply Qmult_le_0_compat; lra).
    assert (H1 : (1 - (t - inject_Z (Qfloor t))) * u <= (1 # 2) * u)
      by (apply Qmult_le_compat_r; lra).
    rewrite E. split; lra.
Qed.

(** A positive float64 is an integer of at most 53 bits times the unit
    of its own binade. *)
Lemma float64_decompose (g : Q) :
  0 < g -> is_float64 g = true ->
  exists c : Z, g == inject_Z c * pow2 (ulp_exponent g) /\ (c <= 2 ^ 53)%Z.
Proof.
  intros Hg Hf. unfold is_float64 in Hf.
  apply andb_true_iff in Hf as [Hf _]. apply Qeq_bool_iff in Hf.
  rewrite (round_of_pos g Hg) in Hf. unfold round_pos in Hf.
  set (u := pow2 (ulp_exponent g)) in *.
  assert (Hu : 0 < u) by apply pow2_pos.
  exists (round_half_even (g / u)). split; [now symmetry|].
  destruct (ilog2_spec g Hg) as [_ Hup].
  assert (Hlt : g / u < inject_Z (2 ^ 53)).
  { apply Qlt_shift_div_r; [exact Hu|].
    rewrite <- pow2_int by lia. unfold u. rewrite <- pow2_plus.
    apply Qlt_le_trans with (1 := Hup). apply pow2_le.
    unfold ulp_exponent. lia. }
  assert (Hfl : (Qfloor (g / u) < 2 ^ 53)%Z).
  { rewrite Zlt_Qlt. apply Qle_lt_trans with (2 := Hlt). apply Qfloor_le. }
  destruct (round_half_even_cases (g / u)) as [[-> _] | [-> _]]; lia.
Qed.

(** Rounding does not jump over a float64: the rounding of a positive
    number below a float64 stays below it. *)
Lemma round_le_float (x g : Q) :
  0 < x -> x <= g -> is_float64 g = true -> round x <= g.
Proof.
  intros Hx Hxg Hf. rewrite (round_of_pos x Hx). unfold round_pos.
  set (e := ulp_exponent x). set (u := pow2 e).
  assert (Hu : 0 < u) by apply pow2_pos.
  set (t := x / u). set (k := Qfloor t).
  assert (Ht : t * u == x) by (unfold t; field; lra).
  pose proof (Qfloor_le t) as Hk. fold k in Hk.
  destruct (round_half_even_cases t) as [[-> _] | [-> Hhalf]]; fold k;
    try fold k in Hhalf.
  - apply Qle_trans with (2 := Hxg). rewrite <- Ht.
    apply Qmult_le_compat_r; [exact Hk | lra].
  - assert (Hg : 0 < g) by lra.
    destruct (float64_decompose g Hg Hf) as (c & Hc & Hc53).
    set (eg := ulp_exponent g) in *.
    assert (Hku : inject_Z k * u < g).
    { apply Qlt_le_trans with (2 := Hxg). rewrite <- Ht.
      apply Qmult_lt_compat_r; [exact Hu | lra]. }
    destruct (Z_le_gt_dec e eg) as [Hle | Hgt].
    + (* g is a multiple of u *)
      assert (E : pow2 eg == inject_Z (2 ^ (eg - e)) * u).
      { rewrite <- pow2_int by lia. unfold u. rewrite <- pow2_plus.
        now replace (eg - e + e)%Z with eg by lia. }
      rewrite E, Qmult_assoc, <- inject_Z_mult in Hc.
      rewrite Hc in Hku |- *.
      apply Qmult_lt_r in Hku; [|exact Hu]. rewrite <- Zlt_Qlt in Hku.
      apply Qmult_le_compat_r; [|lra]. rewrite <- Zle_Qle. lia.
    + (* g would lie below the binade of x *)
      exfalso.
      assert (He : e = (ilog2 x - 52)%Z).
      { unfold e, eg, ulp_exponent in *. lia. }
      destruct (ilog2_spec x Hx) as [Hlo _].
      assert (Hbin : pow2 (e + 52) <= x).
      { now replace (e + 52)%Z with (ilog2 x) by lia. }
      assert (Hgle : g <= pow2 (e + 52)).
      { rewrite Hc. apply Qle_trans with (inject_Z (2 ^ 53) * pow2 eg).
        - apply Qmult_le_compat_r;
            [now rewrite <- Zle_Qle | apply Qlt_le_weak, pow2_pos].
        - rewrite <- pow2_int by lia. rewrite <- pow2_plus.
          apply pow2_le. lia. }
      assert (Hk52 : inject_Z (2 ^ 52) <= inject_Z k).
      { rewrite <- Zle_Qle. unfold k. rewrite <- (Qfloor_Z (2 ^ 52)).
        apply Qfloor_resp_le. unfold t. apply Qle_shift_div_l; [exact Hu|].
        rewrite <- pow2_int by lia. unfold u. rewrite <- pow2_plus.
        now rewrite Z.add_comm. }
      assert (Hku' : pow2 (e + 52) <= inject_Z k * u).
      { rewrite Z.add_comm, pow2_plus, pow2_int by lia.
        apply Qmult_le_compat_r; [exact Hk52 | lra]. }
      lra.
Qed.

Lemma product_zero (x y : Q) : x == 0 -> product x y == 0.
Proof.
  intros Hx. assert (E : x * y == 0) by (rewrite Hx; ring).
  unfold product. destruct (is_float64 x && is_float64 y); [|exact E].
  now rewrite (round_zero _ E).
Qed.

(** A factor of at most 1 does not raise a positive float64. *)
Lemma product_le (x g : Q) : x <= 1 -> 0 < g -> product x g <= g.
Proof.
  intros Hx Hg.
  assert (Hle : x * g <= g).
  { assert (H : x * g <= 1 * g) by (apply Qmult_le_compat_r; lra). lra. }
  unfold product. destruct (is_float64 x); simpl; [|exact Hle].
  destruct (is_float64 g) eqn:Hf; [|exact Hle].
  destruct (Qlt_le_dec 0 (x * g)) as [Hpos | Hneg].
  - now apply round_le_float.
  - pose proof (round_nonpos _ Hneg). lra.
Qed.

End Rounding.

(** The relative-height test of line 227 on two thresholds of the
    float64 grid.  With [min_height_ratio = 0.1] (the float64
    3602879701896397 / 2 ** 55) and a largest sample of 5, the product
    rounds to 0.5 and a run of height 0.5 is kept; with a largest sample
    of 3 the product rounds to 0.30000000000000004 and a run of height
    0.3 (the float64 5404319552844595 / 2 ** 54) is rejected. *)
Example threshold_rounds_to_half :
  F64.product (3602879701896397 # 36028797018963968) 5 == 1 # 2
  /\ surviving_regions
       [Fin (1 # 2); Fin (1 # 2); Fin (1 # 2); Fin 0; Fin 5; Fin 5; Fin 5]
       (Fin (3602879701896397 # 36028797018963968)) 3
     = [(0, 2); (4, 6)]%nat.
Proof. split; reflexivity. Qed.

Example threshold_rounds_up :
  F64.product (3602879701896397 # 36028797018963968) 3
  == 5404319552844596 # 18014398509481984
  /\ surviving_regions
       [Fin (5404319552844595 # 18014398509481984);
        Fin (5404319552844595 # 18014398509481984);
        Fin (5404319552844595 # 18014398509481984);
        Fin 0; Fin 3; Fin 3; Fin 3]
       (Fin (3602879701896397 # 36028797018963968)) 3
     = [(4, 6)]%nat.
Proof. split; reflexivity. Qed.

(** ** PeakIntegrator: the relative-height filter *)

Lemma surviving_iff (y : list float) (ratio : float) (min_peak_length : Z)
    (region : nat * nat) :
  In region (surviving_regions y ratio min_peak_length)
  <-> In region (find_peak_regions y min_peak_length)
      /\ rejected y ratio region = false.
Proof.
  unfold surviving_regions. rewrite filter_In, negb_true_iff. reflexivity.
Qed.

(** C4 (amended).  On a curve without NaN, a length-qualifying run is
    rejected if and only if its maximum value is strictly less than the
    float64 product of min_height_ratio and the maximum of the whole
    corrected sequence (zero for an empty sequence); on float64 operands
    that product is the exact product rounded to the nearest float64.
    The test looks at the run's own height only: whatever the ratio is
    raised to, the runs removed are exactly those whose height is below
    that product, and every run whose height is at least the product
    stays in the result. *)
Theorem C4_relative_height_filter :
  forall (y : list float) (min_peak_length : Z),
    Np.hasnans y = false ->
    exists g,
      is_global_max y g
      /\ forall s e,
           In (s, e) (find_peak_regions y min_peak_length) ->
           exists h,
             is_max_on y s e h
             /\ forall ratio : Q,
                  (rejected y (Fin ratio) (s, e) = true
                   <-> h < F64.product ratio g)
                  /\ (In (s, e)
                         (surviving_regions y (Fin ratio) min_peak_length)
                      <-> ~ h < F64.product ratio g)
                  /\ (F64.is_float64 ratio = true ->
                      F64.is_float64 g = true ->
                      F64.product ratio g = F64.round (ratio * g)).
Proof.
  intros y min_peak_length Hnan.
  destruct (max_curve_value_spec y Hnan) as (g & Hg & Hglobal).
  exists g. split; [exact Hglobal|].
  intros s e Hin.
  pose proof Hin as Hrun. apply find_peak_regions_spec in Hrun as [Hrun _].
  destruct (region_height_spec y s e Hrun) as (h & Hh & Hmax).
  exists h. split; [exact Hmax|].
  intros ratio.
  assert (Hrej : rejected y (Fin ratio) (s, e) = true
                 <-> h < F64.product ratio g).
  { unfold rejected. rewrite Hh, Hg. apply lt_Fin. }
  split; [exact Hrej|]. split.
  - rewrite surviving_iff. split.
    + intros [_ Hkeep] Hlt. apply Hrej in Hlt. congruence.
    + intros Hnlt. split; [exact Hin|].
      destruct (rejected y (Fin ratio) (s, e)); [|reflexivity].
      exfalso. apply Hnlt. now apply Hrej.
  - intros Hratio Hgf. unfold F64.product. now rewrite Hratio, Hgf.
Qed.

Lemma C4_relative_height_filter_witness :
  exists g,
    is_global_max (map of_Z [0; 0; 1; 2; 1; 0; 0]%Z) g
    /\ forall s e,
         In (s, e) (find_peak_regions (map of_Z [0; 0; 1; 2; 1; 0; 0]%Z) 3) ->
         exists h,
           is_max_on (map of_Z [0; 0; 1; 2; 1; 0; 0]%Z) s e h
           /\ forall ratio : Q,
                (rejected (map of_Z [0; 0; 1; 2; 1; 0; 0]%Z) (Fin ratio) (s, e)
                 = true <-> h < F64.product ratio g)
                /\ (In (s, e)
                       (surviving_regions (map of_Z [0; 0; 1; 2; 1; 0; 0]%Z)
                                          (Fin ratio) 3)
                    <-> ~ h < F64.product ratio g)
                /\ (F64.is_float64 ratio = true ->
                    F64.is_float64 g = true ->
                    F64.product ratio g = F64.round (ratio * g)).
Proof.
  apply (C4_relative_height_filter (map of_Z [0; 0; 1; 2; 1; 0; 0]%Z) 3).
  reflexivity.
Defined.

(** C4 as worded fails: on y = [1,1,1,0,1,1,1,0,2,2,2] with
    min_peak_length = 3 the three runs survive a ratio of 0.125; the
    first run has height 1 and the global maximum is 2, and raising the
    ratio to 0.625 > 1/2 (the product 0.625 * 2 = 1.25 is exact) removes
    the second run together with the first. *)
Lemma C4_counterexample :
  let y := map of_Z [1; 1; 1; 0; 1; 1; 1; 0; 2; 2; 2]%Z in
  surviving_regions y (Fin (1 # 8)) 3
    = [(0, 2); (4, 6); (8, 10)]%nat
  /\ region_height y (0, 2)%nat = Fin 1
  /\ max_curve_value y = Fin 2
  /\ 1 / 2 < 5 # 8
  /\ F64.is_float64 (5 # 8) = true
  /\ ~ raising_removes_only y 3 (1 # 8) (5 # 8) (0, 2)%nat.
Proof.
  cbv zeta. split; [reflexivity|]. split; [reflexivity|].
  split; [reflexivity|]. split; [reflexivity|]. split; [reflexivity|].
  intros H. specialize (H (4, 6)%nat).
  assert (Hin : In (4, 6)%nat
                   (surviving_regions
                      (map of_Z [1; 1; 1; 0; 1; 1; 1; 0; 2; 2; 2]%Z)
                      (Fin (5 # 8)) 3)).
  { apply H; [vm_compute; auto | discriminate]. }
  vm_compute in Hin. destruct Hin as [Hin | []]. discriminate.
Qed.

(** ** PeakIntegrator: the right boundary *)

Lemma mirrored_crossing (xe dx ve d : Q) :
  d < 0 ->
  xe + dx * ve / Qabs d == xe - dx * ve / d.
Proof.
  intros Hd.
  assert (Hne : ~ d == 0) by (intros E; rewrite E in Hd; discriminate).
  rewrite (Qabs_neg d) by now apply Qlt_le_weak.
  field. exact Hne.
Qed.

Lemma emitted_peak (x_curve y : list float) (y_baseline ratio : float)
    (min_peak_length : Z) (region : nat * nat) :
  In region (surviving_regions y ratio min_peak_length) ->
  In (peak_of x_curve y y_baseline region)
     (snd (AUC_from_a_region x_curve y y_baseline ratio min_peak_length)).
Proof.
  intros Hin. rewrite AUC_from_a_region_eq. simpl. now apply in_map.
Qed.

(** C5.  For every surviving run [s..e] of a curve with as many times as
    values, the emitted peak has: when [e] is not the last sample and
    |v[e+1] - v[e]| exceeds the tolerance, an end time equal to the
    mirrored zero crossing t[e] - dx * v[e] / dy (dx = t[e+1] - t[e],
    dy = v[e+1] - v[e]) and an area increased by the triangle
    (endTime - t[e]) * v[e] / 2; when the difference does not exceed the
    tolerance, end time t[e] and no added area; when [e] is the last
    sample, end time t[e] and no added area. *)
Theorem C5_right_boundary :
  forall (x_curve y : list float) (y_baseline ratio : float)
         (min_peak_length : Z) (s e : nat),
    List.length x_curve = List.length y ->
    In (s, e) (surviving_regions y ratio min_peak_length) ->
    let p := peak_of x_curve y y_baseline (s, e) in
    let dx := sub (at_ x_curve (e + 1)) (at_ x_curve e) in
    let dy := sub (at_ y (e + 1)) (at_ y e) in
    let auc_left :=
      snd (left_boundary x_curve y s (trapezoid x_curve y s e)) in
    In p (snd (AUC_from_a_region x_curve y y_baseline ratio min_peak_length))
    /\ (e <> (List.length y - 1)%nat ->
        gt (abs dy) FLOAT_TOLERANCE = true ->
        same (end_x p) (sub (at_ x_curve e) (div (mul dx (at_ y e)) dy))
        /\ auc p
           = add auc_left
                 (div (mul (sub (end_x p) (at_ x_curve e)) (at_ y e)) (Fin 2)))
    /\ (e <> (List.length y - 1)%nat ->
        gt (abs dy) FLOAT_TOLERANCE = false ->
        end_x p = at_ x_curve e /\ auc p = auc_left)
    /\ (e = (List.length y - 1)%nat ->
        end_x p = at_ x_curve e /\ auc p = auc_left).
Proof.
  intros x_curve y y_baseline ratio min_peak_length s e Hlen Hin p dx dy auc_left.
  split; [now apply emitted_peak|].
  apply surviving_iff in Hin as [Hreg _].
  apply find_peak_regions_spec in Hreg as [((Hse & He) & Habove & _ & Hright) _].
  subst p auc_left. unfold peak_of.
  destruct (left_boundary x_curve y s (trapezoid x_curve y s e))
    as [peak_st auc1] eqn:Eleft.
  unfold right_boundary. fold dx dy. simpl snd.
  split; [|split].
  - intros Hne Hgt.
    apply Nat.eqb_neq in Hne. rewrite Hne, Hgt. simpl.
    split; [|reflexivity].
    destruct Hright as [Hright | Hright];
      [apply Nat.eqb_neq in Hne; contradiction|].
    specialize (Habove e ltac:(lia)). unfold above in *.
    apply gt_is_Fin in Habove as (ve & tol & Eve & Etol & Hve).
    subst dx dy. rewrite Eve in *.
    destruct (at_ y (e + 1)) as [|v1]; [discriminate|].
    rewrite Etol in Hright. apply gt_Fin_false in Hright.
    destruct (at_ x_curve e) as [|xe]; [exact I|].
    destruct (at_ x_curve (e + 1)) as [|x1]; [exact I|].
    change (xe + (x1 - xe) * ve / Qabs (v1 - ve)
            == xe - (x1 - xe) * ve / (v1 - ve)).
    apply mirrored_crossing.
    apply Qlt_minus_iff.
    setoid_replace (0 - (v1 - ve)) with (ve - v1) by ring.
    apply (proj1 (Qlt_minus_iff v1 ve)).
    now apply Qle_lt_trans with tol.
  - intros Hne Hgt.
    apply Nat.eqb_neq in Hne. rewrite Hne, Hgt. simpl. now split.
  - intros Heq. apply Nat.eqb_eq in Heq. rewrite Heq. simpl. now split.
Qed.

Lemma C5_right_boundary_witness :
  let x := map of_Z [1; 2; 3; 4; 5; 6; 7]%Z in
  let y := map of_Z [0; 0; 1; 2; 1; 0; 0]%Z in
  let p := peak_of x y (Fin 0) (2, 4)%nat in
  In (2, 4)%nat (surviving_regions y (Fin (1 # 10)) 3)
  /\ gt (abs (sub (at_ y 5) (at_ y 4))) FLOAT_TOLERANCE = true
  /\ same (end_x p) (Fin 6)
  /\ same (auc p) (Fin 4).
Proof.
  cbv zeta.
  assert (Hin : In (2, 4)%nat
                   (surviving_regions (map of_Z [0; 0; 1; 2; 1; 0; 0]%Z)
                                      (Fin (1 # 10)) 3))
    by (vm_compute; left; reflexivity).
  pose proof (C5_right_boundary
                (map of_Z [1; 2; 3; 4; 5; 6; 7]%Z)
                (map of_Z [0; 0; 1; 2; 1; 0; 0]%Z)
                (Fin 0) (Fin (1 # 10)) 3 2 4 eq_refl Hin) as H.
  cbv zeta in H. destruct H as (_ & H & _).
  specialize (H ltac:(discriminate) eq_refl). destruct H as [Hend Hauc].
  split; [exact Hin|]. split; [reflexivity|]. split.
  - revert Hend. vm_compute. intros H; exact H.
  - rewrite Hauc. vm_compute. reflexivity.
Defined.

(** ** TraitOrchestrator: validation of the two tables *)

Lemma missing_columns_iff (parameter_df : ParameterDF) :
  missing_columns parameter_df <> []
  <-> exists col, In col required_columns /\ ~ In col (columns parameter_df).
Proof.
  unfold missing_columns. split.
  - destruct (filter _ required_columns) as [|col rest] eqn:E; [congruence|].
    intros _. exists col.
    assert (Hin : In col (col :: rest)) by now left.
    rewrite <- E in Hin. apply filter_In in Hin as [Hreq Hnot].
    split; [exact Hreq|]. intros Hin.
    apply negb_true_iff in Hnot.
    assert (Hex : existsb (String.eqb col) (columns parameter_df) = true).
    { apply existsb_exists. exists col. split; [exact Hin|].
      apply String.eqb_refl. }
    congruence.
  - intros (col & Hreq & Hnot) E.
    assert (Hin : In col (filter
              (fun c => negb (existsb (String.eqb c) (columns parameter_df)))
              required_columns)).
    { apply filter_In. split; [exact Hreq|]. apply negb_true_iff.
      destruct (existsb _ _) eqn:Hex; [|reflexivity].
      apply existsb_exists in Hex as (c & Hc & Heq).
      apply String.eqb_eq in Heq. subst c. contradiction. }
    rewrite E in Hin. contradiction.
Qed.

(** C8 (amended).  [traits_for_all] succeeds only when the input table
    has at least one column whose lower-cased name contains "time"; when
    there is none it raises the KeyError (the SchemaError) and returns
    no trait table.  The first such column is the time axis; any further
    one, under another name, is treated as a donor. *)
Theorem C8_time_column :
  forall (input_df : InputDF) (parameter_df : ParameterDF)
         (trait_prefix : string),
    (is_ok (traits_for_all input_df parameter_df trait_prefix) = true ->
     time_columns input_df <> [])
    /\ (time_columns input_df = [] ->
        traits_for_all input_df parameter_df trait_prefix = Raise KeyError)
    /\ (forall time_col more col,
          time_columns input_df = time_col :: more ->
          In col more -> fst col <> fst time_col ->
          In col (donors_of input_df (fst time_col))).
Proof.
  intros input_df parameter_df trait_prefix. unfold traits_for_all.
  split; [|split].
  - destruct (time_columns input_df); [discriminate | discriminate].
  - intros ->. reflexivity.
  - intros time_col more col E Hin Hne.
    unfold donors_of. apply filter_In. split.
    + assert (H : In col (time_columns input_df)) by (rewrite E; now right).
      unfold time_columns in H. now apply filter_In in H as [H _].
    + apply negb_true_iff. now apply String.eqb_neq.
Qed.

Lemma C8_time_column_witness :
  let input_df : InputDF :=
    [("Time", [Fin 1; Fin 2]); ("time", [Fin 5; Fin 7])] in
  time_columns input_df <> []
  /\ In ("time", [Fin 5; Fin 7]) (donors_of input_df "Time").
Proof.
  cbv zeta.
  pose proof (C8_time_column
                [("Time", [Fin 1; Fin 2]); ("time", [Fin 5; Fin 7])]
                (mkParameterDF required_columns []) "INS") as (H1 & _ & H3).
  split.
  - apply H1. reflexivity.
  - apply (H3 ("Time", [Fin 1; Fin 2]) [("time", [Fin 5; Fin 7])]).
    + reflexivity.
    + now left.
    + discriminate.
Defined.

(** C8 as worded fails: a table with the two columns "Time" and "time"
    (both equal to "time" up to case) is accepted; the second one is
    processed as a donor. *)
Lemma C8_counterexample :
  let input_df : InputDF :=
    [("Time", [Fin 1; Fin 2]); ("time", [Fin 5; Fin 7])] in
  let parameter_df :=
    mkParameterDF required_columns
      [mkPhaseRow "Basal" "1-2" "1-2" (Fin 0) 0 "Baseline" false false] in
  map (fun col => is_time_name (fst col)) input_df = [true; true]
  /\ List.length (time_columns input_df) = 2%nat
  /\ (exists basal,
        traits_for_all input_df parameter_df "INS"
        = Ok [("Donor ID", DonorID ["time"]);
              ("INS Basal", Traits [Val (Fin basal)])]
        /\ basal == 6)
  /\ ~ (is_ok (traits_for_all input_df parameter_df "INS") = true ->
        List.length (time_columns input_df) = 1%nat).
Proof.
  cbv zeta. split; [reflexivity|]. split; [reflexivity|]. split.
  - eexists. split; [vm_compute; reflexivity | reflexivity].
  - intros H. specialize (H eq_refl). discriminate.
Qed.

(** C9 (amended).  If the phase-parameter table lacks any of the eight
    required columns, [traits_for_all] fails before any donor is
    processed and returns no trait table, whatever the rows hold: with
    the AssertionError (the ConfigError) when the input table has a time
    column, and with the KeyError of the time-column check, which comes
    first, when it has none. *)
Theorem C9_missing_parameter_column :
  forall (input_df : InputDF) (parameter_df : ParameterDF)
         (trait_prefix : string) (col : string),
    In col required_columns ->
    ~ In col (columns parameter_df) ->
    (time_columns input_df <> [] ->
     traits_for_all input_df parameter_df trait_prefix = Raise AssertionError)
    /\ (time_columns input_df = [] ->
        traits_for_all input_df parameter_df trait_prefix = Raise KeyError).
Proof.
  intros input_df parameter_df trait_prefix col Hreq Hnot.
  assert (Hmiss : missing_columns parameter_df <> [])
    by (apply missing_columns_iff; now exists col).
  unfold traits_for_all. split.
  - destruct (time_columns input_df); [congruence|]. intros _.
    destruct (missing_columns parameter_df); [congruence | reflexivity].
  - intros ->. reflexivity.
Qed.

Lemma C9_missing_parameter_column_witness :
  traits_for_all
    [("time", [Fin 1; Fin 2]); ("D1", [Fin 5; Fin 7])]
    (mkParameterDF
       ["PeakName"; "PeakRange"; "BaselineTime"; "MinHeightRatio";
        "BaselineOrPeak"; "NegativePeak"; "CalculateSIorII"]
       [mkPhaseRow "Basal" "1-2" "1-2" (Fin 0) 0 "Baseline" false false])
    "INS"
  = Raise AssertionError.
Proof.
  apply (C9_missing_parameter_column _ _ _ "MinPeakLength").
  - simpl. tauto.
  - simpl. intros H.
    repeat (destruct H as [H | H]; [discriminate|]). exact H.
  - discriminate.
Defined.

(** C9 as worded fails: when the input table has no time column the
    call raises the KeyError before the parameter table is looked at. *)
Lemma C9_counterexample :
  let input_df : InputDF := [("D1", [Fin 5; Fin 7])] in
  let parameter_df := mkParameterDF ["PeakName"; "PeakRange"] [] in
  In "MinPeakLength" required_columns
  /\ ~ In "MinPeakLength" (columns parameter_df)
  /\ traits_for_all input_df parameter_df "INS" = Raise KeyError
  /\ traits_for_all input_df parameter_df "INS" <> Raise AssertionError.
Proof.
  cbv zeta. split; [simpl; tauto|]. split.
  - simpl. intros [H | [H | []]]; discriminate.
  - split; [reflexivity | discriminate].
Qed.

(** ** TraitOrchestrator: the loops over phases and donors *)

Lemma mapM_ok {A B} (f : A -> result B) (l : list A) (bs : list B) :
  mapM f l = Ok bs -> Forall2 (fun a b => f a = Ok b) l bs.
Proof.
  revert bs. induction l as [|a l IH]; intros bs; simpl.
  - intros [= <-]. constructor.
  - destruct (f a) as [b|] eqn:Ea; [|discriminate]. simpl.
    destruct (mapM f l) as [bs'|]; [|discriminate]. simpl.
    intros [= <-]. constructor; [exact Ea | now apply IH].
Qed.

Lemma mapM_raise {A B} (f : A -> result B) (l : list A) (a : A) (e : exn) :
  In a l -> f a = Raise e -> exists e', mapM f l = Raise e'.
Proof.
  induction l as [|a' l IH]; simpl; [contradiction|].
  intros [-> | Hin] Ha.
  - rewrite Ha. now exists e.
  - destruct (f a') as [b|e1]; simpl; [|now exists e1].
    destruct (IH Hin Ha) as (e' & ->). now exists e'.
Qed.

Lemma Forall2_In_l {A B} (P : A -> B -> Prop) (l : list A) (l' : list B)
    (a : A) :
  Forall2 P l l' -> In a l -> exists b, In b l' /\ P a b.
Proof.
  induction 1 as [|a0 b0 l l' H0 _ IH]; simpl; [contradiction|].
  intros [-> | Hin].
  - exists b0. split; [now left | exact H0].
  - destruct (IH Hin) as (b & Hb & Hp). exists b. split; [now right | exact Hp].
Qed.

Section Phases.

Variable trait_prefix : string.
Variable time_x : list float.
Variable donors : list (string * list float).

Lemma run_phases_app (before after : list PhaseRow) (tbl0 : DataFrame) :
  run_phases trait_prefix time_x donors tbl0 (before ++ after)
  = (tbl1 <- run_phases trait_prefix time_x donors tbl0 before ;;
     run_phases trait_prefix time_x donors tbl1 after).
Proof.
  revert tbl0. induction before as [|row before IH]; intros tbl0; simpl.
  - reflexivity.
  - destruct (phase_step trait_prefix time_x donors tbl0 row); simpl;
      [apply IH | reflexivity].
Qed.

(** A successful run went through every phase successfully. *)
Lemma run_phases_ok (phases : list PhaseRow) (tbl0 tbl : DataFrame)
    (row : PhaseRow) :
  run_phases trait_prefix time_x donors tbl0 phases = Ok tbl ->
  In row phases ->
  exists tbl1 tbl2,
    phase_step trait_prefix time_x donors tbl1 row = Ok tbl2.
Proof.
  revert tbl0. induction phases as [|r phases IH]; intros tbl0; simpl;
    [contradiction|].
  destruct (phase_step trait_prefix time_x donors tbl0 r) as [tbl1|] eqn:E;
    [|discriminate].
  simpl. intros Hrun [-> | Hin].
  - now exists tbl0, tbl1.
  - now apply (IH tbl1).
Qed.

Lemma phase_step_peak_ok (tbl1 tbl2 : DataFrame) (row : PhaseRow) :
  phase_step trait_prefix time_x donors tbl1 row = Ok tbl2 ->
  is_baseline row = false ->
  exists cells, mapM (peak_cell time_x row) donors = Ok cells.
Proof.
  unfold phase_step. intros H Hkind. rewrite Hkind in H.
  destruct (mapM (peak_cell time_x row) donors) as [cells|]; [|discriminate].
  now exists cells.
Qed.

End Phases.

(** What a successful peak cell of a donor without missing sample is. *)
Lemma peak_cell_ok (time_x : list float) (row : PhaseRow)
    (donor : string * list float) (cell : trait * trait) :
  peak_cell time_x row donor = Ok cell ->
  Np.hasnans (snd donor) = false ->
  exists sub_x sub_y y_baseline sub_y_max,
    parse_peak_and_baseline_region time_x (snd donor) (PeakRange row)
      (BaselineTime row) (NegativePeak row)
    = Ok (sub_x, sub_y, y_baseline)
    /\ Np.max sub_y = Ok sub_y_max
    /\ cell
       = (Val (total_area
                 (fst (AUC_from_a_region sub_x sub_y y_baseline
                         (MinHeightRatio row) (MinPeakLength row)))),
          index_of (NegativePeak row) y_baseline sub_y_max).
Proof.
  unfold peak_cell. intros H Hnan. rewrite Hnan in H.
  destruct (parse_peak_and_baseline_region _ _ _ _ _)
    as [[[sub_x sub_y] y_baseline]|]; [|discriminate].
  simpl in H. rewrite AUC_from_a_region_eq in H.
  destruct (Np.max sub_y) as [sub_y_max|] eqn:Emax; [|discriminate].
  simpl in H. injection H as <-.
  exists sub_x, sub_y, y_baseline, sub_y_max.
  split; [reflexivity|]. split; [exact Emax|].
  rewrite AUC_from_a_region_eq. reflexivity.
Qed.

Lemma select_window {A B} (f : A -> bool) (xs : list A) (ys : list B) :
  Np.select (map f xs) xs = [] -> Np.select (map f xs) ys = [].
Proof.
  revert ys. induction xs as [|a xs IH]; intros ys; simpl; [reflexivity|].
  destruct ys as [|b ys]; [reflexivity|].
  destruct (f a); [discriminate | apply IH].
Qed.

(** The corrected values of an empty peak window are empty. *)
Lemma empty_window (time_x series : list float) (peak_range base : string)
    (negative_peak : bool) (sub_x sub_y : list float) (y_baseline : float) :
  parse_peak_and_baseline_region time_x series peak_range base negative_peak
  = Ok (sub_x, sub_y, y_baseline) ->
  sub_x = [] -> sub_y = [].
Proof.
  unfold parse_peak_and_baseline_region.
  destruct (resolve time_x base) as [pts|]; [|discriminate]. simpl.
  destruct (PyStr.split "-" peak_range) as [|start [|end_ [|? ?]]];
    try discriminate.
  destruct (PyStr.int start) as [a|]; [|discriminate]. simpl.
  destruct (PyStr.int end_) as [b|]; [|discriminate]. simpl.
  intros [= <- <- <-] Hx. unfold Np.between in *.
  rewrite (select_window _ _ series Hx). now destruct negative_peak.
Qed.

(** C10.  [traits_for_all] returns a trait table only if, for every
    peak-kind phase and every donor without missing sample, the peak
    window selects at least one time point; when a window selects no
    sample the whole call raises (numpy's maximum of the empty windowed
    curve), although the integrator itself, on an empty curve, returns
    zero peaks, zero area and zero maximum height. *)
Theorem C10_empty_peak_window :
  forall (input_df : InputDF) (parameter_df : ParameterDF)
         (trait_prefix : string),
    (forall tbl,
        traits_for_all input_df parameter_df trait_prefix = Ok tbl ->
        exists time_col more,
          time_columns input_df = time_col :: more
          /\ forall row donor,
               In row (rows parameter_df) -> is_baseline row = false ->
               In donor (donors_of input_df (fst time_col)) ->
               Np.hasnans (snd donor) = false ->
               exists sub_x sub_y y_baseline,
                 parse_peak_and_baseline_region (snd time_col) (snd donor)
                   (PeakRange row) (BaselineTime row) (NegativePeak row)
                 = Ok (sub_x, sub_y, y_baseline)
                 /\ sub_x <> [])
    /\ (forall time_col more row donor sub_y y_baseline,
          time_columns input_df = time_col :: more ->
          In row (rows parameter_df) -> is_baseline row = false ->
          In donor (donors_of input_df (fst time_col)) ->
          Np.hasnans (snd donor) = false ->
          parse_peak_and_baseline_region (snd time_col) (snd donor)
            (PeakRange row) (BaselineTime row) (NegativePeak row)
          = Ok ([], sub_y, y_baseline) ->
          exists e,
            traits_for_all input_df parameter_df trait_prefix = Raise e)
    /\ (forall y_baseline min_height_ratio min_peak_length,
          AUC_from_a_region [] [] y_baseline min_height_ratio min_peak_length
          = (mkSummary 0 (Fin 0) y_baseline (Fin 0), [])).
Proof.
  intros input_df parameter_df trait_prefix.
  assert (Hok : forall tbl,
    traits_for_all input_df parameter_df trait_prefix = Ok tbl ->
    exists time_col more,
      time_columns input_df = time_col :: more
      /\ forall row donor,
           In row (rows parameter_df) -> is_baseline row = false ->
           In donor (donors_of input_df (fst time_col)) ->
           Np.hasnans (snd donor) = false ->
           exists sub_x sub_y y_baseline,
             parse_peak_and_baseline_region (snd time_col) (snd donor)
               (PeakRange row) (BaselineTime row) (NegativePeak row)
             = Ok (sub_x, sub_y, y_baseline)
             /\ sub_x <> []).
  { intros tbl. unfold traits_for_all.
    destruct (time_columns input_df) as [|time_col more]; [discriminate|].
    destruct (missing_columns parameter_df); [|discriminate].
    intros Hrun. exists time_col, more. split; [reflexivity|].
    intros row donor Hrow Hkind Hdonor Hnan.
    destruct (run_phases_ok _ _ _ _ _ _ row Hrun Hrow) as (tbl1 & tbl2 & Hstep).
    destruct (phase_step_peak_ok _ _ _ _ _ _ Hstep Hkind) as (cells & Hcells).
    apply mapM_ok in Hcells.
    destruct (Forall2_In_l _ _ _ donor Hcells Hdonor) as (cell & _ & Hcell).
    destruct (peak_cell_ok _ _ _ _ Hcell Hnan)
      as (sub_x & sub_y & y_baseline & m & Hparse & Hmax & _).
    exists sub_x, sub_y, y_baseline. split; [exact Hparse|].
    intros Hx. rewrite (empty_window _ _ _ _ _ _ _ _ Hparse Hx) in Hmax.
    discriminate. }
  split; [exact Hok|]. split; [|reflexivity].
  intros time_col more row donor sub_y y_baseline Htime Hrow Hkind Hdonor
         Hnan Hparse.
  destruct (traits_for_all input_df parameter_df trait_prefix) as [tbl|e] eqn:E;
    [|now exists e].
  exfalso. destruct (Hok tbl eq_refl) as (tc & more' & Htime' & Hall).
  rewrite Htime in Htime'. injection Htime' as <- <-.
  destruct (Hall row donor Hrow Hkind Hdonor Hnan)
    as (sub_x' & sub_y' & b' & Hparse' & Hne).
  rewrite Hparse in Hparse'. injection Hparse' as <- _ _. now apply Hne.
Qed.

Lemma C10_empty_peak_window_witness :
  (exists sub_x sub_y y_baseline,
      parse_peak_and_baseline_region Sample.time Sample.donor1 "3-7" "1-2" false
      = Ok (sub_x, sub_y, y_baseline)
      /\ sub_x <> [])
  /\ exists e,
       traits_for_all Sample.input_df Sample.late_parameter_df "INS" = Raise e.
Proof.
  split.
  - destruct (C10_empty_peak_window Sample.input_df Sample.parameter_df "INS")
      as (H & _ & _).
    assert (Hok : exists tbl,
               traits_for_all Sample.input_df Sample.parameter_df "INS" = Ok tbl)
      by (eexists; vm_compute; reflexivity).
    destruct Hok as (tbl & Hok).
    destruct (H tbl Hok) as (time_col & more & Htime & Hall).
    injection Htime as <- _.
    apply (Hall Sample.stimulus ("D1", Sample.donor1)).
    + right. now left.
    + reflexivity.
    + now left.
    + reflexivity.
  - destruct (C10_empty_peak_window Sample.input_df Sample.late_parameter_df
                "INS") as (_ & H & _).
    apply (H ("Time", Sample.time)
             [] Sample.late_stimulus ("D1", Sample.donor1) [] (Fin (2 # 2))).
    + reflexivity.
    + right. now left.
    + reflexivity.
    + left. reflexivity.
    + reflexivity.
    + vm_compute. reflexivity.
Defined.

(** ** TraitOrchestrator: donors with a missing sample *)

Lemma Forall2_map_r {A B C} (P : A -> B -> Prop) (Q : A -> C -> Prop)
    (g : B -> C) (l : list A) (l' : list B) :
  Forall2 P l l' -> (forall a b, P a b -> Q a (g b)) ->
  Forall2 Q l (map g l').
Proof.
  intros H HPQ. induction H as [|a b l l' Hab _ IH]; simpl; constructor;
    [now apply HPQ | exact IH].
Qed.





Lemma dict_set_In {V} (key k : string) (v c : V) (d : list (string * V)) :
  In (k, c) (dict_set key v d) -> (k, c) = (key, v) \/ In (k, c) d.
Proof.
  induction d as [|[k0 w] d IH]; simpl.
  - intros [H | []]. left. now symmetry.
  - destruct (String.eqb_spec k0 key) as [-> | Hne]; simpl.
    + intros [H | H]; [left; now symmetry | right; now right].
    + intros [H | H]; [right; now left|].
      destruct (IH H) as [E | Hin]; [now left | right; now right].
Qed.



Section MissingSamples.

Variable trait_prefix : string.
Variable time_x : list float.
Variable donors : list (string * list float).

Let mask : list bool := map complete donors.







Variable phases : list PhaseRow.




End MissingSamples.






(** ** TraitOrchestrator: the stored stimulation index *)

Lemma dict_get_set_same {V} (key : string) (v : V) (d : list (string * V)) :
  dict_get key (dict_set key v d) = Some v.
Proof.
  induction d as [|[k w] d IH]; simpl.
  - now rewrite String.eqb_refl.
  - destruct (String.eqb k key) eqn:E; simpl; rewrite E; [reflexivity | exact IH].
Qed.

Lemma dict_get_set_other {V} (key k : string) (v : V) (d : list (string * V)) :
  key <> k -> dict_get k (dict_set key v d) = dict_get k d.
Proof.
  intros Hne. induction d as [|[k0 w] d IH]; simpl.
  - apply String.eqb_neq in Hne. now rewrite Hne.
  - destruct (String.eqb_spec k0 key) as [-> | Hk]; simpl.
    + apply String.eqb_neq in Hne. now rewrite Hne.
    + destruct (String.eqb k0 k); [reflexivity | exact IH].
Qed.

Section StoredIndex.

Variable trait_prefix : string.
Variable time_x : list float.
Variable donors : list (string * list float).

Lemma phase_step_keeps (key : string) (tbl tbl' : DataFrame) (row : PhaseRow) :
  ~ In key (assigned_names trait_prefix row) ->
  phase_step trait_prefix time_x donors tbl row = Ok tbl' ->
  dict_get key tbl' = dict_get key tbl.
Proof.
  unfold assigned_names, phase_step. destruct (is_baseline row).
  - intros Hkey. destruct (mapM _ donors); [|discriminate]. simpl.
    intros [= <-]. apply dict_get_set_other. intros E. apply Hkey. now left.
  - intros Hkey. destruct (mapM _ donors); [|discriminate]. simpl.
    destruct (CalculateSIorII row); intros [= <-].
    + rewrite !dict_get_set_other; [reflexivity | |];
        intros E; apply Hkey; [now left | right; now left].
    + apply dict_get_set_other. intros E. apply Hkey. now left.
Qed.

Lemma run_phases_keeps (key : string) (phases : list PhaseRow)
    (tbl tbl' : DataFrame) :
  (forall later, In later phases ->
                 ~ In key (assigned_names trait_prefix later)) ->
  run_phases trait_prefix time_x donors tbl phases = Ok tbl' ->
  dict_get key tbl' = dict_get key tbl.
Proof.
  revert tbl. induction phases as [|row phases IH]; intros tbl Hkey; simpl.
  - now intros [= <-].
  - destruct (phase_step trait_prefix time_x donors tbl row) as [tbl1|] eqn:E;
      [|discriminate].
    simpl. intros Hrun. rewrite (IH tbl1); [| |exact Hrun].
    + apply (phase_step_keeps key tbl tbl1 row); [|exact E].
      apply Hkey. now left.
    + intros later Hin. apply Hkey. now right.
Qed.

(** The index column written by a peak phase that computes it. *)
Lemma phase_step_index (tbl tbl' : DataFrame) (row : PhaseRow) :
  is_baseline row = false -> CalculateSIorII row = true ->
  phase_step trait_prefix time_x donors tbl row = Ok tbl' ->
  exists cells,
    mapM (peak_cell time_x row) donors = Ok cells
    /\ dict_get (index_trait_name trait_prefix row) tbl'
       = Some (Traits (map snd cells)).
Proof.
  unfold phase_step. intros -> ->.
  destruct (mapM (peak_cell time_x row) donors) as [cells|]; [|discriminate].
  simpl. intros [= <-]. exists cells. split; [reflexivity|].
  apply dict_get_set_same.
Qed.

End StoredIndex.

(** C1 (amended).  When [traits_for_all] returns a table: for every
    peak-kind phase with CalculateSIorII set and NegativePeak false whose
    SI column is not assigned again by a later row, and for every donor
    without missing sample, the stored SI equals
    (baseline + maxHeight) / baseline when baseline > 0 and is NA
    otherwise, where maxHeight is the numpy maximum of the whole
    baseline-corrected peak window (its largest sample, when the window
    holds no NaN) when that maximum is positive and 0 otherwise; the
    maximum height kept in the integrator's summary is not used. *)
Theorem C1_stimulation_index :
  forall (input_df : InputDF) (parameter_df : ParameterDF)
         (trait_prefix : string) (tbl : DataFrame)
         (time_col : string * list float) (more : InputDF)
         (before after : list PhaseRow) (row : PhaseRow),
    traits_for_all input_df parameter_df trait_prefix = Ok tbl ->
    time_columns input_df = time_col :: more ->
    rows parameter_df = before ++ row :: after ->
    is_baseline row = false ->
    CalculateSIorII row = true ->
    NegativePeak row = false ->
    (forall later, In later after ->
        ~ In (index_trait_name trait_prefix row)
             (assigned_names trait_prefix later)) ->
    exists values,
      dict_get (index_trait_name trait_prefix row) tbl = Some (Traits values)
      /\ Forall2
           (fun donor v =>
              Np.hasnans (snd donor) = false ->
              exists sub_x sub_y y_baseline sub_y_max,
                parse_peak_and_baseline_region (snd time_col) (snd donor)
                  (PeakRange row) (BaselineTime row) false
                = Ok (sub_x, sub_y, y_baseline)
                /\ Np.max sub_y = Ok sub_y_max
                /\ (Np.hasnans sub_y = false ->
                    exists h,
                      sub_y_max = Fin h
                      /\ is_max_on sub_y 0 (List.length sub_y - 1) h)
                /\ let maxHeight :=
                     if gt sub_y_max (Fin 0) then sub_y_max else Fin 0 in
                   v = if gt y_baseline (Fin 0)
                       then Val (div (add y_baseline maxHeight) y_baseline)
                       else NA)
           (donors_of input_df (fst time_col)) values.
Proof.
  intros input_df parameter_df trait_prefix tbl time_col more before after row
         Hrun Htime Hrows Hkind Hindex Hneg Hlater.
  unfold traits_for_all in Hrun. rewrite Htime in Hrun.
  destruct (missing_columns parameter_df); [|discriminate].
  rewrite Hrows, run_phases_app in Hrun.
  destruct (run_phases trait_prefix (snd time_col) _ _ before) as [tbl1|];
    [|discriminate].
  simpl in Hrun.
  destruct (phase_step trait_prefix (snd time_col) _ tbl1 row) as [tbl2|] eqn:Es;
    [|discriminate].
  simpl in Hrun.
  destruct (phase_step_index _ _ _ _ _ _ Hkind Hindex Es) as (cells & Hcells & Hget).
  exists (map snd cells). split.
  - rewrite (run_phases_keeps _ _ _ _ _ _ _ Hlater Hrun). exact Hget.
  - apply mapM_ok in Hcells.
    apply (Forall2_map_r _ _ snd _ _ Hcells).
    intros donor cell Hcell Hnan.
    destruct (peak_cell_ok _ _ _ _ Hcell Hnan)
      as (sub_x & sub_y & y_baseline & m & Hparse & Hmax & ->).
    rewrite Hneg in *. exists sub_x, sub_y, y_baseline, m.
    split; [exact Hparse|]. split; [exact Hmax|].
    split; [|reflexivity].
    intros Hfin. now apply np_max_spec.
Qed.

Lemma C1_stimulation_index_witness :
  exists values,
    dict_get "INS G 16.7 SI"
      match traits_for_all Sample.input_df Sample.parameter_df "INS" with
      | Ok tbl => tbl
      | Raise _ => []
      end
    = Some (Traits values)
    /\ exists v, nth 0 values NA = Val (Fin v) /\ v == (1 + 2) / 1.
Proof.
  assert (Hok : exists tbl,
             traits_for_all Sample.input_df Sample.parameter_df "INS" = Ok tbl)
    by (eexists; vm_compute; reflexivity).
  destruct Hok as (tbl & Hok).
  destruct (C1_stimulation_index
              Sample.input_df Sample.parameter_df "INS" tbl
              ("Time", Sample.time) [] [Sample.basal] [] Sample.stimulus Hok
              eq_refl eq_refl eq_refl eq_refl eq_refl
              (fun later (H : In later []) => match H with end))
    as (values & Hget & Hall).
  exists values. rewrite Hok. split; [exact Hget|].
  inversion Hall as [|donor v ds vs Hv _ Eds Evs]; subst.
  destruct (Hv eq_refl)
    as (sub_x & sub_y & y_baseline & m & Hparse & Hmax & _ & Hval).
  vm_compute in Hparse. injection Hparse as <- <- <-.
  vm_compute in Hmax. injection Hmax as <-.
  vm_compute in Hval. subst v.
  eexists. split; [reflexivity | reflexivity].
Defined.

(** C1 as worded fails: in the sample table the corrected window of
    donor D1 is [2, 0, 1, 1, 1]; the only run that survives the length
    filter has height 1, so the summary's maximum height is 1 and the
    worded index is (1 + 1) / 1 = 2, but the stored index is
    (1 + 2) / 1 = 3, from the maximum 2 of the whole window. *)
Lemma C1_counterexample :
  exists tbl values sub_x sub_y y_baseline,
    traits_for_all Sample.input_df Sample.parameter_df "INS" = Ok tbl
    /\ dict_get "INS G 16.7 SI" tbl = Some (Traits values)
    /\ parse_peak_and_baseline_region Sample.time Sample.donor1
         "3-7" "1-2" false
       = Ok (sub_x, sub_y, y_baseline)
    /\ let summary :=
         fst (AUC_from_a_region sub_x sub_y y_baseline (Fin (1 # 10)) 3) in
       same (baseline summary) (Fin 1)
       /\ same (max_height summary) (Fin 1)
       /\ same_trait (spec_SI summary) (Val (Fin 2))
       /\ same_trait (nth 0 values NA) (Val (Fin 3))
       /\ ~ same_trait (nth 0 values NA) (spec_SI summary).
Proof.
  do 5 eexists.
  split; [vm_compute; reflexivity|].
  split; [vm_compute; reflexivity|].
  split; [vm_compute; reflexivity|].
  cbv zeta.
  split; [vm_compute; reflexivity|]. split; [vm_compute; reflexivity|].
  split; [vm_compute; reflexivity|]. split; [vm_compute; reflexivity|].
  vm_compute. discriminate.
Qed.

(** * Further properties of the engine *)

(** ** RangeResolver: malformed specifications *)

Lemma int_exn (s : string) (e : exn) : PyStr.int s = Raise e -> e = ValueError.
Proof.
  unfold PyStr.int. destruct (NilZero.uint_of_string s); [discriminate|].
  now intros [= <-].
Qed.

Lemma resolve_token_exn (entire_x : list float) (per_range : string) (e : exn) :
  resolve_token entire_x per_range = Raise e -> e = ValueError.
Proof.
  unfold resolve_token. destruct (PyStr.has_char "-" per_range).
  - destruct (PyStr.split "-" per_range) as [|start [|end_ [|? ?]]];
      try (now intros [= <-]).
    destruct (PyStr.int start) eqn:Es; simpl; [|intros [= <-]; eauto using int_exn].
    destruct (PyStr.int end_) eqn:Ee; simpl; [discriminate|].
    intros [= <-]; eauto using int_exn.
  - destruct (PyStr.int per_range) eqn:Ei; simpl; [discriminate|].
    intros [= <-]; eauto using int_exn.
Qed.

Lemma resolve_ranges_exn (entire_x : list float) (ranges : list string)
    (acc : list float) (e : exn) :
  resolve_ranges entire_x ranges acc = Raise e -> e = ValueError.
Proof.
  revert acc. induction ranges as [|r ranges IH]; intros acc; simpl;
    [discriminate|].
  destruct (resolve_token entire_x r) as [pts|e'] eqn:Er; simpl.
  - apply IH.
  - intros [= <-]. eauto using resolve_token_exn.
Qed.

Lemma resolve_exn (entire_x : list float) (spec : string) (e : exn) :
  resolve entire_x spec = Raise e -> e = ValueError.
Proof. apply resolve_ranges_exn. Qed.

Lemma resolve_ranges_bad_token (entire_x : list float) (ranges : list string)
    (acc : list float) (t : string) (e : exn) :
  In t ranges -> resolve_token entire_x t = Raise e ->
  resolve_ranges entire_x ranges acc = Raise ValueError.
Proof.
  revert acc. induction ranges as [|r ranges IH]; intros acc; simpl;
    [contradiction|].
  intros Hin Ht.
  destruct (resolve_token entire_x r) as [pts|e'] eqn:Er; simpl.
  - destruct Hin as [-> | Hin]; [congruence|]. now apply IH.
  - f_equal. eauto using resolve_token_exn.
Qed.

Lemma split_length (sep : ascii) (s : string) :
  List.length (PyStr.split sep s) = S (count_char sep s).
Proof.
  induction s as [|c s IH]; simpl; [reflexivity|].
  destruct (Ascii.eqb c sep); simpl; [now rewrite IH|].
  destruct (PyStr.split sep s); simpl in *; [discriminate | exact IH].
Qed.

Lemma has_char_count (c : ascii) (s : string) :
  PyStr.has_char c s = true <-> (1 <= count_char c s)%nat.
Proof.
  induction s as [|a s IH]; simpl; [split; [discriminate | lia]|].
  destruct (Ascii.eqb a c); simpl; [split; [lia | reflexivity]|].
  exact IH.
Qed.

(** X1.  A specification with an empty token (the empty string, a
    leading, trailing or doubled '|') raises ValueError, whatever the
    other tokens and the time axis are. *)
Theorem resolve_empty_token :
  forall (entire_x : list float) (spec : string),
    In EmptyString (PyStr.split "|" spec) ->
    resolve entire_x spec = Raise ValueError.
Proof.
  intros entire_x spec Hin. unfold resolve.
  apply (resolve_ranges_bad_token _ _ _ EmptyString ValueError Hin).
  reflexivity.
Qed.

Lemma resolve_empty_token_witness :
  resolve Sample.time "3-5|" = Raise ValueError.
Proof.
  apply resolve_empty_token. simpl. right. now left.
Defined.

(** X2.  A token with two or more '-' (such as "3-5-7", or a bound
    written with a minus sign as in "-3-5") raises ValueError: negative
    bounds cannot be written in a range specification. *)
Theorem resolve_two_dashes :
  forall (entire_x : list float) (spec t : string),
    In t (PyStr.split "|" spec) ->
    (2 <= count_char "-" t)%nat ->
    resolve entire_x spec = Raise ValueError.
Proof.
  intros entire_x spec t Hin Hcount. unfold resolve.
  apply (resolve_ranges_bad_token _ _ _ t ValueError Hin).
  unfold resolve_token.
  assert (H1 : PyStr.has_char "-" t = true) by (apply has_char_count; lia).
  rewrite H1.
  pose proof (split_length "-" t) as Hlen.
  destruct (PyStr.split "-" t) as [|a [|b [|c l]]]; simpl in Hlen;
    try lia; reflexivity.
Qed.

Lemma resolve_two_dashes_witness :
  resolve Sample.time "1-2|-3-5" = Raise ValueError.
Proof.
  apply (resolve_two_dashes _ _ "-3-5").
  - simpl. right. now left.
  - simpl. lia.
Defined.

(** ** BaselineEstimator *)

Lemma denotesb_eqb (k : token) (t t' : float) :
  eqb t t' = true -> denotesb k t' = denotesb k t.
Proof.
  destruct t as [|q], t' as [|q']; try discriminate.
  intros H. apply eqb_Fin in H.
  destruct k as [p | a b]; unfold denotesb, eqb, ge, le, of_Z; simpl;
    now rewrite H.
Qed.

Lemma denotesb_Fin (k : token) (t : float) :
  denotesb k t = true -> eqb t t = true.
Proof.
  intros H. apply denotesb_spec in H.
  destruct t as [|q]; [now destruct k|].
  apply eqb_Fin. reflexivity.
Qed.

(** [isin] of the resolved time points is the mask of the denoted times. *)
Lemma isin_resolved (entire_x : list float) (toks : list token) :
  Np.isin entire_x
          (flat_map (fun k => filter (denotesb k) entire_x) toks)
  = denoted_mask toks entire_x.
Proof.
  unfold Np.isin, denoted_mask. apply map_ext_in. intros t Hx.
  apply eq_true_iff_eq. rewrite !existsb_exists. split.
  - intros (t' & Hin & Heq). apply in_flat_map in Hin as (k & Hk & Ht').
    apply filter_In in Ht' as [_ Hd]. exists k. split; [exact Hk|].
    now rewrite <- (denotesb_eqb k t t' Heq).
  - intros (k & Hk & Hd). exists t. split.
    + apply in_flat_map. exists k. split; [exact Hk|].
      apply filter_In. now split.
    + now apply (denotesb_Fin k).
Qed.

Lemma basal_render (entire_x entire_y : list float) (tok : token)
    (toks : list token) :
  parse_basal_secretion entire_x entire_y (render_spec (tok :: toks))
  = Ok (Np.mean (Np.select (denoted_mask (tok :: toks) entire_x) entire_y)).
Proof.
  unfold parse_basal_secretion.
  rewrite resolve_render. unfold bind. now rewrite isin_resolved.
Qed.

(** X3.  For a well-formed specification, the basal secretion is the
    mean of the samples whose time is denoted by at least one token;
    a sample denoted by several overlapping tokens is counted once. *)
Theorem basal_of_denoted_samples :
  forall (entire_x entire_y : list float) (tok : token) (toks : list token),
    parse_basal_secretion entire_x entire_y (render_spec (tok :: toks))
    = Ok (Np.mean (Np.select (denoted_mask (tok :: toks) entire_x) entire_y)).
Proof. exact basal_render. Qed.

Lemma select_none {A} (mask : list bool) (values : list A) :
  Forall (fun b => b = false) mask -> Np.select mask values = [].
Proof.
  revert values. induction mask as [|b mask IH]; intros values H; simpl;
    [reflexivity|].
  destruct values as [|v values]; [reflexivity|].
  inversion H; subst. now apply IH.
Qed.

Lemma select_all {A} (mask : list bool) (values : list A) :
  Forall (fun b => b = true) mask ->
  List.length mask = List.length values ->
  Np.select mask values = values.
Proof.
  revert values. induction mask as [|b mask IH]; intros values H Hlen;
    destruct values as [|v values]; simpl in *; try discriminate;
    [reflexivity|].
  inversion H; subst. f_equal. apply IH; [assumption | lia].
Qed.

(** X4.  When no time of the axis is denoted by any token, the basal
    secretion is NaN: the empty selection is not an error. *)
Theorem basal_of_empty_selection :
  forall (entire_x entire_y : list float) (tok : token) (toks : list token),
    (forall t k, In t entire_x -> In k (tok :: toks) -> ~ denotes k t) ->
    parse_basal_secretion entire_x entire_y (render_spec (tok :: toks))
    = Ok NaN.
Proof.
  intros entire_x entire_y tok toks Hnone.
  rewrite basal_render. rewrite select_none; [reflexivity|].
  unfold denoted_mask. apply Forall_map, Forall_forall. intros t Ht.
  destruct (existsb _ _) eqn:E; [|reflexivity].
  apply existsb_exists in E as (k & Hk & Hd).
  apply denotesb_spec in Hd. exfalso. now apply (Hnone t k).
Qed.

Lemma basal_of_empty_selection_witness :
  parse_basal_secretion Sample.time Sample.donor1
    (render_spec [Interval 20 30; Point 9])
  = Ok NaN.
Proof.
  apply basal_of_empty_selection.
  intros t k Ht Hk Hd. apply denotesb_spec in Hd.
  simpl in Ht, Hk.
  destruct Hk as [<- | [<- | []]];
    repeat (destruct Ht as [<- | Ht]; [discriminate|]); exact Ht.
Defined.

(** X5.  When the interval "a-b" covers every time of the axis, the
    basal secretion is the mean of the whole series. *)
Theorem basal_of_whole_axis :
  forall (entire_x entire_y : list float) (a b : N),
    List.length entire_x = List.length entire_y ->
    (forall t, In t entire_x -> denotes (Interval a b) t) ->
    parse_basal_secretion entire_x entire_y (render_spec [Interval a b])
    = Ok (Np.mean entire_y).
Proof.
  intros entire_x entire_y a b Hlen Hall.
  rewrite basal_render. rewrite select_all; [reflexivity | |].
  - unfold denoted_mask. apply Forall_map, Forall_forall. intros t Ht.
    change (denotesb (Interval a b) t || false = true).
    rewrite orb_false_r. apply denotesb_spec. now apply Hall.
  - unfold denoted_mask. now rewrite length_map.
Qed.

Lemma basal_of_whole_axis_witness :
  parse_basal_secretion Sample.time Sample.donor1 "1-7"
  = Ok (Np.mean Sample.donor1).
Proof.
  apply (basal_of_whole_axis Sample.time Sample.donor1 1 7).
  - reflexivity.
  - intros t Ht. apply denotesb_spec. simpl in Ht.
    repeat (destruct Ht as [<- | Ht]; [reflexivity|]). contradiction.
Defined.

(** ** RegionExtractor *)

(** X7.  For a peak range "a-b", the extractor returns the axis times
    lying in [a,b] in axis order, the samples at those times corrected
    by the baseline, and a baseline that is exactly the basal secretion
    [parse_basal_secretion] computes for the baseline specification; it
    raises exactly when that computation raises. *)
Theorem region_of_interval :
  forall (entire_x entire_y : list float) (a b : N) (baseline_points : string)
         (negative_peak : bool),
    parse_peak_and_baseline_region entire_x entire_y
      (render_token (Interval a b)) baseline_points negative_peak
    = (y_baseline <-
         parse_basal_secretion entire_x entire_y baseline_points ;;
       Ok (filter (denotesb (Interval a b)) entire_x,
           map (fun v => if negative_peak then sub y_baseline v
                         else sub v y_baseline)
               (Np.select (map (denotesb (Interval a b)) entire_x) entire_y),
           y_baseline)).
Proof.
  intros entire_x entire_y a b baseline_points negative_peak.
  unfold parse_peak_and_baseline_region, parse_basal_secretion.
  destruct (resolve entire_x baseline_points) as [pts|e]; [|reflexivity].
  unfold bind at 1 3 4. simpl render_token.
  rewrite split_app_sep by now apply str_no_char.
  rewrite split_no_sep by now apply str_no_char.
  rewrite !int_str. unfold bind, Np.between.
  rewrite select_map_filter. now destruct negative_peak.
Qed.

Lemma select_length {A B} (f : A -> bool) (xs : list A) (ys : list B) :
  List.length xs = List.length ys ->
  List.length (Np.select (map f xs) xs)
  = List.length (Np.select (map f xs) ys).
Proof.
  revert ys. induction xs as [|a xs IH]; intros [|b ys] Hlen;
    simpl in *; try discriminate; [reflexivity|].
  destruct (f a); simpl; rewrite (IH ys); auto.
Qed.

(** X8.  On a table whose time column and donor column have the same
    length, the windowed time points and the corrected values returned
    by the extractor have the same length, whatever the range strings. *)
Theorem region_lengths_agree :
  forall (entire_x entire_y : list float) (peak_range baseline_points : string)
         (negative_peak : bool) (x_curve corrected_curve : list float)
         (y_baseline : float),
    List.length entire_x = List.length entire_y ->
    parse_peak_and_baseline_region entire_x entire_y peak_range
      baseline_points negative_peak
    = Ok (x_curve, corrected_curve, y_baseline) ->
    List.length x_curve = List.length corrected_curve.
Proof.
  intros entire_x entire_y peak_range baseline_points negative_peak
         x_curve corrected_curve y_baseline Hlen.
  unfold parse_peak_and_baseline_region.
  destruct (resolve entire_x baseline_points) as [pts|]; [|discriminate].
  simpl.
  destruct (PyStr.split "-" peak_range) as [|start [|end_ [|? ?]]];
    try discriminate.
  destruct (PyStr.int start) as [lo|]; [|discriminate]. simpl.
  destruct (PyStr.int end_) as [hi|]; [|discriminate]. simpl.
  intros [= <- <- <-]. unfold Np.between.
  rewrite (select_length _ entire_x entire_y Hlen).
  destruct negative_peak; now rewrite length_map.
Qed.

Lemma region_lengths_agree_witness :
  exists x_curve corrected_curve y_baseline,
    parse_peak_and_baseline_region Sample.time Sample.donor1 "3-7" "1-2" true
    = Ok (x_curve, corrected_curve, y_baseline)
    /\ List.length x_curve = List.length corrected_curve.
Proof.
  assert (Hok : exists r,
             parse_peak_and_baseline_region Sample.time Sample.donor1
               "3-7" "1-2" true = Ok r) by (eexists; vm_compute; reflexivity).
  destruct Hok as ([[x_curve corrected_curve] y_baseline] & Hok).
  exists x_curve, corrected_curve, y_baseline. split; [exact Hok|].
  apply (region_lengths_agree Sample.time Sample.donor1 _ _ _ _ _ _
                              eq_refl Hok).
Defined.

Lemma sub_mirror (u v : float) : same (sub u v) (sub (Fin 0) (sub v u)).
Proof.
  destruct u as [|p], v as [|q]; simpl; try exact I. ring.
Qed.

(** X9.  Switching [negative_peak] changes neither the window nor the
    baseline, and mirrors the corrected curve: each corrected value of
    the negative-peak extraction is the opposite of the corresponding
    value of the positive-peak extraction. *)
Theorem region_negative_is_mirror :
  forall (entire_x entire_y : list float) (peak_range baseline_points : string)
         (x_curve corrected_curve : list float) (y_baseline : float),
    parse_peak_and_baseline_region entire_x entire_y peak_range
      baseline_points false
    = Ok (x_curve, corrected_curve, y_baseline) ->
    exists mirrored,
      parse_peak_and_baseline_region entire_x entire_y peak_range
        baseline_points true
      = Ok (x_curve, mirrored, y_baseline)
      /\ Forall2 (fun v w => same w (sub (Fin 0) v)) corrected_curve mirrored.
Proof.
  intros entire_x entire_y peak_range baseline_points x_curve corrected_curve
         y_baseline.
  unfold parse_peak_and_baseline_region.
  destruct (resolve entire_x baseline_points) as [pts|]; [|discriminate].
  simpl.
  destruct (PyStr.split "-" peak_range) as [|start [|end_ [|? ?]]];
    try discriminate.
  destruct (PyStr.int start) as [lo|]; [|discriminate]. simpl.
  destruct (PyStr.int end_) as [hi|]; [|discriminate]. simpl.
  intros [= <- <- <-]. eexists. split; [reflexivity|].
  induction (Np.select (Np.between lo hi entire_x) entire_y) as [|v l IH];
    simpl; constructor; [apply sub_mirror | exact IH].
Qed.

Lemma region_negative_is_mirror_witness :
  exists x_curve mirrored y_baseline,
    parse_peak_and_baseline_region Sample.time Sample.donor1 "3-7" "1-2" true
    = Ok (x_curve, mirrored, y_baseline)
    /\ List.length mirrored = 5%nat.
Proof.
  assert (Hok : exists r,
             parse_peak_and_baseline_region Sample.time Sample.donor1
               "3-7" "1-2" false = Ok r) by (eexists; vm_compute; reflexivity).
  destruct Hok as ([[x_curve corrected_curve] y_baseline] & Hok).
  destruct (region_negative_is_mirror _ _ _ _ _ _ _ Hok)
    as (mirrored & Hneg & Hall).
  exists x_curve, mirrored, y_baseline. split; [exact Hneg|].
  vm_compute in Hneg. now injection Hneg as _ <- _.
Defined.

Lemma int_ok_digits (s : string) (z : Z) :
  PyStr.int s = Ok z -> digits_only s = true.
Proof.
  unfold PyStr.int.
  destruct (NilZero.uint_of_string s) as [d|] eqn:E; [|discriminate].
  intros _. apply NilZero.sus in E. subst s.
  unfold NilZero.string_of_uint.
  destruct d; try reflexivity;
    match goal with
    | |- digits_only (NilEmpty.string_of_uint ?u) = true =>
        apply (digits_of_uint u)
    end.
Qed.

Lemma split_has_char (sep c : ascii) (s : string) :
  c <> sep -> PyStr.has_char c s = true ->
  exists part, In part (PyStr.split sep s) /\ PyStr.has_char c part = true.
Proof.
  intros Hne. induction s as [|a s IH]; simpl; [discriminate|].
  intros H. destruct (Ascii.eqb_spec a sep) as [-> | Hsep].
  - destruct (Ascii.eqb_spec sep c) as [E | _]; [congruence|].
    simpl in H. destruct (IH H) as (part & Hin & Hc).
    exists part. split; [now right | exact Hc].
  - pose proof (split_cons_nonempty sep s) as Hnil.
    destruct (PyStr.split sep s) as [|piece rest]; [congruence|].
    apply orb_true_iff in H as [Ha | Hs].
    + exists (String a piece). split; [now left|]. simpl. now rewrite Ha.
    + destruct (IH Hs) as (part & [<- | Hin] & Hc).
      * exists (String a piece). split; [now left|].
        simpl. rewrite Hc. apply orb_true_r.
      * exists part. split; [now right | exact Hc].
Qed.

(** X10.  The peak range must be one interval: a peak range without '-'
    (a single point such as "30") or with a '|' (a union such as
    "3-9|30") makes the extractor raise ValueError. *)
Theorem peak_range_must_be_interval :
  forall (entire_x entire_y : list float) (peak_range baseline_points : string)
         (negative_peak : bool),
    PyStr.has_char "-" peak_range = false
    \/ PyStr.has_char "|" peak_range = true ->
    parse_peak_and_baseline_region entire_x entire_y peak_range
      baseline_points negative_peak
    = Raise ValueError.
Proof.
  intros entire_x entire_y peak_range baseline_points negative_peak Hbad.
  unfold parse_peak_and_baseline_region.
  destruct (resolve entire_x baseline_points) as [pts|e] eqn:Er;
    [|simpl; f_equal; eauto using resolve_exn].
  simpl. destruct Hbad as [Hdash | Hbar].
  - now rewrite split_no_sep.
  - destruct (split_has_char "-" "|" peak_range ltac:(discriminate) Hbar)
      as (part & Hin & Hpart).
    destruct (PyStr.split "-" peak_range) as [|start [|end_ [|? ?]]];
      try reflexivity.
    assert (Hint : forall z, PyStr.int part <> Ok z).
    { intros z Hz. apply int_ok_digits in Hz.
      rewrite (digits_no_char "|" part) in Hpart by (reflexivity || exact Hz).
      discriminate. }
    destruct (PyStr.int start) as [lo|e1] eqn:E1; simpl.
    + destruct (PyStr.int end_) as [hi|e2] eqn:E2; simpl.
      * exfalso. destruct Hin as [<- | [<- | []]];
          [apply (Hint lo E1) | apply (Hint hi E2)].
      * f_equal. eauto using int_exn.
    + f_equal. eauto using int_exn.
Qed.

Lemma peak_range_must_be_interval_witness :
  parse_peak_and_baseline_region Sample.time Sample.donor1 "3-9|30" "1-2" false
  = Raise ValueError.
Proof.
  apply peak_range_must_be_interval. right. reflexivity.
Defined.

(** ** PeakIntegrator: flat curves and the order of the peaks *)

Lemma above_of_values (y : list float) :
  Forall (fun v => gt v FLOAT_TOLERANCE = false) y ->
  forall i, above y i = false.
Proof.
  intros Hflat i. unfold above, at_.
  destruct (Nat.lt_ge_cases i (List.length y)) as [Hlt | Hge].
  - rewrite Forall_forall in Hflat. apply Hflat. now apply nth_In.
  - now rewrite nth_overflow.
Qed.

(** X11.  A flat corrected curve (no sample above the tolerance, NaN
    included) yields no peak, a zero count, a zero total area and a zero
    maximum height, for every time axis and every pair of thresholds. *)
Theorem flat_curve_has_no_peak :
  forall (x_curve y : list float) (y_baseline min_height_ratio : float)
         (min_peak_length : Z),
    Forall (fun v => gt v FLOAT_TOLERANCE = false) y ->
    AUC_from_a_region x_curve y y_baseline min_height_ratio min_peak_length
    = (mkSummary 0 (Fin 0) y_baseline (Fin 0), []).
Proof.
  intros x_curve y y_baseline min_height_ratio min_peak_length Hflat.
  unfold AUC_from_a_region.
  destruct (find_peak_regions y min_peak_length) as [|[s e] regions] eqn:E;
    [reflexivity|].
  assert (Hin : In (s, e) (find_peak_regions y min_peak_length))
    by (rewrite E; now left).
  apply find_peak_regions_spec in Hin as [(Hse & Habove & _) _].
  specialize (Habove s ltac:(lia)).
  rewrite (above_of_values y Hflat) in Habove. discriminate.
Qed.

Lemma flat_curve_has_no_peak_witness :
  AUC_from_a_region Sample.time
    [Fin 0; Fin (1 # 100000); NaN; Fin (-3); Fin 0; Fin 0; Fin 0]
    (Fin 1) (Fin (1 # 10)) 1
  = (mkSummary 0 (Fin 0) (Fin 1) (Fin 0), []).
Proof.
  apply flat_curve_has_no_peak. repeat constructor.
Defined.

Lemma ascending_snoc (regions : list (nat * nat)) (r : nat * nat) :
  ascending regions ->
  Forall (fun r0 => (snd r0 + 1 < fst r)%nat) regions ->
  ascending (regions ++ [r]).
Proof.
  induction regions as [|r0 regions IH]; simpl.
  - intros _ _. split; [constructor | exact I].
  - intros [H0 Hrest] Hall. inversion Hall as [|? ? Hr0 Hall']; subst.
    split; [|now apply IH].
    apply Forall_app. split; [exact H0 | now repeat constructor].
Qed.

Lemma ascending_filter (keep : nat * nat -> bool) (regions : list (nat * nat)) :
  ascending regions -> ascending (filter keep regions).
Proof.
  induction regions as [|r regions IH]; simpl; [trivial|].
  intros [H0 Hrest]. destruct (keep r); simpl; [|now apply IH].
  split; [|now apply IH].
  apply Forall_forall. intros r' Hin. apply filter_In in Hin as [Hin _].
  rewrite Forall_forall in H0. now apply H0.
Qed.

Section ScanOrder.

Variable y : list float.
Variable min_peak_length : Z.

Lemma scan_order_step (n : nat) (st : scan_state) :
  scan_inv y min_peak_length n st ->
  scan_order st ->
  scan_order (scan_step y min_peak_length st n).
Proof.
  destruct st as [ps regs]. unfold scan_inv, scan_order, scan_step; simpl.
  intros (Hps & Hregs & _) (Hasc & Hopen).
  destruct (gt (at_ y n) FLOAT_TOLERANCE).
  - destruct ps as [s|]; simpl; [now split|].
    split; [exact Hasc|].
    apply Forall_forall. intros [s e] Hin. apply Hregs in Hin.
    destruct Hin as (_ & Hlt & _). exact Hlt.
  - destruct ps as [s|]; simpl; [|now split].
    split; [|exact I].
    destruct (min_peak_length <=? Z.of_nat n - Z.of_nat s)%Z; [|exact Hasc].
    now apply ascending_snoc.
Qed.

Lemma scan_order_all (n : nat) :
  scan_order (fold_left (scan_step y min_peak_length) (seq 0 n) (None, [])).
Proof.
  induction n as [|n IH]; [now split|].
  rewrite seq_S, fold_left_app. simpl.
  apply scan_order_step; [apply scan_inv_all | exact IH].
Qed.

Lemma find_peak_regions_ascending :
  ascending (find_peak_regions y min_peak_length).
Proof.
  unfold find_peak_regions.
  pose proof (scan_order_all (List.length y)) as Hord.
  destruct (fold_left _ _ _) as [ps regs]. destruct Hord as [Hasc Hopen].
  simpl in *. destruct ps as [s|]; [|exact Hasc].
  destruct (_ <=? _)%Z; [|exact Hasc]. now apply ascending_snoc.
Qed.

End ScanOrder.

(** X12.  The regions that survive both filters come in ascending
    order and never overlap or touch: between the end of one and the
    start of the next lies at least one sample.  The emitted peaks are
    these regions in that order. *)
Theorem peaks_in_ascending_order :
  forall (x_curve y : list float) (y_baseline min_height_ratio : float)
         (min_peak_length : Z),
    ascending (surviving_regions y min_height_ratio min_peak_length)
    /\ snd (AUC_from_a_region x_curve y y_baseline min_height_ratio
                              min_peak_length)
       = map (peak_of x_curve y y_baseline)
             (surviving_regions y min_height_ratio min_peak_length).
Proof.
  intros x_curve y y_baseline min_height_ratio min_peak_length. split.
  - apply ascending_filter, find_peak_regions_ascending.
  - now rewrite AUC_from_a_region_eq.
Qed.

(** ** PeakIntegrator: height and location of a peak *)

Lemma skipn_cons_at (l : list float) (i : nat) (a : float)
    (rest : list float) :
  skipn i l = a :: rest ->
  at_ l i = a /\ skipn (S i) l = rest /\ (i < List.length l)%nat.
Proof.
  revert l. induction i as [|i IH]; intros [|a0 l]; simpl; try discriminate.
  - intros [= -> ->]. repeat split. lia.
  - intros H. destruct (IH l H) as (H1 & H2 & H3).
    repeat split; [exact H1 | exact H2 | lia].
Qed.

Lemma skipn_nil_length (l : list float) (i : nat) :
  skipn i l = [] -> (List.length l <= i)%nat.
Proof.
  revert l. induction i as [|i IH]; intros [|a0 l]; simpl; try discriminate;
    try lia.
  intros H. specialize (IH l H). lia.
Qed.

Lemma at_Fin_inside (l : list float) (i : nat) (q : Q) :
  at_ l i = Fin q -> (i < List.length l)%nat.
Proof.
  unfold at_. intros H.
  destruct (Nat.lt_ge_cases i (List.length l)) as [|Hge]; [assumption|].
  rewrite nth_overflow in H by exact Hge. discriminate.
Qed.

(** The running argmax and the running maximum agree: the index kept is
    the first one that holds the largest value. *)
Lemma argmax_from_spec (rest l : list float) :
  forall (i best_i : nat) (b : Q),
    skipn i l = rest -> (best_i < i)%nat -> at_ l best_i = Fin b ->
    (forall j, (j < i)%nat -> exists q, at_ l j = Fin q /\ q <= b) ->
    (forall j, (j < best_i)%nat -> exists q, at_ l j = Fin q /\ q < b) ->
    Forall (fun a => is_nan a = false) rest ->
    exists h,
      at_ l (Np.argmax_from best_i (Fin b) i rest) = Fin h
      /\ fold_left Np.max2 rest (Fin b) = Fin h
      /\ (forall j, (j < List.length l)%nat ->
                    exists q, at_ l j = Fin q /\ q <= h)
      /\ (forall j, (j < Np.argmax_from best_i (Fin b) i rest)%nat ->
                    exists q, at_ l j = Fin q /\ q < h).
Proof.
  induction rest as [|a rest IH]; intros i best_i b Hskip Hbi Hbest Hle Hlt Hfin.
  - simpl. exists b. split; [exact Hbest|]. split; [reflexivity|].
    split; [|exact Hlt].
    intros j Hj. apply Hle. apply skipn_nil_length in Hskip. lia.
  - destruct (skipn_cons_at l i a rest Hskip) as (Ha & Hskip' & Hi).
    inversion Hfin as [|? ? Hna Hfin']; subst a.
    destruct (at_ l i) as [|qa] eqn:Eqa; [discriminate|].
    simpl Np.argmax_from. simpl fold_left.
    rewrite orb_false_r.
    change (negb (Qle_bool qa b)) with (gt (Fin qa) (Fin b)).
    destruct (gt (Fin qa) (Fin b)) eqn:Hgt.
    + apply gt_Fin in Hgt.
      apply (IH (S i) i qa Hskip'); [lia | exact Eqa | | | exact Hfin'].
      * intros j Hj. destruct (Nat.eq_dec j i) as [-> | Hne].
        -- exists qa. split; [exact Eqa | apply Qle_refl].
        -- destruct (Hle j ltac:(lia)) as (q & Hq & Hqb).
           exists q. split; [exact Hq|].
           apply Qle_trans with b; [exact Hqb | now apply Qlt_le_weak].
      * intros j Hj. destruct (Hle j Hj) as (q & Hq & Hqb).
        exists q. split; [exact Hq|]. now apply Qle_lt_trans with b.
    + apply gt_Fin_false in Hgt.
      apply (IH (S i) best_i b Hskip'); [lia | exact Hbest | | exact Hlt
                                         | exact Hfin'].
      intros j Hj. destruct (Nat.eq_dec j i) as [-> | Hne].
      * exists qa. split; [exact Eqa | exact Hgt].
      * apply Hle. lia.
Qed.

Lemma at_map_seq (y : list float) (s n j : nat) :
  (j < n)%nat -> at_ (map (at_ y) (seq s n)) j = at_ y (s + j).
Proof.
  intros Hj. unfold at_ at 1.
  rewrite (nth_indep _ NaN (at_ y 0)) by now rewrite length_map, length_seq.
  rewrite map_nth, seq_nth by exact Hj. reflexivity.
Qed.

Lemma peak_of_spec :
  forall (x_curve y : list float) (y_baseline ratio : float)
         (min_peak_length : Z) (s e : nat),
    In (s, e) (surviving_regions y ratio min_peak_length) ->
    let p := peak_of x_curve y y_baseline (s, e) in
    exists i h,
      (s <= i <= e)%nat
      /\ peak_x p = at_ x_curve i
      /\ peak_y p = Fin h
      /\ at_ y i = Fin h
      /\ 1 # 100000 < h
      /\ is_max_on y s e h
      /\ forall j, (s <= j < i)%nat -> exists q, at_ y j = Fin q /\ q < h.
Proof.
  intros x_curve y y_baseline ratio min_peak_length s e Hin p.
  apply surviving_iff in Hin as [Hreg _].
  apply find_peak_regions_spec in Hreg as [((Hse & He) & Habove & _) _].
  assert (Hfin : forall i, (s <= i <= e)%nat -> is_nan (at_ y i) = false).
  { intros i Hi. specialize (Habove i Hi). unfold above in Habove.
    apply gt_is_Fin in Habove as (v & ? & -> & _). reflexivity. }
  subst p. unfold peak_of.
  destruct (left_boundary _ _ _ _) as [peak_st auc1].
  destruct (right_boundary _ _ _ _) as [peak_ed auc2]. simpl.
  unfold Np.slice. rewrite slice_as_map by lia.
  replace (e + 1 - s)%nat with (S (e - s)) by lia.
  set (l := map (at_ y) (seq s (S (e - s)))).
  assert (Hl : forall j, (j <= e - s)%nat -> at_ l j = at_ y (s + j))
    by (intros j Hj; apply at_map_seq; lia).
  assert (Hlen : List.length l = S (e - s))
    by (unfold l; now rewrite length_map, length_seq).
  destruct (at_ y s) as [|q0] eqn:E0.
  { specialize (Hfin s ltac:(lia)). rewrite E0 in Hfin. discriminate. }
  assert (El : l = Fin q0 :: map (at_ y) (seq (S s) (e - s)))
    by (unfold l; simpl; now rewrite E0).
  assert (Hrest : Forall (fun a => is_nan a = false)
                         (map (at_ y) (seq (S s) (e - s)))).
  { apply Forall_map, Forall_forall. intros i Hi. apply in_seq in Hi.
    apply Hfin. lia. }
  destruct (argmax_from_spec (map (at_ y) (seq (S s) (e - s))) l 1 0 q0)
    as (h & Hat & Hmax & Hall & Hfirst).
  - now rewrite El.
  - lia.
  - now rewrite El.
  - intros j Hj. assert (j = 0%nat) by lia. subst j. exists q0.
    split; [now rewrite El | apply Qle_refl].
  - intros j Hj. lia.
  - exact Hrest.
  - rewrite El. simpl Np.argmax. simpl Np.max_of.
    set (k := Np.argmax_from 0 (Fin q0) 1 _) in *.
    assert (Hk : (k <= e - s)%nat).
    { apply at_Fin_inside in Hat. lia. }
    exists (k + s)%nat, h. split; [lia|]. split; [reflexivity|].
    split; [exact Hmax|].
    assert (Eh : at_ y (k + s) = Fin h).
    { rewrite Nat.add_comm, <- Hl by exact Hk. exact Hat. }
    split; [exact Eh|]. split.
    + specialize (Habove (k + s)%nat ltac:(lia)). unfold above in Habove.
      rewrite Eh in Habove. now apply gt_Fin in Habove.
    + split.
      * split.
        -- exists (k + s)%nat. split; [lia | exact Eh].
        -- intros i Hi. destruct (Hall (i - s)%nat ltac:(lia)) as (q & Hq & Hqh).
           exists q. split; [|exact Hqh].
           rewrite Hl in Hq by lia. now replace (s + (i - s))%nat with i in Hq by lia.
      * intros j Hj. destruct (Hfirst (j - s)%nat ltac:(lia)) as (q & Hq & Hqh).
        exists q. split; [|exact Hqh].
        rewrite Hl in Hq by lia. now replace (s + (j - s))%nat with j in Hq by lia.
Qed.

(** X13.  For every surviving run [s..e], the emitted peak height is
    the largest sample of the run, it exceeds the tolerance, and the
    peak time is the time of the first sample of the run that reaches
    this height. *)
Theorem peak_height_and_location :
  forall (x_curve y : list float) (y_baseline ratio : float)
         (min_peak_length : Z) (s e : nat),
    In (s, e) (surviving_regions y ratio min_peak_length) ->
    let p := peak_of x_curve y y_baseline (s, e) in
    exists i h,
      (s <= i <= e)%nat
      /\ peak_x p = at_ x_curve i
      /\ peak_y p = Fin h
      /\ at_ y i = Fin h
      /\ 1 # 100000 < h
      /\ is_max_on y s e h
      /\ forall j, (s <= j < i)%nat -> exists q, at_ y j = Fin q /\ q < h.
Proof. exact peak_of_spec. Qed.

Lemma peak_height_and_location_witness :
  let x := map of_Z [10; 20; 30; 40; 50; 60; 70]%Z in
  let y := map of_Z [0; 0; 1; 2; 2; 0; 0]%Z in
  let p := peak_of x y (Fin 0) (2, 4)%nat in
  exists i h,
    (2 <= i <= 4)%nat
    /\ peak_x p = at_ x i
    /\ peak_y p = Fin h
    /\ at_ y i = Fin h
    /\ 1 # 100000 < h
    /\ is_max_on y 2 4 h
    /\ forall j, (2 <= j < i)%nat -> exists q, at_ y j = Fin q /\ q < h.
Proof.
  cbv zeta.
  apply (peak_height_and_location
           (map of_Z [10; 20; 30; 40; 50; 60; 70]%Z)
           (map of_Z [0; 0; 1; 2; 2; 0; 0]%Z)
           (Fin 0) (Fin (1 # 10)) 3 2 4).
  vm_compute. left. reflexivity.
Defined.

(** ** PeakIntegrator: the summary *)

Lemma peak_of_height (x_curve y : list float) (y_baseline : float)
    (region : nat * nat) :
  peak_y (peak_of x_curve y y_baseline region) = region_height y region.
Proof.
  destruct region as [s e]. unfold peak_of, region_height.
  destruct (left_boundary _ _ _ _) as [peak_st auc1].
  destruct (right_boundary _ _ _ _) as [peak_ed auc2]. reflexivity.
Qed.

Lemma surviving_height (y : list float) (ratio : float) (min_peak_length : Z)
    (region : nat * nat) :
  In region (surviving_regions y ratio min_peak_length) ->
  exists h, region_height y region = Fin h /\ 1 # 100000 < h.
Proof.
  destruct region as [s e]. intros Hin.
  apply surviving_iff in Hin as [Hreg _].
  apply find_peak_regions_spec in Hreg as [Hrun _].
  destruct (region_height_spec y s e Hrun) as (h & Hh & (i & Hi & Ei) & _).
  exists h. split; [exact Hh|].
  destruct Hrun as (_ & Habove & _). specialize (Habove i Hi).
  unfold above in Habove. rewrite Ei in Habove. now apply gt_Fin in Habove.
Qed.

(** X14.  In the returned pair, the count is the number of peaks and the
    baseline is passed through; the maximum height is the height of the
    tallest emitted peak, and it is 0 (with a zero area) exactly when no
    peak was emitted. *)
Theorem summary_of_peaks :
  forall (x_curve y : list float) (y_baseline ratio : float)
         (min_peak_length : Z),
    let summary :=
      fst (AUC_from_a_region x_curve y y_baseline ratio min_peak_length) in
    let peaks :=
      snd (AUC_from_a_region x_curve y y_baseline ratio min_peak_length) in
    N_peaks summary = List.length peaks
    /\ baseline summary = y_baseline
    /\ (peaks = [] ->
        max_height summary = Fin 0 /\ total_area summary = Fin 0)
    /\ (peaks <> [] ->
        exists p, In p peaks /\ max_height summary = peak_y p)
    /\ (forall p, In p peaks -> le (peak_y p) (max_height summary) = true).
Proof.
  intros x_curve y y_baseline ratio min_peak_length.
  rewrite AUC_from_a_region_eq. cbv zeta. simpl fst. simpl snd.
  set (peaks := map (peak_of x_curve y y_baseline)
                    (surviving_regions y ratio min_peak_length)).
  assert (Hpos : forall p, In p peaks ->
                           exists h, peak_y p = Fin h /\ 1 # 100000 < h).
  { intros p Hp. apply in_map_iff in Hp as (region & <- & Hreg).
    rewrite peak_of_height. eauto using surviving_height. }
  assert (Hfin : Forall (fun a => is_nan a = false) (map peak_y peaks)).
  { apply Forall_map, Forall_forall. intros p Hp.
    destruct (Hpos p Hp) as (h & -> & _). reflexivity. }
  destruct (builtin_max_spec (map peak_y peaks) 0 Hfin) as (m & Hm & Hin & Hmax).
  change (Np.builtin_max_from (Fin 0) (map peak_y peaks))
    with (max_height (summarize y_baseline peaks)) in Hm.
  split; [reflexivity|]. split; [reflexivity|]. split; [|split].
  - intros ->. split; reflexivity.
  - intros Hne. destruct Hin as [E | Hin].
    + exfalso. destruct peaks as [|p0 rest]; [congruence|].
      destruct (Hpos p0 ltac:(now left)) as (h & Hh & Hpos0).
      assert (Hle : h <= m) by (apply Hmax; right; left; exact Hh).
      injection E as E. rewrite <- E in Hle.
      apply (Qlt_not_le _ _ Hpos0). apply Qle_trans with 0; [exact Hle|].
      discriminate.
    + apply in_map_iff in Hin as (p & Hp & Hin).
      exists p. split; [exact Hin|]. now rewrite Hm, Hp.
  - intros p Hp. destruct (Hpos p Hp) as (h & Hh & _).
    rewrite Hm, Hh. apply le_Fin. apply Hmax. right.
    apply in_map_iff. exists p. now split.
Qed.

Lemma summary_of_peaks_witness :
  let summary := fst (AUC_from_a_region Sample.time
                        (map of_Z [0; 5; 0; 1; 1; 1; 0]%Z)
                        (Fin 0) (Fin (1 # 10)) 1) in
  N_peaks summary = 2%nat /\ max_height summary = Fin 5.
Proof.
  cbv zeta.
  pose proof (summary_of_peaks Sample.time (map of_Z [0; 5; 0; 1; 1; 1; 0]%Z)
                (Fin 0) (Fin (1 # 10)) 1) as H.
  cbv zeta in H. destruct H as (Hn & _ & _ & Hmax & _).
  split.
  - rewrite Hn. reflexivity.
  - vm_compute. reflexivity.
Defined.

(** ** PeakIntegrator: the two thresholds *)

Lemma above_Fin (y : list float) (i : nat) :
  above y i = true -> exists v, at_ y i = Fin v /\ 1 # 100000 < v.
Proof.
  unfold above. intros H. destruct (at_ y i) as [|v]; [discriminate|].
  exists v. split; [reflexivity | now apply gt_Fin in H].
Qed.

Lemma filter_all {A} (f : A -> bool) (l : list A) :
  (forall a, In a l -> f a = true) -> filter f l = l.
Proof.
  induction l as [|a l IH]; intros H; simpl; [reflexivity|].
  rewrite (H a ltac:(now left)). f_equal. apply IH.
  intros b Hb. apply H. now right.
Qed.

(** X16.  Raising [min_peak_length] only removes regions: every region
    that survives under the larger length survives under the smaller
    one, and the number of peaks does not grow. *)
Theorem raising_min_peak_length :
  forall (x_curve y : list float) (y_baseline ratio : float) (m m' : Z),
    (m <= m')%Z ->
    incl (surviving_regions y ratio m') (surviving_regions y ratio m)
    /\ (N_peaks (fst (AUC_from_a_region x_curve y y_baseline ratio m'))
        <= N_peaks (fst (AUC_from_a_region x_curve y y_baseline ratio m)))%nat.
Proof.
  intros x_curve y y_baseline ratio m m' Hm.
  assert (Hincl : incl (surviving_regions y ratio m')
                       (surviving_regions y ratio m)).
  { intros [s e] Hin. apply surviving_iff in Hin as [Hreg Hkeep].
    apply surviving_iff. split; [|exact Hkeep].
    apply find_peak_regions_spec in Hreg as [Hrun Hl].
    apply find_peak_regions_spec. split; [exact Hrun | lia]. }
  split; [exact Hincl|].
  rewrite !AUC_from_a_region_eq. simpl. rewrite !length_map.
  apply NoDup_incl_length; [|exact Hincl].
  apply NoDup_filter, find_peak_regions_NoDup.
Qed.

Lemma raising_min_peak_length_witness :
  (N_peaks (fst (AUC_from_a_region Sample.time
                   (map of_Z [0; 5; 0; 1; 1; 1; 0]%Z) (Fin 0) (Fin 0) 3))
   <= N_peaks (fst (AUC_from_a_region Sample.time
                      (map of_Z [0; 5; 0; 1; 1; 1; 0]%Z) (Fin 0) (Fin 0) 1)))%nat.
Proof.
  apply (raising_min_peak_length Sample.time
           (map of_Z [0; 5; 0; 1; 1; 1; 0]%Z) (Fin 0) (Fin 0) 1 3).
  lia.
Defined.

(** X17.  A [min_height_ratio] of zero switches the height filter off:
    every region that passed the length filter gives a peak, whatever
    the curve holds. *)
Theorem zero_ratio_keeps_every_region :
  forall (y : list float) (min_peak_length : Z) (ratio : Q),
    ratio == 0 ->
    surviving_regions y (Fin ratio) min_peak_length
    = find_peak_regions y min_peak_length.
Proof.
  intros y min_peak_length ratio Hr. unfold surviving_regions.
  apply filter_all. intros [s e] Hin. apply negb_true_iff.
  apply find_peak_regions_spec in Hin as [Hrun _].
  destruct (region_height_spec y s e Hrun) as (h & Hh & (i & Hi & Ei) & _).
  destruct Hrun as (_ & Habove & _).
  destruct (above_Fin y i (Habove i Hi)) as (v & Ev & Hv).
  rewrite Ei in Ev. injection Ev as <-.
  unfold rejected. rewrite Hh.
  destruct (max_curve_value y) as [|g]; [reflexivity|].
  change (F64.mul (Fin ratio) (Fin g)) with (Fin (F64.product ratio g)).
  destruct (lt (Fin h) (Fin (F64.product ratio g))) eqn:Hlt; [|reflexivity].
  apply lt_Fin in Hlt. rewrite (product_zero ratio g Hr) in Hlt. lra.
Qed.

Lemma zero_ratio_keeps_every_region_witness :
  surviving_regions (map of_Z [0; 5; 0; 1; 1; 1; 0]%Z) (Fin 0) 1
  = find_peak_regions (map of_Z [0; 5; 0; 1; 1; 1; 0]%Z) 1.
Proof.
  apply zero_ratio_keeps_every_region. reflexivity.
Defined.

Lemma max_on_unique (y : list float) (s e : nat) (h h' : Q) :
  is_max_on y s e h -> is_max_on y s e h' -> h == h'.
Proof.
  intros [(i & Hi & Ei) Hall] [(i' & Hi' & Ei') Hall'].
  destruct (Hall i' Hi') as (q & Eq & Hq). rewrite Ei' in Eq.
  injection Eq as <-.
  destruct (Hall' i Hi) as (q' & Eq' & Hq'). rewrite Ei in Eq'.
  injection Eq' as <-.
  now apply Qle_antisym.
Qed.

(** X18.  With a [min_height_ratio] of at most 1 on a curve without
    NaN, a length-qualifying run that holds a largest sample of the
    whole curve is never rejected. *)
Theorem tallest_run_survives :
  forall (y : list float) (min_peak_length : Z) (ratio g : Q) (s e i : nat),
    Np.hasnans y = false ->
    ratio <= 1 ->
    In (s, e) (find_peak_regions y min_peak_length) ->
    is_global_max y g ->
    (s <= i <= e)%nat -> at_ y i = Fin g ->
    In (s, e) (surviving_regions y (Fin ratio) min_peak_length).
Proof.
  intros y min_peak_length ratio g s e i Hnan Hr Hin Hg Hi Ei.
  apply surviving_iff. split; [exact Hin|].
  apply find_peak_regions_spec in Hin as [Hrun _].
  destruct (region_height_spec y s e Hrun) as (h & Hh & Hmax).
  destruct (max_curve_value_spec y Hnan) as (g0 & Eg0 & Hg0).
  pose proof Hrun as ((Hse & He) & Habove & _).
  destruct y as [|y0 y']; [simpl in He; lia|].
  unfold is_global_max in Hg, Hg0.
  pose proof (max_on_unique _ _ _ _ _ Hg Hg0) as Egg.
  destruct Hmax as [_ Hall]. destruct (Hall i Hi) as (q & Eq & Hq).
  rewrite Ei in Eq. injection Eq as <-.
  destruct (above_Fin _ i (Habove i Hi)) as (v & Ev & Hv).
  rewrite Ei in Ev. injection Ev as <-.
  unfold rejected. rewrite Hh, Eg0.
  change (F64.mul (Fin ratio) (Fin g0)) with (Fin (F64.product ratio g0)).
  destruct (lt (Fin h) (Fin (F64.product ratio g0))) eqn:Hlt; [|reflexivity].
  apply lt_Fin in Hlt. exfalso.
  assert (Hle : F64.product ratio g0 <= g0) by (apply product_le; lra).
  lra.
Qed.

Lemma tallest_run_survives_witness :
  In (1, 1)%nat
     (surviving_regions (map of_Z [0; 5; 0; 1; 1; 1; 0]%Z) (Fin 1) 1).
Proof.
  apply (tallest_run_survives (map of_Z [0; 5; 0; 1; 1; 1; 0]%Z) 1 1 5 1 1 1).
  - reflexivity.
  - discriminate.
  - left. reflexivity.
  - split.
    + exists 1%nat. split; [simpl; lia | reflexivity].
    + intros j Hj. simpl in Hj.
      assert (E : (j = 0 \/ j = 1 \/ j = 2 \/ j = 3 \/ j = 4 \/ j = 5
                   \/ j = 6)%nat) by lia.
      destruct E as [-> | [-> | [-> | [-> | [-> | [-> | ->]]]]]];
        eexists; (split; [reflexivity | discriminate]).
  - lia.
  - reflexivity.
Defined.

(** ** TraitOrchestrator: shape of the trait table *)

Lemma mapM_length {A B} (f : A -> result B) (l : list A) (bs : list B) :
  mapM f l = Ok bs -> List.length bs = List.length l.
Proof.
  intros H. apply mapM_ok in H.
  induction H; simpl; [reflexivity | now f_equal].
Qed.

Lemma keys_dict_set {V} (key : string) (v : V) (d : list (string * V)) :
  map fst (dict_set key v d) = add_key key (map fst d).
Proof.
  unfold add_key. induction d as [|[k w] d IH]; simpl; [reflexivity|].
  destruct (String.eqb k key) eqn:E; simpl; [reflexivity|].
  rewrite IH. now destruct (existsb _ (map fst d)).
Qed.

Lemma add_key_NoDup (key : string) (keys : list string) :
  NoDup keys -> NoDup (add_key key keys).
Proof.
  unfold add_key. intros Hnd.
  destruct (existsb _ keys) eqn:E; [exact Hnd|].
  apply NoDup_app; [exact Hnd | repeat constructor; intros [] |].
  intros k Hin [<- | []].
  assert (Hex : existsb (fun k0 => String.eqb k0 key) keys = true).
  { apply existsb_exists. exists key.
    split; [exact Hin | apply String.eqb_refl]. }
  congruence.
Qed.

Lemma fold_add_key_NoDup (names keys : list string) :
  NoDup keys -> NoDup (fold_left (fun ks k => add_key k ks) names keys).
Proof.
  revert keys. induction names as [|k names IH]; intros keys H; simpl;
    [exact H|].
  apply IH. now apply add_key_NoDup.
Qed.

Section TableShape.

Variable trait_prefix : string.
Variable time_x : list float.
Variable donors : list (string * list float).

Lemma phase_step_shape (tbl tbl' : DataFrame) (row : PhaseRow) :
  phase_step trait_prefix time_x donors tbl row = Ok tbl' ->
  map fst tbl'
  = fold_left (fun ks k => add_key k ks) (assigned_names trait_prefix row)
              (map fst tbl)
  /\ ((forall k c, In (k, c) tbl -> column_length c = List.length donors) ->
      forall k c, In (k, c) tbl' -> column_length c = List.length donors).
Proof.
  unfold phase_step, assigned_names. destruct (is_baseline row).
  - destruct (mapM (baseline_cell time_x row) donors) as [results|] eqn:E;
      [|discriminate].
    simpl. intros [= <-]. split; [apply keys_dict_set|].
    intros Hlen k c Hin.
    apply dict_set_In in Hin as [[= -> ->] | Hin]; [|now apply (Hlen k)].
    simpl. now apply mapM_length in E.
  - destruct (mapM (peak_cell time_x row) donors) as [cells|] eqn:E;
      [|discriminate].
    apply mapM_length in E.
    simpl. destruct (CalculateSIorII row); intros [= <-]; simpl.
    + split; [now rewrite !keys_dict_set|].
      intros Hlen k c Hin.
      apply dict_set_In in Hin as [[= -> ->] | Hin];
        [simpl; now rewrite length_map|].
      apply dict_set_In in Hin as [[= -> ->] | Hin];
        [simpl; now rewrite length_map | now apply (Hlen k)].
    + split; [now rewrite keys_dict_set|].
      intros Hlen k c Hin.
      apply dict_set_In in Hin as [[= -> ->] | Hin];
        [simpl; now rewrite length_map | now apply (Hlen k)].
Qed.

Lemma run_phases_shape (phases : list PhaseRow) (tbl tbl' : DataFrame) :
  run_phases trait_prefix time_x donors tbl phases = Ok tbl' ->
  map fst tbl'
  = fold_left (fun ks k => add_key k ks)
              (flat_map (assigned_names trait_prefix) phases) (map fst tbl)
  /\ ((forall k c, In (k, c) tbl -> column_length c = List.length donors) ->
      forall k c, In (k, c) tbl' -> column_length c = List.length donors).
Proof.
  revert tbl. induction phases as [|row phases IH]; intros tbl; simpl.
  - intros [= <-]. split; [reflexivity | trivial].
  - destruct (phase_step trait_prefix time_x donors tbl row) as [tbl1|] eqn:E;
      [|discriminate].
    simpl. intros Hrun.
    destruct (phase_step_shape tbl tbl1 row E) as [Hk1 Hl1].
    destruct (IH tbl1 Hrun) as [Hk Hl].
    split; [now rewrite Hk, Hk1, fold_left_app|].
    intros Hlen. apply Hl, Hl1, Hlen.
Qed.

(** With no complete donor, no range string is parsed and every phase
    goes through. *)
Lemma run_phases_incomplete (phases : list PhaseRow) (tbl : DataFrame) :
  (forall donor, In donor donors -> Np.hasnans (snd donor) = true) ->
  exists tbl', run_phases trait_prefix time_x donors tbl phases = Ok tbl'.
Proof.
  intros Hgap.
  assert (Hcells : forall {B} (f : string * list float -> result B) (na : B),
             (forall donor, Np.hasnans (snd donor) = true -> f donor = Ok na) ->
             exists bs, mapM f donors = Ok bs).
  { intros B f na Hf. induction donors as [|d ds IH]; simpl; [now eexists|].
    rewrite (Hf d (Hgap d ltac:(now left))). simpl.
    destruct IH as (bs & ->); [intros d' H; apply Hgap; now right|].
    simpl. now eexists. }
  revert tbl. induction phases as [|row phases IH]; intros tbl; simpl;
    [now eexists|].
  assert (Hstep : exists tbl1,
             phase_step trait_prefix time_x donors tbl row = Ok tbl1).
  { unfold phase_step. destruct (is_baseline row).
    - destruct (Hcells _ (baseline_cell time_x row) NA) as (bs & ->);
        [|simpl; now eexists].
      intros d Hd. unfold baseline_cell. now rewrite Hd.
    - destruct (Hcells _ (peak_cell time_x row) (NA, NA)) as (bs & ->).
      + intros d Hd. unfold peak_cell. now rewrite Hd.
      + simpl. destruct (CalculateSIorII row); now eexists. }
  destruct Hstep as (tbl1 & ->). simpl. apply IH.
Qed.

End TableShape.

(** X19.  In a returned trait table every column has one entry per
    donor, the table has no two columns of the same name, and its column
    names are, in order, "Donor ID" followed by the names assigned by the
    phase rows, each at the place of its first assignment. *)
Theorem trait_table_shape :
  forall (input_df : InputDF) (parameter_df : ParameterDF)
         (trait_prefix : string) (tbl : DataFrame),
    traits_for_all input_df parameter_df trait_prefix = Ok tbl ->
    map fst tbl = column_names trait_prefix (rows parameter_df)
    /\ NoDup (map fst tbl)
    /\ forall name c,
         In (name, c) tbl ->
         column_length c = List.length (donors_in input_df).
Proof.
  intros input_df parameter_df trait_prefix tbl.
  unfold traits_for_all, donors_in.
  destruct (time_columns input_df) as [|time_col more]; [discriminate|].
  destruct (missing_columns parameter_df); [|discriminate].
  intros Hrun. apply run_phases_shape in Hrun as [Hkeys Hlen].
  split; [exact Hkeys|]. split.
  - rewrite Hkeys. apply fold_add_key_NoDup. repeat constructor. intros [].
  - apply Hlen. intros k c [[= <- <-] | []]. simpl. apply length_map.
Qed.

Lemma trait_table_shape_witness :
  exists tbl,
    traits_for_all Sample.input_df Sample.parameter_df "INS" = Ok tbl
    /\ map fst tbl
       = ["Donor ID"; "INS Basal"; "INS G 16.7 AUC"; "INS G 16.7 SI"].
Proof.
  assert (Hok : exists tbl,
             traits_for_all Sample.input_df Sample.parameter_df "INS" = Ok tbl)
    by (eexists; vm_compute; reflexivity).
  destruct Hok as (tbl & Hok). exists tbl. split; [exact Hok|].
  destruct (trait_table_shape _ _ _ _ Hok) as (-> & _). reflexivity.
Defined.

(** X20.  When the tables validate and every donor column holds a
    missing sample (or there is no donor at all), the call succeeds
    whatever the phase rows hold: range strings are parsed per complete
    donor only, so a malformed one goes unnoticed. *)
Theorem no_complete_donor_no_error :
  forall (input_df : InputDF) (parameter_df : ParameterDF)
         (trait_prefix : string),
    time_columns input_df <> [] ->
    missing_columns parameter_df = [] ->
    (forall donor, In donor (donors_in input_df) ->
                   Np.hasnans (snd donor) = true) ->
    exists tbl, traits_for_all input_df parameter_df trait_prefix = Ok tbl.
Proof.
  intros input_df parameter_df trait_prefix Htime Hcols.
  unfold traits_for_all, donors_in.
  destruct (time_columns input_df) as [|time_col more]; [congruence|].
  rewrite Hcols. intros Hgap. now apply run_phases_incomplete.
Qed.

Lemma no_complete_donor_no_error_witness :
  exists tbl,
    traits_for_all
      [("time", Sample.time); ("D2", Sample.donor2)]
      (mkParameterDF required_columns
         [mkPhaseRow "G" "three to seven" "" (Fin 0) 3 "Peak" false true])
      "INS"
    = Ok tbl.
Proof.
  apply no_complete_donor_no_error.
  - discriminate.
  - reflexivity.
  - intros donor [<- | []]. reflexivity.
Defined.

(** ** TraitOrchestrator: the range of the indices *)

Lemma clipped_height (m : float) :
  exists h, (if gt m (Fin 0) then m else Fin 0) = Fin h /\ 0 <= h.
Proof.
  destruct m as [|mq]; [exists 0; split; [reflexivity | apply Qle_refl]|].
  destruct (gt (Fin mq) (Fin 0)) eqn:E.
  - apply gt_Fin in E. exists mq. split; [reflexivity | lra].
  - exists 0. split; [reflexivity | apply Qle_refl].
Qed.



(** X22.  An inhibition index is stored only for a numeric baseline, it
    is positive, at least 1 when the baseline is positive and at most 1
    when the baseline is negative. *)
Theorem inhibition_index_range :
  forall (baseline sub_y_max v : float),
    index_of true baseline sub_y_max = Val v ->
    exists b q,
      baseline = Fin b /\ v = Fin q /\ 0 < q
      /\ (0 < b -> 1 <= q) /\ (b < 0 -> q <= 1).
Proof.
  intros baseline sub_y_max v. unfold index_of.
  destruct (clipped_height sub_y_max) as (h & -> & Hh).
  destruct baseline as [|b]; [discriminate|].
  simpl sub. simpl mul.
  destruct (gt (Fin ((b - h) * b)) (Fin 0)) eqn:Hprod; [|discriminate].
  apply gt_Fin in Hprod. intros [= <-].
  exists b, (b / (b - h)). split; [reflexivity|]. split; [reflexivity|].
  destruct (Qlt_le_dec 0 b) as [Hpos | Hneg].
  - assert (Hv : 0 < b - h).
    { apply Qnot_le_lt. intros Hle.
      assert (0 <= (0 - (b - h)) * b)
        by (apply Qmult_le_0_compat; lra).
      lra. }
    split; [|split].
    + apply Qlt_shift_div_l; [exact Hv | lra].
    + intros _. apply Qle_shift_div_l; [exact Hv | lra].
    + intros Hb. lra.
  - assert (Hb : b < 0).
    { apply Qnot_le_lt. intros Hle.
      assert (E : b == 0) by (apply Qle_antisym; assumption).
      rewrite E, Qmult_0_r in Hprod. lra. }
    assert (Hv : 0 < - (b - h)) by lra.
    assert (E : b / (b - h) == (- b) / (- (b - h))) by (field; lra).
    rewrite E. split; [|split].
    + apply Qlt_shift_div_l; [exact Hv | lra].
    + intros Hb'. lra.
    + intros _. apply Qle_shift_div_r; [exact Hv | lra].
Qed.

Lemma inhibition_index_range_witness :
  exists b q,
    Fin 2 = Fin b /\ div (Fin 2) (sub (Fin 2) (Fin 1)) = Fin q /\ 0 < q
    /\ (0 < b -> 1 <= q) /\ (b < 0 -> q <= 1).
Proof.
  apply (inhibition_index_range (Fin 2) (Fin 1)).
  reflexivity.
Defined.

(** ** TraitOrchestrator: what the other columns store *)

Lemma append_inv_head (s a b : string) :
  (s ++ a)%string = (s ++ b)%string -> a = b.
Proof.
  induction s as [|c s IH]; simpl; [trivial|].
  intros [= H]. now apply IH.
Qed.

Lemma index_name_not_auc (trait_prefix : string) (row : PhaseRow) :
  index_trait_name trait_prefix row <> auc_trait_name trait_prefix row.
Proof.
  unfold index_trait_name, auc_trait_name. intros E.
  apply append_inv_head in E. simpl in E. injection E as E.
  apply append_inv_head in E.
  destruct (NegativePeak row); discriminate.
Qed.

Section StoredColumns.

Variable trait_prefix : string.
Variable time_x : list float.
Variable donors : list (string * list float).

Lemma stored_column (key : string) (col : column)
    (before after : list PhaseRow) (row : PhaseRow) (tbl0 tbl : DataFrame) :
  run_phases trait_prefix time_x donors tbl0 (before ++ row :: after) = Ok tbl ->
  (forall tbl1 tbl2,
      phase_step trait_prefix time_x donors tbl1 row = Ok tbl2 ->
      dict_get key tbl2 = Some col) ->
  (forall later, In later after ->
                 ~ In key (assigned_names trait_prefix later)) ->
  dict_get key tbl = Some col.
Proof.
  intros Hrun Hstep Hlater. rewrite run_phases_app in Hrun.
  destruct (run_phases trait_prefix time_x donors tbl0 before) as [tbl1|];
    [|discriminate].
  simpl in Hrun.
  destruct (phase_step trait_prefix time_x donors tbl1 row) as [tbl2|] eqn:Es;
    [|discriminate].
  simpl in Hrun.
  rewrite (run_phases_keeps _ _ _ _ _ _ _ Hlater Hrun).
  now apply (Hstep tbl1 tbl2).
Qed.

Lemma phase_step_cells (tbl1 tbl2 : DataFrame) (row : PhaseRow) :
  phase_step trait_prefix time_x donors tbl1 row = Ok tbl2 ->
  if is_baseline row then
    exists results,
      mapM (baseline_cell time_x row) donors = Ok results
      /\ dict_get (baseline_trait_name trait_prefix row) tbl2
         = Some (Traits results)
  else
    exists cells,
      mapM (peak_cell time_x row) donors = Ok cells
      /\ dict_get (auc_trait_name trait_prefix row) tbl2
         = Some (Traits (map fst cells)).
Proof.
  unfold phase_step. destruct (is_baseline row).
  - destruct (mapM (baseline_cell time_x row) donors) as [results|];
      [|discriminate].
    simpl. intros [= <-]. exists results. split; [reflexivity|].
    apply dict_get_set_same.
  - destruct (mapM (peak_cell time_x row) donors) as [cells|];
      [|discriminate].
    simpl. destruct (CalculateSIorII row); intros [= <-];
      exists cells; (split; [reflexivity|]).
    + rewrite dict_get_set_other by apply index_name_not_auc.
      apply dict_get_set_same.
    + apply dict_get_set_same.
Qed.

End StoredColumns.

Lemma mapM_deterministic_cells {A B} (f : A -> result B) (l : list A)
    (bs bs' : list B) :
  mapM f l = Ok bs -> mapM f l = Ok bs' -> bs = bs'.
Proof. congruence. Qed.

(** X23.  When [traits_for_all] returns a table: for every peak-kind
    phase whose AUC column is not assigned again by a later row, and
    every donor without missing sample, the stored AUC is the total
    area the integrator returns for the baseline-corrected window of
    the phase. *)
Theorem stored_auc :
  forall (input_df : InputDF) (parameter_df : ParameterDF)
         (trait_prefix : string) (tbl : DataFrame)
         (time_col : string * list float) (more : InputDF)
         (before after : list PhaseRow) (row : PhaseRow),
    traits_for_all input_df parameter_df trait_prefix = Ok tbl ->
    time_columns input_df = time_col :: more ->
    rows parameter_df = before ++ row :: after ->
    is_baseline row = false ->
    (forall later, In later after ->
        ~ In (auc_trait_name trait_prefix row)
             (assigned_names trait_prefix later)) ->
    exists values,
      dict_get (auc_trait_name trait_prefix row) tbl = Some (Traits values)
      /\ Forall2
           (fun donor v =>
              Np.hasnans (snd donor) = false ->
              exists sub_x sub_y y_baseline,
                parse_peak_and_baseline_region (snd time_col) (snd donor)
                  (PeakRange row) (BaselineTime row) (NegativePeak row)
                = Ok (sub_x, sub_y, y_baseline)
                /\ v = Val (total_area
                              (fst (AUC_from_a_region sub_x sub_y y_baseline
                                      (MinHeightRatio row)
                                      (MinPeakLength row)))))
           (donors_of input_df (fst time_col)) values.
Proof.
  intros input_df parameter_df trait_prefix tbl time_col more before after row
         Hrun Htime Hrows Hkind Hlater.
  unfold traits_for_all in Hrun. rewrite Htime in Hrun.
  destruct (missing_columns parameter_df); [|discriminate].
  rewrite Hrows in Hrun.
  pose proof Hrun as Hrun'. rewrite run_phases_app in Hrun'.
  destruct (run_phases trait_prefix (snd time_col) _ _ before) as [tbl1|];
    [|discriminate].
  simpl in Hrun'.
  destruct (phase_step trait_prefix (snd time_col) _ tbl1 row) as [tbl2|] eqn:Es;
    [|discriminate].
  pose proof (phase_step_cells _ _ _ _ _ _ Es) as Hcells.
  rewrite Hkind in Hcells. destruct Hcells as (cells & Hcells & _).
  exists (map fst cells). split.
  - apply (stored_column _ _ _ _ _ before after row _ _ Hrun); [|exact Hlater].
    intros t1 t2 Ht. pose proof (phase_step_cells _ _ _ _ _ _ Ht) as H.
    rewrite Hkind in H. destruct H as (cells' & Hc' & Hget).
    now rewrite (mapM_deterministic_cells _ _ _ _ Hcells Hc').
  - apply mapM_ok in Hcells.
    apply (Forall2_map_r _ _ fst _ _ Hcells).
    intros donor cell Hcell Hnan.
    destruct (peak_cell_ok _ _ _ _ Hcell Hnan)
      as (sub_x & sub_y & y_baseline & m & Hparse & _ & ->).
    now exists sub_x, sub_y, y_baseline.
Qed.

Lemma stored_auc_witness :
  exists values,
    dict_get "INS G 16.7 AUC"
      match traits_for_all Sample.input_df Sample.parameter_df "INS" with
      | Ok tbl => tbl
      | Raise _ => []
      end
    = Some (Traits values)
    /\ List.length values = 2%nat.
Proof.
  assert (Hok : exists tbl,
             traits_for_all Sample.input_df Sample.parameter_df "INS" = Ok tbl)
    by (eexists; vm_compute; reflexivity).
  destruct Hok as (tbl & Hok).
  destruct (stored_auc
              Sample.input_df Sample.parameter_df "INS" tbl
              ("Time", Sample.time) [] [Sample.basal] [] Sample.stimulus Hok
              eq_refl eq_refl eq_refl
              (fun later (H : In later []) => match H with end))
    as (values & Hget & Hall).
  exists values. rewrite Hok. split; [exact Hget|].
  apply Forall2_length in Hall. now rewrite <- Hall.
Defined.

(** X24.  When [traits_for_all] returns a table: for every baseline
    phase whose column is not assigned again by a later row, and every
    donor without missing sample, the stored value is the basal
    secretion over the row's BaselineTime; the row's PeakRange and
    thresholds play no part. *)
Theorem stored_basal :
  forall (input_df : InputDF) (parameter_df : ParameterDF)
         (trait_prefix : string) (tbl : DataFrame)
         (time_col : string * list float) (more : InputDF)
         (before after : list PhaseRow) (row : PhaseRow),
    traits_for_all input_df parameter_df trait_prefix = Ok tbl ->
    time_columns input_df = time_col :: more ->
    rows parameter_df = before ++ row :: after ->
    is_baseline row = true ->
    (forall later, In later after ->
        ~ In (baseline_trait_name trait_prefix row)
             (assigned_names trait_prefix later)) ->
    exists values,
      dict_get (baseline_trait_name trait_prefix row) tbl
      = Some (Traits values)
      /\ Forall2
           (fun donor v =>
              Np.hasnans (snd donor) = false ->
              exists basal,
                parse_basal_secretion (snd time_col) (snd donor)
                  (BaselineTime row)
                = Ok basal
                /\ v = Val basal)
           (donors_of input_df (fst time_col)) values.
Proof.
  intros input_df parameter_df trait_prefix tbl time_col more before after row
         Hrun Htime Hrows Hkind Hlater.
  unfold traits_for_all in Hrun. rewrite Htime in Hrun.
  destruct (missing_columns parameter_df); [|discriminate].
  rewrite Hrows in Hrun.
  pose proof Hrun as Hrun'. rewrite run_phases_app in Hrun'.
  destruct (run_phases trait_prefix (snd time_col) _ _ before) as [tbl1|];
    [|discriminate].
  simpl in Hrun'.
  destruct (phase_step trait_prefix (snd time_col) _ tbl1 row) as [tbl2|] eqn:Es;
    [|discriminate].
  pose proof (phase_step_cells _ _ _ _ _ _ Es) as Hcells.
  rewrite Hkind in Hcells. destruct Hcells as (results & Hcells & _).
  exists results. split.
  - apply (stored_column _ _ _ _ _ before after row _ _ Hrun); [|exact Hlater].
    intros t1 t2 Ht. pose proof (phase_step_cells _ _ _ _ _ _ Ht) as H.
    rewrite Hkind in H. destruct H as (results' & Hc' & Hget).
    now rewrite (mapM_deterministic_cells _ _ _ _ Hcells Hc').
  - apply mapM_ok in Hcells.
    rewrite <- (map_id results).
    apply (Forall2_map_r _ _ (fun v => v) _ _ Hcells).
    intros donor cell Hcell Hnan. unfold baseline_cell in Hcell.
    rewrite Hnan in Hcell.
    destruct (parse_basal_secretion _ _ _) as [basal|]; [|discriminate].
    simpl in Hcell. injection Hcell as <-. now exists basal.
Qed.

Lemma stored_basal_witness :
  exists values,
    dict_get "INS Basal"
      match traits_for_all Sample.input_df Sample.parameter_df "INS" with
      | Ok tbl => tbl
      | Raise _ => []
      end
    = Some (Traits values)
    /\ List.length values = 2%nat.
Proof.
  assert (Hok : exists tbl,
             traits_for_all Sample.input_df Sample.parameter_df "INS" = Ok tbl)
    by (eexists; vm_compute; reflexivity).
  destruct Hok as (tbl & Hok).
  destruct (stored_basal
              Sample.input_df Sample.parameter_df "INS" tbl
              ("Time", Sample.time) [] [] [Sample.stimulus] Sample.basal Hok
              eq_refl eq_refl eq_refl)
    as (values & Hget & Hall).
  - intros later [<- | []]. vm_compute.
    intros [H | [H | []]]; discriminate.
  - exists values. rewrite Hok. split; [exact Hget|].
    apply Forall2_length in Hall. now rewrite <- Hall.
Defined.

(** X25.  When [traits_for_all] returns a table: for every peak-kind
    phase with CalculateSIorII set and NegativePeak true whose II column
    is not assigned again by a later row, and every donor without
    missing sample, the stored II is baseline / valleyMin when
    valleyMin * baseline > 0 and NA otherwise, where
    valleyMin = baseline - maxHeight and maxHeight is the maximum of the
    window corrected as baseline - value, clipped at zero. *)
Theorem stored_inhibition_index :
  forall (input_df : InputDF) (parameter_df : ParameterDF)
         (trait_prefix : string) (tbl : DataFrame)
         (time_col : string * list float) (more : InputDF)
         (before after : list PhaseRow) (row : PhaseRow),
    traits_for_all input_df parameter_df trait_prefix = Ok tbl ->
    time_columns input_df = time_col :: more ->
    rows parameter_df = before ++ row :: after ->
    is_baseline row = false ->
    CalculateSIorII row = true ->
    NegativePeak row = true ->
    (forall later, In later after ->
        ~ In (index_trait_name trait_prefix row)
             (assigned_names trait_prefix later)) ->
    exists values,
      dict_get (index_trait_name trait_prefix row) tbl = Some (Traits values)
      /\ Forall2
           (fun donor v =>
              Np.hasnans (snd donor) = false ->
              exists sub_x sub_y y_baseline sub_y_max,
                parse_peak_and_baseline_region (snd time_col) (snd donor)
                  (PeakRange row) (BaselineTime row) true
                = Ok (sub_x, sub_y, y_baseline)
                /\ Np.max sub_y = Ok sub_y_max
                /\ let maxHeight :=
                     if gt sub_y_max (Fin 0) then sub_y_max else Fin 0 in
                   let valleyMin := sub y_baseline maxHeight in
                   v = if gt (mul valleyMin y_baseline) (Fin 0)
                       then Val (div y_baseline valleyMin)
                       else NA)
           (donors_of input_df (fst time_col)) values.
Proof.
  intros input_df parameter_df trait_prefix tbl time_col more before after row
         Hrun Htime Hrows Hkind Hindex Hneg Hlater.
  unfold traits_for_all in Hrun. rewrite Htime in Hrun.
  destruct (missing_columns parameter_df); [|discriminate].
  rewrite Hrows in Hrun.
  pose proof Hrun as Hrun'. rewrite run_phases_app in Hrun'.
  destruct (run_phases trait_prefix (snd time_col) _ _ before) as [tbl1|];
    [|discriminate].
  simpl in Hrun'.
  destruct (phase_step trait_prefix (snd time_col) _ tbl1 row) as [tbl2|] eqn:Es;
    [|discriminate].
  destruct (phase_step_index _ _ _ _ _ _ Hkind Hindex Es)
    as (cells & Hcells & _).
  exists (map snd cells). split.
  - apply (stored_column _ _ _ _ _ before after row _ _ Hrun); [|exact Hlater].
    intros t1 t2 Ht.
    destruct (phase_step_index _ _ _ _ _ _ Hkind Hindex Ht)
      as (cells' & Hc' & Hget).
    now rewrite (mapM_deterministic_cells _ _ _ _ Hcells Hc').
  - apply mapM_ok in Hcells.
    apply (Forall2_map_r _ _ snd _ _ Hcells).
    intros donor cell Hcell Hnan.
    destruct (peak_cell_ok _ _ _ _ Hcell Hnan)
      as (sub_x & sub_y & y_baseline & m & Hparse & Hmax & ->).
    rewrite Hneg in *. exists sub_x, sub_y, y_baseline, m.
    split; [exact Hparse|]. split; [exact Hmax|]. reflexivity.
Qed.

Lemma stored_inhibition_index_witness :
  exists values,
    dict_get "GCG Epi II"
      match traits_for_all sample_dip_input sample_inhibition_df "GCG" with
      | Ok tbl => tbl
      | Raise _ => []
      end
    = Some (Traits values)
    /\ exists v, nth 0 values NA = Val (Fin v) /\ v == 2.
Proof.
  assert (Hok : exists tbl,
             traits_for_all sample_dip_input sample_inhibition_df "GCG" = Ok tbl)
    by (eexists; vm_compute; reflexivity).
  destruct Hok as (tbl & Hok).
  destruct (stored_inhibition_index
              sample_dip_input sample_inhibition_df "GCG" tbl
              ("time", map of_Z [1; 2; 3; 4; 5; 6; 7]%Z) [] [] []
              sample_inhibition Hok
              eq_refl eq_refl eq_refl eq_refl eq_refl
              (fun later (H : In later []) => match H with end))
    as (values & Hget & Hall).
  exists values. rewrite Hok. split; [exact Hget|].
  inversion Hall as [|donor v ds vs Hv _ Eds Evs]; subst.
  destruct (Hv eq_refl)
    as (sub_x & sub_y & y_baseline & m & Hparse & Hmax & Hval).
  vm_compute in Hparse. injection Hparse as <- <- <-.
  vm_compute in Hmax. injection Hmax as <-.
  vm_compute in Hval. subst v.
  eexists. split; [reflexivity | reflexivity].
Defined.

(** ** TraitOrchestrator: where each exception comes from *)

Lemma mapM_exn {A B} (f : A -> result B) (l : list A) (e : exn) :
  mapM f l = Raise e -> exists a, In a l /\ f a = Raise e.
Proof.
  induction l as [|a l IH]; simpl; [discriminate|].
  destruct (f a) as [b|e'] eqn:Ea; simpl.
  - destruct (mapM f l) as [bs|e'']; simpl; [discriminate|].
    intros [= <-]. destruct (IH eq_refl) as (a' & Hin & Ha').
    exists a'. split; [now right | exact Ha'].
  - intros [= <-]. exists a. split; [now left | exact Ea].
Qed.

Lemma parse_basal_exn (entire_x entire_y : list float) (spec : string)
    (e : exn) :
  parse_basal_secretion entire_x entire_y spec = Raise e -> e = ValueError.
Proof.
  unfold parse_basal_secretion.
  destruct (resolve entire_x spec) eqn:E; simpl; [discriminate|].
  intros [= <-]. eauto using resolve_exn.
Qed.

Lemma parse_region_exn (entire_x entire_y : list float)
    (peak_range base : string) (negative_peak : bool) (e : exn) :
  parse_peak_and_baseline_region entire_x entire_y peak_range base
    negative_peak = Raise e ->
  e = ValueError.
Proof.
  unfold parse_peak_and_baseline_region.
  destruct (resolve entire_x base) eqn:E; simpl;
    [|intros [= <-]; eauto using resolve_exn].
  destruct (PyStr.split "-" peak_range) as [|start [|end_ [|? ?]]];
    try (now intros [= <-]).
  destruct (PyStr.int start) eqn:Es; simpl;
    [|intros [= <-]; eauto using int_exn].
  destruct (PyStr.int end_) eqn:Ee; simpl; [discriminate|].
  intros [= <-]; eauto using int_exn.
Qed.

Lemma baseline_cell_exn (time_x : list float) (row : PhaseRow)
    (donor : string * list float) (e : exn) :
  baseline_cell time_x row donor = Raise e ->
  e = ValueError /\ Np.hasnans (snd donor) = false.
Proof.
  unfold baseline_cell. destruct (Np.hasnans (snd donor)); [discriminate|].
  destruct (parse_basal_secretion _ _ _) eqn:E; simpl; [discriminate|].
  intros [= <-]. split; [eauto using parse_basal_exn | reflexivity].
Qed.

Lemma peak_cell_exn (time_x : list float) (row : PhaseRow)
    (donor : string * list float) (e : exn) :
  peak_cell time_x row donor = Raise e ->
  e = ValueError /\ Np.hasnans (snd donor) = false.
Proof.
  unfold peak_cell. destruct (Np.hasnans (snd donor)); [discriminate|].
  destruct (parse_peak_and_baseline_region _ _ _ _ _)
    as [[[sub_x sub_y] y_baseline]|e'] eqn:E; simpl.
  - destruct (AUC_from_a_region _ _ _ _ _) as [summary peaks].
    destruct sub_y as [|v sub_y]; simpl; [|discriminate].
    intros [= <-]. now split.
  - intros [= <-]. split; [eauto using parse_region_exn | reflexivity].
Qed.

Lemma run_phases_exn (trait_prefix : string) (time_x : list float)
    (donors : list (string * list float)) (phases : list PhaseRow)
    (tbl : DataFrame) (e : exn) :
  run_phases trait_prefix time_x donors tbl phases = Raise e ->
  e = ValueError
  /\ exists row donor,
       In row phases /\ In donor donors /\ failing_cell time_x row donor.
Proof.
  revert tbl. induction phases as [|row phases IH]; intros tbl; simpl;
    [discriminate|].
  destruct (phase_step trait_prefix time_x donors tbl row) as [tbl1|e'] eqn:Es;
    simpl.
  - intros Hrun. destruct (IH tbl1 Hrun) as (He & r & d & Hr & Hd & Hfail).
    split; [exact He|]. exists r, d. split; [now right | now split].
  - intros [= <-]. unfold phase_step in Es. unfold failing_cell.
    destruct (is_baseline row) eqn:Hkind.
    + destruct (mapM (baseline_cell time_x row) donors) as [bs|e''] eqn:Em;
        simpl in Es; [discriminate|].
      injection Es as <-.
      destruct (mapM_exn _ _ _ Em) as (d & Hd & Hcell).
      destruct (baseline_cell_exn _ _ _ _ Hcell) as [-> Hnan].
      split; [reflexivity|]. exists row, d.
      split; [now left|]. split; [exact Hd|]. rewrite Hkind. now split.
    + destruct (mapM (peak_cell time_x row) donors) as [bs|e''] eqn:Em;
        simpl in Es; [destruct (CalculateSIorII row); discriminate|].
      injection Es as <-.
      destruct (mapM_exn _ _ _ Em) as (d & Hd & Hcell).
      destruct (peak_cell_exn _ _ _ _ Hcell) as [-> Hnan].
      split; [reflexivity|]. exists row, d.
      split; [now left|]. split; [exact Hd|]. rewrite Hkind. now split.
Qed.

(** X26.  The three exceptions of [traits_for_all] have separate
    causes: KeyError exactly when no column name contains "time";
    AssertionError exactly when there is a time column and a required
    parameter column is missing; ValueError only after both tables
    validated, and then some phase row and some donor without missing
    sample exist whose cell computation raised it. *)
Theorem exception_causes :
  forall (input_df : InputDF) (parameter_df : ParameterDF)
         (trait_prefix : string),
    (traits_for_all input_df parameter_df trait_prefix = Raise KeyError
     <-> time_columns input_df = [])
    /\ (traits_for_all input_df parameter_df trait_prefix
        = Raise AssertionError
        <-> time_columns input_df <> []
            /\ missing_columns parameter_df <> [])
    /\ (traits_for_all input_df parameter_df trait_prefix = Raise ValueError ->
        exists time_col more row donor,
          time_columns input_df = time_col :: more
          /\ missing_columns parameter_df = []
          /\ In row (rows parameter_df)
          /\ In donor (donors_of input_df (fst time_col))
          /\ failing_cell (snd time_col) row donor).
Proof.
  intros input_df parameter_df trait_prefix. unfold traits_for_all.
  destruct (time_columns input_df) as [|time_col more].
  - split; [split; reflexivity|]. split; [|discriminate].
    split; [discriminate | intros [H _]; congruence].
  - destruct (missing_columns parameter_df) as [|c cs].
    + split; [|split].
      * split; [|discriminate]. intros H.
        apply run_phases_exn in H as [H _]. discriminate.
      * split; [|intros [_ H]; congruence]. intros H.
        apply run_phases_exn in H as [H _]. discriminate.
      * intros H. apply run_phases_exn in H as (_ & row & donor & Hr & Hd & Hf).
        exists time_col, more, row, donor. auto.
    + split; [split; discriminate|]. split; [|discriminate].
      split; [|reflexivity]. intros _. split; discriminate.
Qed.

Lemma exception_causes_witness :
  exists time_col more row donor,
    time_columns Sample.input_df = time_col :: more
    /\ missing_columns Sample.late_parameter_df = []
    /\ In row (rows Sample.late_parameter_df)
    /\ In donor (donors_of Sample.input_df (fst time_col))
    /\ failing_cell (snd time_col) row donor.
Proof.
  destruct (exception_causes Sample.input_df Sample.late_parameter_df "INS")
    as (_ & _ & H).
  apply H. vm_compute. reflexivity.
Defined.

(** ** BaselineEstimator: only the denoted times matter *)

(** X27.  Two well-formed specifications that denote the same times of
    the axis give the same basal secretion: neither the order of the
    tokens nor their overlaps matter. *)
Theorem basal_depends_on_denoted_times :
  forall (entire_x entire_y : list float) (tok tok' : token)
         (toks toks' : list token),
    (forall t, In t entire_x ->
       ((exists k, In k (tok :: toks) /\ denotes k t)
        <-> (exists k, In k (tok' :: toks') /\ denotes k t))) ->
    parse_basal_secretion entire_x entire_y (render_spec (tok :: toks))
    = parse_basal_secretion entire_x entire_y (render_spec (tok' :: toks')).
Proof.
  intros entire_x entire_y tok tok' toks toks' Hsame.
  rewrite !basal_render. do 3 f_equal.
  unfold denoted_mask. apply map_ext_in. intros t Ht.
  apply eq_true_iff_eq. rewrite !existsb_exists.
  specialize (Hsame t Ht).
  split; intros (k & Hk & Hd); apply denotesb_spec in Hd.
  - destruct (proj1 Hsame (ex_intro _ k (conj Hk Hd))) as (k' & Hk' & Hd').
    exists k'. split; [exact Hk' | now apply denotesb_spec].
  - destruct (proj2 Hsame (ex_intro _ k (conj Hk Hd))) as (k' & Hk' & Hd').
    exists k'. split; [exact Hk' | now apply denotesb_spec].
Qed.

Lemma basal_depends_on_denoted_times_witness :
  parse_basal_secretion Sample.time Sample.donor1 "3-5|4-6"
  = parse_basal_secretion Sample.time Sample.donor1 "6|3-5|4".
Proof.
  apply (basal_depends_on_denoted_times Sample.time Sample.donor1
           (Interval 3 5) (Point 6) [Interval 4 6] [Interval 3 5; Point 4]).
  intros t Ht.
  assert (Hb : existsb (fun k => denotesb k t) [Interval 3 5; Interval 4 6]
               = existsb (fun k => denotesb k t)
                         [Point 6; Interval 3 5; Point 4]).
  { simpl in Ht.
    repeat (destruct Ht as [<- | Ht]; [reflexivity|]). contradiction. }
  split; intros (k & Hk & Hd); apply denotesb_spec in Hd.
  - assert (H : existsb (fun k => denotesb k t)
                        [Point 6; Interval 3 5; Point 4] = true).
    { rewrite <- Hb. apply existsb_exists. now exists k. }
    apply existsb_exists in H as (k' & Hk' & Hd').
    exists k'. split; [exact Hk' | now apply denotesb_spec].
  - assert (H : existsb (fun k => denotesb k t)
                        [Interval 3 5; Interval 4 6] = true).
    { rewrite Hb. apply existsb_exists. now exists k. }
    apply existsb_exists in H as (k' & Hk' & Hd').
    exists k'. split; [exact Hk' | now apply denotesb_spec].
Defined.

(** ** The donor lookup of the HPAP script *)

Lemma rr2hpap_app (before after : list (string * string)) :
  rr2hpap (before ++ after)
  = fold_left (fun d row => dict_set (fst row) (snd row) d) after
              (rr2hpap before).
Proof. unfold rr2hpap. apply fold_left_app. Qed.

Lemma fold_dict_set_other (rows_ : list (string * string))
    (d : list (string * string)) (idx : string) :
  (forall row, In row rows_ -> fst row <> idx) ->
  dict_get idx (fold_left (fun d row => dict_set (fst row) (snd row) d) rows_ d)
  = dict_get idx d.
Proof.
  revert d. induction rows_ as [|row rows_ IH]; intros d H; simpl;
    [reflexivity|].
  rewrite IH by (intros r Hr; apply H; now right).
  apply dict_get_set_other. apply H. now left.
Qed.

(** X28.  In the HPAP script, every index label of the merged table
    gets the donor_ID of the last row of the donor sheet that carries it
    as rrid, and NA when no row carries it. *)
Theorem hpap_id_lookup :
  forall (hpap_info : list (string * string)) (index : list string),
    Forall2
      (fun idx v =>
         ((forall row, In row hpap_info -> fst row <> idx) -> v = None)
         /\ (forall before after donor_ID,
               hpap_info = before ++ (idx, donor_ID) :: after ->
               (forall row, In row after -> fst row <> idx) ->
               v = Some donor_ID))
      index (hpap_ids hpap_info index).
Proof.
  intros hpap_info index. unfold hpap_ids.
  induction index as [|idx index IH]; simpl; constructor; [|exact IH].
  split.
  - intros Hnone. unfold rr2hpap. now rewrite fold_dict_set_other.
  - intros before after donor_ID -> Hafter.
    rewrite rr2hpap_app. simpl.
    rewrite fold_dict_set_other by exact Hafter.
    apply dict_get_set_same.
Qed.

Lemma Forall2_at {A B} (P : A -> B -> Prop) (l : list A) (l' : list B)
    (i : nat) (a : A) (b : B) :
  Forall2 P l l' -> (i < List.length l)%nat -> P (nth i l a) (nth i l' b).
Proof.
  intros H. revert i. induction H as [|x y l l' Hxy _ IH]; intros i Hi;
    simpl in *; [lia|].
  destruct i as [|i]; [exact Hxy | apply IH; lia].
Qed.

Lemma hpap_id_lookup_witness :
  nth 0 (hpap_ids [("RRID-1", "HPAP-001"); ("RRID-2", "HPAP-002");
                   ("RRID-1", "HPAP-010")]
                  ["RRID-1"; "RRID-9"]) None
  = Some "HPAP-010"
  /\ nth 1 (hpap_ids [("RRID-1", "HPAP-001"); ("RRID-2", "HPAP-002");
                      ("RRID-1", "HPAP-010")]
                     ["RRID-1"; "RRID-9"]) None
     = None.
Proof.
  pose proof (hpap_id_lookup
                [("RRID-1", "HPAP-001"); ("RRID-2", "HPAP-002");
                 ("RRID-1", "HPAP-010")]
                ["RRID-1"; "RRID-9"]) as H.
  assert (H0 := Forall2_at _ _ _ 0 "" None H (Nat.lt_0_succ 1)).
  assert (H1 := Forall2_at _ _ _ 1 "" None H (Nat.lt_succ_diag_r 1)).
  cbv beta in H0, H1. destruct H0 as [_ H0]. destruct H1 as [H1 _].
  split.
  - apply (H0 [("RRID-1", "HPAP-001"); ("RRID-2", "HPAP-002")] [] "HPAP-010");
      [reflexivity | intros row []].
  - apply H1. intros row [<- | [<- | [<- | []]]]; discriminate.
Defined.
